(** * Structured extraction and CSV normalisation of scap.py

    A shallow embedding of [StructuredDataParser], [FormattedCSVExporter]
    and [FormattedScraper] from scap.py, with the properties of the
    specification stated over it and with invariants of the code
    itself.

    Conventions of the embedding:
    - Python [str] values are Rocq strings whose characters are the code
      points below 256; the character classes of [re] and [str.strip] are
      Python's Unicode classes restricted to that range.
    - A Python [dict] is an association list in insertion order.
    - The parsed BeautifulSoup tree is a rose tree of elements and text
      nodes (documents without comments, scripts or style sheets).
    - Exceptions are values of [PyExn]; code that can raise lives in the
      monad [M], which also threads the logger.
    - [StructuredDataParser] and [FormattedScraper] take
      [BeautifulSoup] and [urlparse] as total functions; [Raising]
      repeats the constructor and the methods of the scraper with the
      exceptions of the two calls, and agrees with them where neither
      call raises.
    - The files of a [World] are the writes made so far, the latest
      first; a write to a name written before stands for the
      replacement of that file.
    - The limits of the interpreter are left out: the comparison of
      two elements and the text form of a number are total, whatever
      the depth of the tree and the number of digits. *)

From Stdlib Require Import List Bool Arith ZArith Lia Ascii String.
From Stdlib Require Import DecimalString DecimalNat DecimalZ Sorted.
Import ListNotations.
Open Scope string_scope.
Open Scope list_scope.
Open Scope nat_scope.

(** String concatenation, written apart from list append. *)
Infix "+++" := String.append (right associativity, at level 60).

(* ================================================================== *)
(** ** Python runtime: characters and strings *)
(* ================================================================== *)

Module Py.

Definition ord (c : ascii) : nat := nat_of_ascii c.

Definition between (lo hi : nat) (c : ascii) : bool :=
  (lo <=? ord c) && (ord c <=? hi).

Definition one_of (codes : list nat) (c : ascii) : bool :=
  existsb (Nat.eqb (ord c)) codes.

(** [\s] and [str.isspace]: TAB..CR, FS..US, SPACE, NEL, NBSP. *)
Definition is_space (c : ascii) : bool :=
  between 9 13 c || between 28 32 c || one_of [133; 160] c.

(** [\d]: decimal digits (category Nd). *)
Definition is_digit (c : ascii) : bool := between 48 57 c.

(** [[a-zA-Z]]. *)
Definition is_ascii_alpha (c : ascii) : bool :=
  between 97 122 c || between 65 90 c.

(** [\w]: alphanumeric code points (alphabetic, decimal, digit or
    numeric) and the underscore. *)
Definition is_word (c : ascii) : bool :=
  is_ascii_alpha c || is_digit c
  || one_of [95; 170; 178; 179; 181; 185; 186; 188; 189; 190] c
  || between 192 214 c || between 216 246 c || between 248 255 c.

(** [[\x00-\x1f\x7f-\x9f]]. *)
Definition is_control (c : ascii) : bool :=
  between 0 31 c || between 127 159 c.

Definition dquote : ascii := ascii_of_nat 34.
Definition squote : ascii := ascii_of_nat 39.
Definition backslash : ascii := ascii_of_nat 92.

Definition str1 (c : ascii) : string := String c EmptyString.

Definition is_empty (s : string) : bool :=
  match s with EmptyString => true | String _ _ => false end.

Fixpoint lstrip (s : string) : string :=
  match s with
  | EmptyString => EmptyString
  | String c s' => if is_space c then lstrip s' else s
  end.

Fixpoint rstrip (s : string) : string :=
  match s with
  | EmptyString => EmptyString
  | String c s' =>
      let t := rstrip s' in
      if is_empty t && is_space c then EmptyString else String c t
  end.

(** [s.strip()]. *)
Definition strip (s : string) : string := rstrip (lstrip s).

(** [s[:n]]. *)
Definition take (n : nat) (s : string) : string := substring 0 n s.

(** [sep.join(parts)]. *)
Fixpoint join (sep : string) (parts : list string) : string :=
  match parts with
  | [] => EmptyString
  | [p] => p
  | p :: rest => p +++ sep +++ join sep rest
  end.

(** [str(n)] for a non-negative integer. *)
Definition str_nat (n : nat) : string :=
  NilEmpty.string_of_uint (Nat.to_uint n).

(** [str(z)] for an integer. *)
Definition str_int (z : Z) : string :=
  NilEmpty.string_of_int (Z.to_int z).

Fixpoint zeros (n : nat) : string :=
  match n with
  | O => EmptyString
  | S n' => String "0"%char (zeros n')
  end.

(** [f"{z:04d}"]: the sign, then the digits padded with zeros to a
    width of four. *)
Definition fmt_04d (z : Z) : string :=
  let sign := if (z <? 0)%Z then "-" else EmptyString in
  let digits := str_int (Z.abs z) in
  sign +++ zeros (4 - length sign - length digits) +++ digits.

(** [s.lower()] on code points below 256. *)
Definition lower_char (c : ascii) : ascii :=
  if between 65 90 c || between 192 214 c || between 216 222 c
  then ascii_of_nat (ord c + 32) else c.

Fixpoint lower (s : string) : string :=
  match s with
  | EmptyString => EmptyString
  | String c s' => String (lower_char c) (lower s')
  end.

(** [s.replace(a, b)] for single characters. *)
Fixpoint replace_char (a b : ascii) (s : string) : string :=
  match s with
  | EmptyString => EmptyString
  | String c s' =>
      String (if Ascii.eqb c a then b else c) (replace_char a b s')
  end.

(** [s.endswith(suffix)]. *)
Definition endswith (s suffix : string) : bool :=
  let n := length s in
  let m := length suffix in
  (m <=? n) && String.eqb (substring (n - m) m s) suffix.

(* ------------------------------------------------------------------ *)
(** *** The [re] module

    A backtracking matcher with greedy repetition and ordered
    alternation, which is the discipline of Python's [re].  Every
    pattern of scap.py needs at least one character to match, so a
    match of length zero is treated as no match by [findall] and
    [sub]. *)

Inductive regex : Type :=
| Eps
| Cls (p : ascii -> bool)
| Cat (r1 r2 : regex)
| Alt (r1 r2 : regex)
| Star (r : regex)
| WordB.

Definition word_before (prev : option ascii) : bool :=
  match prev with Some c => is_word c | None => false end.

Definition word_after (s : string) : bool :=
  match s with String c _ => is_word c | EmptyString => false end.

(** [\b] holds between a word character and a non-word character (or
    an end of the text). *)
Definition at_boundary (prev : option ascii) (s : string) : bool :=
  xorb (word_before prev) (word_after s).

(** What is done with the rest of the text after a match: it gets
    the last character matched and the text that follows. *)
Definition Cont (R : Type) : Type := option ascii -> string -> option R.

(** Greedy repetition of [step]: one more turn is tried first, and it
    must consume a character; [fuel] bounds the number of turns and the
    length of the text is enough of it. *)
Fixpoint star_loop {R : Type}
         (step : option ascii -> string -> Cont R -> option R)
         (k : Cont R) (fuel : nat) (prev : option ascii) (s : string)
  : option R :=
  match fuel with
  | O => k prev s
  | S fuel' =>
      match step prev s
              (fun p' s' =>
                 if length s' <? length s
                 then star_loop step k fuel' p' s' else None) with
      | Some x => Some x
      | None => k prev s
      end
  end.

Fixpoint run {R : Type} (r : regex) (prev : option ascii) (s : string)
         (k : Cont R) {struct r} : option R :=
  match r with
  | Eps => k prev s
  | Cls p =>
      match s with
      | String c s' => if p c then k (Some c) s' else None
      | EmptyString => None
      end
  | Cat r1 r2 => run r1 prev s (fun p' s' => run r2 p' s' k)
  | Alt r1 r2 =>
      match run r1 prev s k with
      | Some x => Some x
      | None => run r2 prev s k
      end
  | Star r1 => star_loop (run r1) k (length s) prev s
  | WordB => if at_boundary prev s then k prev s else None
  end.

Definition Plus (r : regex) : regex := Cat r (Star r).
Definition Opt (r : regex) : regex := Alt r Eps.

Fixpoint Rep (n : nat) (r : regex) : regex :=
  match n with
  | O => Eps
  | S n' => Cat r (Rep n' r)
  end.

Definition AtLeast (n : nat) (r : regex) : regex := Cat (Rep n r) (Star r).

Definition Chr (c : ascii) : regex := Cls (Ascii.eqb c).

Fixpoint Lit (s : string) : regex :=
  match s with
  | EmptyString => Eps
  | String c s' => Cat (Chr c) (Lit s')
  end.

Fixpoint Cats (rs : list regex) : regex :=
  match rs with
  | [] => Eps
  | r :: rs' => Cat r (Cats rs')
  end.

Fixpoint Alts (rs : list regex) : regex :=
  match rs with
  | [] => Cls (fun _ => false)
  | [r] => r
  | r :: rs' => Alt r (Alts rs')
  end.

(** Length of the match of [r] that starts at the head of [s], where
    [prev] is the character before it. *)
Definition match_len (r : regex) (prev : option ascii) (s : string)
  : option nat :=
  run r prev s (fun _ s' => Some (length s - length s')).

(** Left-to-right scan shared by [findall] and [sub]: [skip] counts the
    characters still covered by the last match. *)
Fixpoint findall_from (r : regex) (prev : option ascii) (skip : nat)
         (s : string) : list string :=
  match s with
  | EmptyString => []
  | String c s' =>
      match skip with
      | S n => findall_from r (Some c) n s'
      | O =>
          match match_len r prev s with
          | Some (S n) => take (S n) s :: findall_from r (Some c) n s'
          | _ => findall_from r (Some c) O s'
          end
      end
  end.

(** [re.findall(r, s)] for a pattern without groups. *)
Definition findall (r : regex) (s : string) : list string :=
  findall_from r None O s.

Fixpoint sub_from (r : regex) (repl : string) (prev : option ascii)
         (skip : nat) (s : string) : string :=
  match s with
  | EmptyString => EmptyString
  | String c s' =>
      match skip with
      | S n => sub_from r repl (Some c) n s'
      | O =>
          match match_len r prev s with
          | Some (S n) => repl +++ sub_from r repl (Some c) n s'
          | _ => String c (sub_from r repl (Some c) O s')
          end
      end
  end.

(** [re.sub(r, repl, s)] for a replacement without group references. *)
Definition sub (r : regex) (repl : string) (s : string) : string :=
  sub_from r repl None O s.

(* ------------------------------------------------------------------ *)
(** *** Values, dictionaries and their text form *)

(** The values scap.py stores in a record: text and integers. *)
Inductive PyVal : Type :=
| VStr (s : string)
| VInt (z : Z).

Definition val_eqb (a b : PyVal) : bool :=
  match a, b with
  | VStr s, VStr t => String.eqb s t
  | VInt x, VInt y => Z.eqb x y
  | _, _ => false
  end.

(** Truth value of an object. *)
Definition truthy (v : PyVal) : bool :=
  match v with
  | VStr s => negb (is_empty s)
  | VInt z => negb (Z.eqb z 0)
  end.

(** A [dict] with text keys, in insertion order. *)
Definition Dict : Type := list (string * PyVal).

Fixpoint lookup (d : Dict) (k : string) : option PyVal :=
  match d with
  | [] => None
  | (k', v) :: d' => if String.eqb k' k then Some v else lookup d' k
  end.

(** [d.get(k, default)]. *)
Definition get (d : Dict) (k : string) (default : PyVal) : PyVal :=
  match lookup d k with Some v => v | None => default end.

(** [d.get(key, default)] where the key is itself a value: only a text
    key can be present. *)
Definition get_val (d : Dict) (key : PyVal) (default : PyVal) : PyVal :=
  match key with
  | VStr k => get d k default
  | VInt _ => default
  end.

(** [k in d]. *)
Definition contains (d : Dict) (k : string) : bool :=
  match lookup d k with Some _ => true | None => false end.

(** [d[k] = v]: an existing key keeps its place. *)
Fixpoint set (d : Dict) (k : string) (v : PyVal) : Dict :=
  match d with
  | [] => [(k, v)]
  | (k', v') :: d' =>
      if String.eqb k' k then (k, v) :: d' else (k', v') :: set d' k v
  end.

(** A dict display [{k1: v1, ...}]. *)
Definition dict_of (items : list (string * PyVal)) : Dict :=
  fold_left (fun d kv => set d (fst kv) (snd kv)) items [].

(** [d.update(other)]. *)
Definition update (d other : Dict) : Dict :=
  fold_left (fun d kv => set d (fst kv) (snd kv)) other d.

Definition keys (d : Dict) : list string := map fst d.
Definition values (d : Dict) : list PyVal := map snd d.

Definition mem (k : string) (l : list string) : bool :=
  existsb (String.eqb k) l.

(** [{k: v for k, v in d.items() if keep(k)}]. *)
Definition filter_keys (keep : string -> bool) (d : Dict) : Dict :=
  filter (fun kv => keep (fst kv)) d.

Definition hex_digit (n : nat) : ascii :=
  match String.get n "0123456789abcdef" with
  | Some c => c
  | None => "0"%char
  end.

Definition hex_escape (c : ascii) : string :=
  String backslash
    (String "x"%char
       (String (hex_digit (ord c / 16)) (str1 (hex_digit (ord c mod 16))))).

(** [str.isprintable] on one code point below 256. *)
Definition printable (c : ascii) : bool :=
  negb (ord c <? 32) && negb (between 127 160 c) && negb (ord c =? 173).

Definition repr_char (q c : ascii) : string :=
  if Ascii.eqb c q || Ascii.eqb c backslash then String backslash (str1 c)
  else if ord c =? 9 then String backslash "t"
  else if ord c =? 10 then String backslash "n"
  else if ord c =? 13 then String backslash "r"
  else if printable c then str1 c
  else hex_escape c.

Fixpoint repr_body (q : ascii) (s : string) : string :=
  match s with
  | EmptyString => EmptyString
  | String c s' => repr_char q c +++ repr_body q s'
  end.

Fixpoint has_char (c : ascii) (s : string) : bool :=
  match s with
  | EmptyString => false
  | String c' s' => Ascii.eqb c' c || has_char c s'
  end.

(** The quote [repr] chooses: double quotes only when the text holds a
    single quote and no double quote. *)
Definition repr_quote (s : string) : ascii :=
  if has_char squote s && negb (has_char dquote s) then dquote else squote.

(** [repr(s)] for text. *)
Definition repr_str (s : string) : string :=
  let q := repr_quote s in
  String q (repr_body q s +++ str1 q).

(** [repr(v)]. *)
Definition repr (v : PyVal) : string :=
  match v with
  | VStr s => repr_str s
  | VInt z => str_int z
  end.

Definition repr_item (kv : string * PyVal) : string :=
  repr_str (fst kv) +++ ": " +++ repr (snd kv).

(** [str(d)] for a dict. *)
Definition str_dict (d : Dict) : string :=
  "{" +++ join ", " (map repr_item d) +++ "}".

(** [str(v)]. *)
Definition str (v : PyVal) : string :=
  match v with
  | VStr s => s
  | VInt z => str_int z
  end.

(* ------------------------------------------------------------------ *)
(** *** Reading a dict back from its text form

    The inverse of [str_dict], the counterpart of [ast.literal_eval]
    for the values above.  It is used to state that a serialized dict
    still holds its entries. *)

Definition unhex (c : ascii) : option nat :=
  if is_digit c then Some (ord c - 48)
  else if between 97 102 c then Some (ord c - 87)
  else None.

Definition unescape (e : ascii) : option ascii :=
  if Ascii.eqb e backslash || Ascii.eqb e squote || Ascii.eqb e dquote
  then Some e
  else if Ascii.eqb e "t"%char then Some (ascii_of_nat 9)
  else if Ascii.eqb e "n"%char then Some (ascii_of_nat 10)
  else if Ascii.eqb e "r"%char then Some (ascii_of_nat 13)
  else None.

Definition prepend (c : ascii) (r : option (string * string))
  : option (string * string) :=
  match r with
  | Some (s, rest) => Some (String c s, rest)
  | None => None
  end.

(** Reads the body of a quoted text up to the closing quote [q]. *)
Fixpoint parse_body (q : ascii) (s : string) : option (string * string) :=
  match s with
  | EmptyString => None
  | String c s1 =>
      if Ascii.eqb c q then Some (EmptyString, s1)
      else if Ascii.eqb c backslash then
        match s1 with
        | EmptyString => None
        | String e s2 =>
            if Ascii.eqb e "x"%char then
              match s2 with
              | String h1 (String h2 s4) =>
                  match unhex h1, unhex h2 with
                  | Some a, Some b =>
                      prepend (ascii_of_nat (16 * a + b)) (parse_body q s4)
                  | _, _ => None
                  end
              | _ => None
              end
            else
              match unescape e with
              | Some c' => prepend c' (parse_body q s2)
              | None => None
              end
        end
      else prepend c (parse_body q s1)
  end.

Definition parse_str (s : string) : option (string * string) :=
  match s with
  | String q s' =>
      if Ascii.eqb q squote || Ascii.eqb q dquote
      then parse_body q s' else None
  | EmptyString => None
  end.

Fixpoint span_digits (s : string) : string * string :=
  match s with
  | EmptyString => (EmptyString, EmptyString)
  | String c s' =>
      if is_digit c
      then let (d, rest) := span_digits s' in (String c d, rest)
      else (EmptyString, s)
  end.

Definition parse_int (s : string) : option (Z * string) :=
  let (sign, body) :=
    match s with
    | String "-"%char s' => ("-", s')
    | _ => (EmptyString, s)
    end in
  let (digits, rest) := span_digits body in
  if is_empty digits then None
  else match NilEmpty.int_of_string (sign +++ digits) with
       | Some i => Some (Z.of_int i, rest)
       | None => None
       end.

Definition parse_val (s : string) : option (PyVal * string) :=
  match s with
  | String c _ =>
      if Ascii.eqb c squote || Ascii.eqb c dquote
      then match parse_str s with
           | Some (t, rest) => Some (VStr t, rest)
           | None => None
           end
      else match parse_int s with
           | Some (z, rest) => Some (VInt z, rest)
           | None => None
           end
  | EmptyString => None
  end.

Fixpoint drop_prefix (pre s : string) : option string :=
  match pre with
  | EmptyString => Some s
  | String a pre' =>
      match s with
      | String b s' => if Ascii.eqb a b then drop_prefix pre' s' else None
      | EmptyString => None
      end
  end.

Fixpoint parse_items (fuel : nat) (s : string) : option Dict :=
  match fuel with
  | O => None
  | S fuel' =>
      match parse_str s with
      | None => None
      | Some (k, s1) =>
          match drop_prefix ": " s1 with
          | None => None
          | Some s2 =>
              match parse_val s2 with
              | None => None
              | Some (v, s3) =>
                  if String.eqb s3 "}" then Some [(k, v)]
                  else match drop_prefix ", " s3 with
                       | None => None
                       | Some s4 =>
                           option_map (cons (k, v)) (parse_items fuel' s4)
                       end
              end
          end
      end
  end.

(** [parse_dict (str_dict d) = Some d], see [parse_str_dict]. *)
Definition parse_dict (s : string) : option Dict :=
  match s with
  | String "{"%char s' =>
      if String.eqb s' "}" then Some []
      else parse_items (length s') s'
  | _ => None
  end.

End Py.

Import Py.

(* ================================================================== *)
(** ** The parsed document: BeautifulSoup's tree *)
(* ================================================================== *)

Module Soup.

(** An attribute value is text, or a list of words for a multi-valued
    attribute such as [class]. *)
Inductive AttrVal : Type :=
| AStr (s : string)
| AList (l : list string).

#[warnings="-register-all"]
Inductive Node : Type :=
| Text (s : string)
| Elem (name : string) (attrs : list (string * AttrVal))
       (contents : list Node).

(** The root object of a parsed document. *)
Definition document (contents : list Node) : Node :=
  Elem "[document]" [] contents.

(** [node.name]; a text node has no tag name. *)
Definition name_of (n : Node) : option string :=
  match n with
  | Text _ => None
  | Elem nm _ _ => Some nm
  end.

(** The node is a tag with one of the given names. *)
Definition is_tag (names : list string) (n : Node) : bool :=
  match n with
  | Text _ => false
  | Elem nm _ _ => mem nm names
  end.

(** Truth value of a node: a tag is always true, a text node is true
    when it is not empty. *)
Definition node_truthy (n : Node) : bool :=
  match n with
  | Text s => negb (is_empty s)
  | Elem _ _ _ => true
  end.

(** Every descendant in document order, each with the siblings that
    follow it. *)
Fixpoint walk (n : Node) : list (Node * list Node) :=
  match n with
  | Text _ => []
  | Elem _ _ cs =>
      (fix go (l : list Node) : list (Node * list Node) :=
         match l with
         | [] => []
         | c :: l' => (c, l') :: walk c ++ go l'
         end) cs
  end.

Definition descendants (n : Node) : list Node := map fst (walk n).

(** [node.find_all(names)]. *)
Definition find_all (names : list string) (n : Node) : list Node :=
  filter (is_tag names) (descendants n).

(** [node.find(names)]. *)
Definition find (names : list string) (n : Node) : option Node :=
  hd_error (find_all names n).

(** [node.get_text()]. *)
Fixpoint get_text (n : Node) : string :=
  match n with
  | Text s => s
  | Elem _ _ cs =>
      (fix go (l : list Node) : string :=
         match l with
         | [] => EmptyString
         | c :: l' => get_text c +++ go l'
         end) cs
  end.

(** Pairs every node of [l] (in document order) with the nearest tag
    named in [marks] that comes before it: [node.find_previous(marks)]. *)
Fixpoint with_previous (marks : list string) (prev : option Node)
         (l : list Node) : list (Node * option Node) :=
  match l with
  | [] => []
  | n :: l' =>
      (n, prev)
        :: with_previous marks (if is_tag marks n then Some n else prev) l'
  end.

(** [root.find_all(names)], each result with its [find_previous(marks)]. *)
Definition find_all_with_previous (names marks : list string) (root : Node)
  : list (Node * option Node) :=
  filter (fun np => is_tag names (fst np))
         (with_previous marks None (descendants root)).

(** [root.find_all(names)], each result with its next siblings. *)
Definition find_all_with_siblings (names : list string) (root : Node)
  : list (Node * list Node) :=
  filter (fun ns => is_tag names (fst ns)) (walk root).

Definition attrval_eqb (a b : AttrVal) : bool :=
  match a, b with
  | AStr s, AStr t => String.eqb s t
  | AList l, AList m => if list_eq_dec string_dec l m then true else false
  | _, _ => false
  end.

Fixpoint attr_lookup (a : list (string * AttrVal)) (k : string)
  : option AttrVal :=
  match a with
  | [] => None
  | (k', v) :: a' => if String.eqb k' k then Some v else attr_lookup a' k
  end.

(** Equality of two attribute dicts. *)
Definition attrs_eqb (a b : list (string * AttrVal)) : bool :=
  (List.length a =? List.length b)
  && forallb (fun kv =>
                match attr_lookup b (fst kv) with
                | Some v => attrval_eqb (snd kv) v
                | None => false
                end) a.

(** [a == b] on nodes: same name, same attributes, equal contents. *)
Fixpoint node_eqb (a b : Node) : bool :=
  match a, b with
  | Text s, Text t => String.eqb s t
  | Elem n1 a1 c1, Elem n2 a2 c2 =>
      String.eqb n1 n2 && attrs_eqb a1 a2
      && (fix all2 (l1 l2 : list Node) : bool :=
            match l1, l2 with
            | [], [] => true
            | x :: l1', y :: l2' => node_eqb x y && all2 l1' l2'
            | _, _ => false
            end) c1 c2
  | _, _ => false
  end.

(** [tag == other] where [other] may be [None]. *)
Definition tag_eq (a : Node) (other : option Node) : bool :=
  match other with
  | Some b => node_eqb a b
  | None => false
  end.

End Soup.

Import Soup.

(* ================================================================== *)
(** ** Exceptions, the log and the monad of effects *)
(* ================================================================== *)

Inductive PyExn : Type :=
| ValueError (msg : string)
| UnboundLocalError (variable : string)
| TypeError
| AttributeError
| ZeroDivisionError
| OSError (filename : string)
| FetchError (url : string)
| ExportException (cause : PyExn)
| KeyError (key : string)
| ParserRejectedMarkup.

Inductive LogLevel : Type := INFO | WARNING | ERROR.

(** One constructor per message of scap.py. *)
Inductive LogMsg : Type :=
| Error_parsing_table (table_idx : nat) (e : PyExn)
| Extracted_table_records (n : nat)
| Found_version_references (n : nat)
| Error_parsing_list (list_idx : nat) (e : PyExn)
| Extracted_list_items (n : nat)
| Error_extracting_section (e : PyExn)
| Extracted_content_sections (n : nat)
| Starting_extraction
| Extraction_completed (n : nat)
| No_data_to_export
| Formatted_CSV_exported (filename : string)
| Total_records (n : nat)
| Columns (n : nat)
| Exported_records_to (n : nat) (data_type : string) (filename : string)
| Scraping (url : string)
| Extracted_records_from (n : nat) (url : string)
| Failed_to_scrape (url : string) (e : PyExn)
| Starting_scraping (n : nat)
| No_data_collected
| Summary_report_exported (filename : string)
| Error_exporting_summary (e : PyExn).

Definition LogEntry : Type := LogLevel * LogMsg.

Inductive Res (A : Type) : Type :=
| Ok (a : A)
| Raise (e : PyExn).
Arguments Ok {A} a.
Arguments Raise {A} e.

(** A computation over a state [S] that returns or raises. *)
Definition M (S A : Type) : Type := S -> Res A * S.

Definition ret {S A : Type} (a : A) : M S A := fun s => (Ok a, s).

Definition bind {S A B : Type} (c : M S A) (f : A -> M S B) : M S B :=
  fun s =>
    match c s with
    | (Ok a, s') => f a s'
    | (Raise e, s') => (Raise e, s')
    end.

Definition raise {S A : Type} (e : PyExn) : M S A := fun s => (Raise e, s).

Definition gets {S A : Type} (f : S -> A) : M S A := fun s => (Ok (f s), s).

Definition modify {S : Type} (f : S -> S) : M S unit :=
  fun s => (Ok tt, f s).

(** [try: c except Exception as e: h e]. *)
Definition try_except {S A : Type} (c : M S A) (h : PyExn -> M S A)
  : M S A :=
  fun s =>
    match c s with
    | (Ok a, s') => (Ok a, s')
    | (Raise e, s') => h e s'
    end.

(** Lifts a value that is a result already. *)
Definition of_res {S A : Type} (r : Res A) : M S A := fun s => (r, s).

Notation "x <- c ;; k" := (bind c (fun x => k))
  (at level 61, c at next level, right associativity).
Notation "c ;;; k" := (bind c (fun _ => k))
  (at level 61, right associativity).

(** [for x in l: body x]. *)
Fixpoint for_each {S A : Type} (l : list A) (body : A -> M S unit)
  : M S unit :=
  match l with
  | [] => ret tt
  | x :: l' => body x ;;; for_each l' body
  end.

(** [enumerate(l)]. *)
Definition enumerate {A : Type} (l : list A) : list (nat * A) :=
  combine (seq 0 (List.length l)) l.

Definition is_nil {A : Type} (l : list A) : bool :=
  match l with [] => true | _ :: _ => false end.

(** States that carry the shared logger. *)
Class Logging (S : Type) : Type := { write_log : LogEntry -> S -> S }.

Definition log_at {S : Type} `{Logging S} (lvl : LogLevel) (m : LogMsg)
  : M S unit :=
  modify (write_log (lvl, m)).

(** The methods of [ScraperLogger]. *)
Definition logger_info {S} `{Logging S} := log_at (S:=S) INFO.
Definition logger_warning {S} `{Logging S} := log_at (S:=S) WARNING.
Definition logger_error {S} `{Logging S} := log_at (S:=S) ERROR.
Definition logger_success {S} `{Logging S} := log_at (S:=S) INFO.
Definition logger_failure {S} `{Logging S} := log_at (S:=S) ERROR.

(** A file written through [csv.DictWriter]: the header row and the
    dict handed to [writerow] for each line. *)
Record CsvFile : Type := {
  fieldnames : list string;
  rows : list Dict
}.

(** What outlives a call: the log, the files written so far (latest
    first) and the number of clock readings taken. *)
Record World : Type := {
  log : list LogEntry;
  files : list (string * CsvFile);
  ticks : nat
}.

#[export] Instance World_Logging : Logging World :=
  {| write_log e w :=
       {| log := log w ++ [e]; files := files w; ticks := ticks w |} |}.

#[export] Instance Frame_Logging (L S : Type) `{Logging S}
  : Logging (L * S) :=
  {| write_log e fs := (fst fs, write_log e (snd fs)) |}.

(** What scap.py takes from its libraries and surroundings. *)
Class Externals : Type := {
  (** [BeautifulSoup(html, 'html.parser')]: the contents of the root. *)
  html_parser : string -> list Node;
  (** [urlparse(url).netloc]. *)
  netloc : string -> string;
  (** [hash(s)] for text. *)
  py_hash : string -> Z;
  (** [datetime.isoformat()] of the n-th clock reading. *)
  isoformat : nat -> string;
  (** Seconds between two clock readings, formatted with [.1f]. *)
  elapsed_1f : nat -> nat -> string;
  (** [a / b * 100] formatted with [.1f]. *)
  percent_1f : nat -> nat -> string;
  (** [hasattr(text_node, 'get_text')]. *)
  text_has_get_text : bool;
  (** [StaticScraper(url).scrape()]: the page text, or the exception
      of the transport. *)
  http_get : string -> Res string;
  (** Whether [open(filename, 'w')] succeeds. *)
  can_open : string -> bool
}.

(* ================================================================== *)
(** ** Configuration *)
(* ================================================================== *)

Record Config : Type := {
  extract_tables : bool;
  extract_lists : bool;
  extract_definition_lists : bool;
  extract_sections : bool;
  extract_paragraphs : bool;
  min_content_length : nat
}.

Definition SCRAPING_CONFIG : Config := {|
  extract_tables := true;
  extract_lists := true;
  extract_definition_lists := true;
  extract_sections := true;
  extract_paragraphs := true;
  min_content_length := 5
|}.

(* ================================================================== *)
(** ** StructuredDataParser *)
(* ================================================================== *)

Module StructuredDataParser.

Record Stats : Type := {
  tables : nat;
  lists : nat;
  definitions : nat;
  sections : nat;
  versions : nat
}.

(** The attributes set once by [__init__]. *)
Record Parser : Type := {
  soup : Node;
  url : string;
  domain : string
}.

(** The attributes that change, with the world around the parser. *)
Record ParserState : Type := {
  extraction_stats : Stats;
  world : World
}.

#[export] Instance ParserState_Logging : Logging ParserState :=
  {| write_log e st :=
       {| extraction_stats := extraction_stats st;
          world := write_log e (world st) |} |}.

Definition set_stats (f : Stats -> Stats) : M ParserState unit :=
  modify (fun st => {| extraction_stats := f (extraction_stats st);
                       world := world st |}).

(** [StructuredDataParser(html_content, url, logger)]; [None] stands
    for absent content. *)
Definition __init__ `{Externals} (html_content : option string)
           (url : string) : Res (Parser * Stats) :=
  match html_content with
  | None => Raise (ValueError "HTML content cannot be empty.")
  | Some html =>
      if is_empty html
      then Raise (ValueError "HTML content cannot be empty.")
      else Ok ({| soup := document (html_parser html);
                  url := url;
                  domain := netloc url |},
               {| tables := 0; lists := 0; definitions := 0;
                  sections := 0; versions := 0 |})
  end.

(** [\s+] *)
Definition re_spaces : regex := Plus (Cls is_space).
(** [[\x00-\x1f\x7f-\x9f]] *)
Definition re_control : regex := Cls is_control.
(** [\[\d+\]] *)
Definition re_citation : regex :=
  Cats [Chr "["; Plus (Cls is_digit); Chr "]"].
(** [\s*\.\s*] *)
Definition re_period : regex :=
  Cats [Star (Cls is_space); Chr "."; Star (Cls is_space)].
(** [\b[a-zA-Z]{2,}\b] *)
Definition re_word : regex :=
  Cats [WordB; AtLeast 2 (Cls is_ascii_alpha); WordB].

Definition _clean_text (text : string) : string :=
  if is_empty text then EmptyString
  else
    let cleaned := sub re_spaces " " (strip text) in
    let cleaned := sub re_control "" cleaned in
    let cleaned := sub re_citation "" cleaned in
    let cleaned := sub re_period ". " cleaned in
    strip cleaned.

Definition _is_valid_content (text : string) (min_length : option nat)
  : bool :=
  let min_length :=
    match min_length with
    | None => min_content_length SCRAPING_CONFIG
    | Some n => n
    end in
  if is_empty text || (length text <? min_length) then false
  else 1 <=? List.length (findall re_word text).

(* ------------------------------------------------------------------ *)
(** *** Tables *)

(** A local variable of a function: unbound until first assigned. *)
Inductive Local (A : Type) : Type :=
| Unbound
| Bound (a : A).
Arguments Unbound {A}.
Arguments Bound {A} a.

(** The local variables of [_extract_structured_tables] that live
    across the loop over the tables. *)
Record TablesFrame : Type := {
  table_data : list Dict;
  first_row : Local (option Node)
}.

Definition TablesM : Type -> Type := M (TablesFrame * ParserState).

Definition assign_first_row (v : option Node) : TablesM unit :=
  modify (fun fs => ({| table_data := table_data (fst fs);
                        first_row := Bound v |}, snd fs)).

(** Reading [first_row]: an unbound local raises. *)
Definition read_first_row : TablesM (option Node) :=
  fun fs =>
    match first_row (fst fs) with
    | Bound v => (Ok v, fs)
    | Unbound => (Raise (UnboundLocalError "first_row"), fs)
    end.

Definition append_table_data (record : Dict) : TablesM unit :=
  modify (fun fs => ({| table_data := table_data (fst fs) ++ [record];
                        first_row := first_row (fst fs) |}, snd fs)).

Definition cell_tags : list string := ["th"; "td"].

(** [f'column_{i+1}'] *)
Definition positional_name (i : nat) : string :=
  "column_" +++ str_nat (i + 1).

(** The key of the cell at index [i]:
    [headers[i] or f'column_{i+1}'] within the header, the positional
    name beyond it. *)
Definition col_name (headers : list string) (i : nat) : string :=
  if i <? List.length headers then
    let h := nth i headers EmptyString in
    if is_empty h then positional_name i else h
  else positional_name i.

(** The loop over the cells of one row. *)
Definition add_cells (headers : list string) (cells : list Node)
           (record : Dict) : Dict :=
  fold_left
    (fun record ic =>
       let cell_text := _clean_text (get_text (snd ic)) in
       if _is_valid_content cell_text None
       then set record (col_name headers (fst ic)) (VStr cell_text)
       else record)
    (enumerate cells) record.

Definition table_meta_keys : list string :=
  ["data_type"; "source_url"; "table_context"; "row_index"; "domain"].

(** The body of the loop over [data_rows]. *)
Definition process_row (self : Parser) (table_context : string)
           (headers : list string) (ir : nat * Node) : TablesM unit :=
  let (row_idx, row) := ir in
  fr <- read_first_row ;;
  if tag_eq row fr then ret tt
  else
    let cells := find_all cell_tags row in
    if is_nil cells then ret tt
    else
      let record := dict_of
        [("data_type", VStr "table_data");
         ("source_url", VStr (url self));
         ("table_context", VStr table_context);
         ("row_index", VInt (Z.of_nat row_idx));
         ("domain", VStr (domain self))] in
      let record := add_cells headers cells record in
      let data_fields :=
        filter_keys (fun k => negb (mem k table_meta_keys)) record in
      if existsb truthy (values data_fields)
      then append_table_data record
      else ret tt.

Definition header_texts (row : Node) : list string :=
  map (fun cell => _clean_text (get_text cell)) (find_all cell_tags row).

(** [max(len(row.find_all(['td','th'])) for row in table.find_all('tr'))],
    0 when the table has no row. *)
Definition max_cols (table : Node) : nat :=
  fold_left Nat.max
    (map (fun row => List.length (find_all cell_tags row))
         (find_all ["tr"] table)) 0.

(** [[f'Column_{i+1}' for i in range(max_cols)]] *)
Definition default_headers (n : nat) : list string :=
  map (fun i => "Column_" +++ str_nat (i + 1)) (seq 0 n).

(** The body of the [try] of one table. *)
Definition process_table (self : Parser) (it : nat * Node)
  : TablesM unit :=
  let (table_idx, table) := it in
  let table_context :=
    match find ["caption"] table with
    | Some caption => _clean_text (get_text caption)
    | None => "Table_" +++ str_nat (table_idx + 1)
    end in
  let headers :=
    match find ["thead"] table with
    | Some header_row => header_texts header_row
    | None => []
    end in
  headers <-
    (if is_nil headers then
       let found := find ["tr"] table in
       assign_first_row found ;;;
       ret (match found with
            | Some row => header_texts row
            | None => headers
            end)
     else ret headers) ;;
  let headers :=
    if is_nil headers then default_headers (max_cols table) else headers in
  let rows :=
    match find ["tbody"] table with
    | Some tbody => tbody
    | None => table
    end in
  let data_rows := find_all ["tr"] rows in
  for_each (enumerate data_rows) (process_row self table_context headers).

(** One turn of the loop over the tables, with its [except] clause. *)
Definition table_step (self : Parser) (it : nat * Node) : TablesM unit :=
  try_except (process_table self it)
             (fun e => logger_warning (Error_parsing_table (fst it) e)).

Definition tables_loop (self : Parser) (tables : list (nat * Node))
  : TablesM unit :=
  for_each tables (table_step self).

(** Runs a computation that has local variables [L] from their initial
    values and returns their final values. *)
Definition with_frame {L S A : Type} (init : L) (c : M (L * S) A)
  : M S L :=
  fun s =>
    match c (init, s) with
    | (Ok _, (l, s')) => (Ok l, s')
    | (Raise e, (_, s')) => (Raise e, s')
    end.

Definition _extract_structured_tables (self : Parser)
  : M ParserState (list Dict) :=
  frame <- with_frame {| table_data := []; first_row := Unbound |}
             (tables_loop self (enumerate (find_all ["table"] (soup self)))) ;;
  let table_data := table_data frame in
  set_stats (fun st => {| tables := List.length table_data;
                          lists := lists st;
                          definitions := definitions st;
                          sections := sections st;
                          versions := versions st |}) ;;;
  logger_info (Extracted_table_records (List.length table_data)) ;;;
  ret table_data.

(* ------------------------------------------------------------------ *)
(** *** Version references *)

Definition month_names : list string :=
  ["January"; "February"; "March"; "April"; "May"; "June"; "July";
   "August"; "September"; "October"; "November"; "December"].

Definition digits1 : regex := Plus (Cls is_digit).

Definition version_patterns : list regex :=
  [ (* \b\d+\.\d+\.\d+\b *)
    Cats [WordB; digits1; Chr "."; digits1; Chr "."; digits1; WordB];
    (* \b\d+\.\d+\b *)
    Cats [WordB; digits1; Chr "."; digits1; WordB];
    (* \bv?\d+\.\d+\.\d+[a-zA-Z]?\b *)
    Cats [WordB; Opt (Chr "v"); digits1; Chr "."; digits1; Chr ".";
          digits1; Opt (Cls is_ascii_alpha); WordB];
    (* \b\d{4}-\d{2}-\d{2}\b *)
    Cats [WordB; Rep 4 (Cls is_digit); Chr "-"; Rep 2 (Cls is_digit);
          Chr "-"; Rep 2 (Cls is_digit); WordB];
    (* \b(?:January|...|December)\s+\d{4}\b *)
    Cats [WordB; Alts (map Lit month_names); Plus (Cls is_space);
          Rep 4 (Cls is_digit); WordB] ].

Definition heading_tags : list string :=
  ["h1"; "h2"; "h3"; "h4"; "h5"; "h6"].

(** A function frame whose one local is the list being built. *)
Definition ListM : Type -> Type := M (list Dict * ParserState).

Definition append_record (record : Dict) : ListM unit :=
  modify (fun fs => (fst fs ++ [record], snd fs)).

Definition version_context (elem_type : string) (elem_idx : nat)
           (text : string) : string :=
  if String.eqb elem_type "table" then "Table_" +++ str_nat (elem_idx + 1)
  else if String.eqb elem_type "list" then "List_" +++ str_nat (elem_idx + 1)
  else if String.eqb elem_type "heading"
       then "Heading: " +++ take 50 text +++ "..."
  else "Paragraph_" +++ str_nat (elem_idx + 1).

Definition version_record (self : Parser) (elem_type context text : string)
           (version : string) : Dict :=
  dict_of
    [("data_type", VStr "version_info");
     ("source_url", VStr (url self));
     ("domain", VStr (domain self));
     ("version_number", VStr version);
     ("context", VStr context);
     ("element_type", VStr elem_type);
     ("full_text",
      VStr (if 200 <? length text then take 200 text +++ "..." else text))].

(** The loop over the patterns for one element, after the validity
    check. *)
Definition scan_patterns (self : Parser) (elem_type : string)
           (elem_idx : nat) (text : string) : ListM unit :=
  for_each version_patterns
    (fun pattern =>
       let found := findall pattern text in
       if is_nil found then ret tt
       else
         let context := version_context elem_type elem_idx text in
         for_each (firstn 3 found)
           (fun version =>
              append_record
                (version_record self elem_type context text version))).

(** The body of the [try] for one element. *)
Definition scan_element (self : Parser) (elem_type : string)
           (ie : nat * Node) : ListM unit :=
  let (elem_idx, elem) := ie in
  let text := _clean_text (get_text elem) in
  if negb (_is_valid_content text (Some 20)) then ret tt
  else scan_patterns self elem_type elem_idx text.

Definition elements_to_check (self : Parser)
  : list (string * list Node) :=
  [("table", find_all ["table"] (soup self));
   ("list", find_all ["ul"; "ol"] (soup self));
   ("heading", find_all heading_tags (soup self));
   ("paragraph", find_all ["p"] (soup self))].

Definition set_versions (n : nat) : M ParserState unit :=
  set_stats (fun st => {| tables := tables st; lists := lists st;
                          definitions := definitions st;
                          sections := sections st; versions := n |}).

Definition _extract_version_information (self : Parser)
  : M ParserState (list Dict) :=
  version_data <- with_frame []
    (for_each (elements_to_check self)
       (fun te =>
          for_each (enumerate (snd te))
            (fun ie =>
               try_except (scan_element self (fst te) ie)
                          (fun _ => ret tt)))) ;;
  set_versions (List.length version_data) ;;;
  logger_info (Found_version_references (List.length version_data)) ;;;
  ret version_data.

(* ------------------------------------------------------------------ *)
(** *** Lists *)

Definition tag_name (n : Node) : string :=
  match name_of n with Some nm => nm | None => EmptyString end.

(** The body of the [try] for one list; [prev_elem] is the result of
    [list_elem.find_previous([...])]. *)
Definition process_list (self : Parser)
           (il : nat * (Node * option Node)) : ListM unit :=
  let list_elem := fst (snd il) in
  let context :=
    match snd (snd il) with
    | Some prev_elem => take 100 (_clean_text (get_text prev_elem))
    | None => "List"
    end in
  let items := find_all ["li"] list_elem in
  for_each (enumerate items)
    (fun ii =>
       let text := _clean_text (get_text (snd ii)) in
       if _is_valid_content text None then
         append_record
           (dict_of
              [("data_type", VStr "list_item");
               ("source_url", VStr (url self));
               ("domain", VStr (domain self));
               ("list_context", VStr context);
               ("item_index", VInt (Z.of_nat (fst ii)));
               ("content", VStr text);
               ("list_type", VStr (tag_name list_elem));
               ("total_items", VInt (Z.of_nat (List.length items)))])
       else ret tt).

Definition set_lists (n : nat) : M ParserState unit :=
  set_stats (fun st => {| tables := tables st; lists := n;
                          definitions := definitions st;
                          sections := sections st;
                          versions := versions st |}).

Definition _extract_structured_lists (self : Parser)
  : M ParserState (list Dict) :=
  list_data <- with_frame []
    (for_each
       (enumerate
          (find_all_with_previous ["ol"; "ul"]
             (heading_tags ++ ["strong"; "b"]) (soup self)))
       (fun il =>
          try_except (process_list self il)
                     (fun e => logger_warning
                                 (Error_parsing_list (fst il) e)))) ;;
  set_lists (List.length list_data) ;;;
  logger_info (Extracted_list_items (List.length list_data)) ;;;
  ret list_data.

(* ------------------------------------------------------------------ *)
(** *** Sections *)

(** [hasattr(node, 'get_text')] *)
Definition has_get_text `{Externals} (n : Node) : bool :=
  match n with
  | Text _ => text_has_get_text
  | Elem _ _ _ => true
  end.

(** The [while] loop over the siblings after a heading: [siblings]
    starts at [next_elem]; an empty list is [next_elem is None]. *)
Fixpoint gather_content `{Externals} (siblings : list Node)
         (content_limit : nat) (content_parts : list string)
  : list string :=
  match siblings with
  | [] => content_parts
  | next_elem :: rest =>
      if negb (node_truthy next_elem) || (content_limit =? 0)
      then content_parts
      else
        let text := _clean_text (get_text next_elem) in
        let keep :=
          has_get_text next_elem && _is_valid_content text (Some 30) in
        let content_parts :=
          if keep then content_parts ++ [text] else content_parts in
        let content_limit :=
          if keep then content_limit - 1 else content_limit in
        match rest with
        | [] => content_parts
        | following :: _ =>
            if node_truthy following && is_tag heading_tags following
            then content_parts
            else gather_content rest content_limit content_parts
        end
  end.

(** The body of the [try] for one heading. *)
Definition process_heading `{Externals} (self : Parser)
           (hs : Node * list Node) : ListM unit :=
  let (heading, siblings) := hs in
  let heading_text := _clean_text (get_text heading) in
  if is_empty heading_text then ret tt
  else
    let content_parts := gather_content siblings 5 [] in
    if is_nil content_parts then ret tt
    else
      append_record
        (dict_of
           [("data_type", VStr "section_content");
            ("source_url", VStr (url self));
            ("domain", VStr (domain self));
            ("heading", VStr heading_text);
            ("heading_level", VStr (tag_name heading));
            ("content", VStr (join " | " (firstn 3 content_parts)));
            ("content_pieces",
             VInt (Z.of_nat (List.length content_parts)))]).

Definition set_sections (n : nat) : M ParserState unit :=
  set_stats (fun st => {| tables := tables st; lists := lists st;
                          definitions := definitions st;
                          sections := n; versions := versions st |}).

Definition _extract_content_sections `{Externals} (self : Parser)
  : M ParserState (list Dict) :=
  section_data <- with_frame []
    (for_each (find_all_with_siblings heading_tags (soup self))
       (fun hs =>
          try_except (process_heading self hs)
                     (fun e => logger_warning
                                 (Error_extracting_section e)))) ;;
  set_sections (List.length section_data) ;;;
  logger_info (Extracted_content_sections (List.length section_data)) ;;;
  ret section_data.

(* ------------------------------------------------------------------ *)
(** *** The whole pass *)

(** [datetime.now()]: takes the next clock reading. *)
Definition read_clock : M ParserState nat :=
  fun st =>
    let w := world st in
    (Ok (ticks w),
     {| extraction_stats := extraction_stats st;
        world := {| log := log w; files := files w;
                    ticks := S (ticks w) |} |}).

(** [f"{hash(self.url) % 10000:04d}_{len(all_data)}"] *)
Definition record_id_of `{Externals} (self : Parser) (all_data : list Dict)
  : string :=
  fmt_04d (py_hash (url self) mod 10000)%Z
  +++ "_" +++ str_nat (List.length all_data).

(** The final loop: every record gets the timestamp and the id. *)
Definition stamp `{Externals} (self : Parser) (timestamp : string)
           (all_data : list Dict) : list Dict :=
  map (fun record =>
         set (set record "extraction_timestamp" (VStr timestamp))
             "record_id" (VStr (record_id_of self all_data)))
      all_data.

Definition parse_structured_data `{Externals} (self : Parser)
  : M ParserState (list Dict) :=
  logger_info Starting_extraction ;;;
  table_data <- (if extract_tables SCRAPING_CONFIG
                 then _extract_structured_tables self else ret []) ;;
  list_data <- (if extract_lists SCRAPING_CONFIG
                then _extract_structured_lists self else ret []) ;;
  section_data <- (if extract_sections SCRAPING_CONFIG
                   then _extract_content_sections self else ret []) ;;
  version_data <- _extract_version_information self ;;
  let all_data := table_data ++ list_data ++ section_data ++ version_data in
  tick <- read_clock ;;
  let all_data := stamp self (isoformat tick) all_data in
  logger_success (Extraction_completed (List.length all_data)) ;;;
  ret all_data.

(** [get_extraction_report()] *)
Definition get_extraction_report : M ParserState Stats :=
  gets extraction_stats.

End StructuredDataParser.

(* ================================================================== *)
(** ** FormattedCSVExporter *)
(* ================================================================== *)

Module FormattedCSVExporter.

Record Exporter : Type := {
  original_data : list Dict;
  data : list Dict
}.

Definition empty_str : PyVal := VStr EmptyString.

(** The first dict display of [_organize_data]. *)
Definition standardized_base (record : Dict) : Dict :=
  dict_of
    [("record_id", get record "record_id" empty_str);
     ("data_type", get record "data_type" (VStr "unknown"));
     ("source_url", get record "source_url" empty_str);
     ("domain", get record "domain" empty_str);
     ("extraction_timestamp", get record "extraction_timestamp" empty_str)].

(** [record.get(record.get(name, name), '')] *)
Definition positional (record : Dict) (name : string) : PyVal :=
  get_val record (get record name (VStr name)) empty_str.

(** [v[:100]]; only text can be sliced. *)
Definition slice_100 (v : PyVal) : Res PyVal :=
  match v with
  | VStr s => Ok (VStr (take 100 s))
  | VInt _ => Raise TypeError
  end.

(** The fields of a table record that go to [additional_data]:
    [k not in standardized and k not in ['table_context', 'row_index']],
    where [standardized] still holds the base columns only. *)
Definition additional_fields (standardized record : Dict) : Dict :=
  filter_keys
    (fun k => negb (contains standardized k)
              && negb (mem k ["table_context"; "row_index"]))
    record.

(** The body of the loop of [_organize_data]. *)
Definition organize_record (record : Dict) : Res Dict :=
  let standardized := standardized_base record in
  let data_type := get record "data_type" empty_str in
  if val_eqb data_type (VStr "table_data") then
    Ok (update standardized
          [("table_context", get record "table_context" empty_str);
           ("row_index", get record "row_index" empty_str);
           ("column_1", positional record "column_1");
           ("column_2", positional record "column_2");
           ("column_3", positional record "column_3");
           ("column_4", positional record "column_4");
           ("additional_data",
            VStr (str_dict (additional_fields standardized record)))])
  else if val_eqb data_type (VStr "version_info") then
    match slice_100 (get record "full_text" empty_str) with
    | Raise e => Raise e
    | Ok full_text =>
        Ok (update standardized
              [("version_number", get record "version_number" empty_str);
               ("context", get record "context" empty_str);
               ("element_type", get record "element_type" empty_str);
               ("full_text", full_text)])
    end
  else if val_eqb data_type (VStr "list_item") then
    Ok (update standardized
          [("list_context", get record "list_context" empty_str);
           ("item_index", get record "item_index" empty_str);
           ("content", get record "content" empty_str);
           ("list_type", get record "list_type" empty_str);
           ("total_items", get record "total_items" empty_str)])
  else if val_eqb data_type (VStr "section_content") then
    Ok (update standardized
          [("heading", get record "heading" empty_str);
           ("heading_level", get record "heading_level" empty_str);
           ("content", get record "content" empty_str);
           ("content_pieces", get record "content_pieces" empty_str)])
  else
    let content_fields :=
      filter_keys
        (fun k => negb (contains standardized k)
                  && negb (String.eqb k "data_type"))
        record in
    Ok (set standardized "content"
            (VStr (if is_nil content_fields then EmptyString
                   else str_dict content_fields))).

Fixpoint _organize_data (data : list Dict) : Res (list Dict) :=
  match data with
  | [] => Ok []
  | record :: rest =>
      match organize_record record with
      | Raise e => Raise e
      | Ok standardized =>
          match _organize_data rest with
          | Raise e => Raise e
          | Ok organized => Ok (standardized :: organized)
          end
      end
  end.

(** [FormattedCSVExporter(data, logger)] *)
Definition __init__ (data : list Dict) : Res Exporter :=
  match _organize_data data with
  | Raise e => Raise e
  | Ok organized => Ok {| original_data := data; data := organized |}
  end.

Definition base_columns : list string :=
  ["record_id"; "data_type"; "source_url"; "domain";
   "extraction_timestamp"].

Definition type_specific_columns : list (string * list string) :=
  [("table_data",
    ["table_context"; "row_index"; "column_1"; "column_2"; "column_3";
     "column_4"; "additional_data"]);
   ("version_info",
    ["version_number"; "context"; "element_type"; "full_text"]);
   ("list_item",
    ["list_context"; "item_index"; "content"; "list_type"; "total_items"]);
   ("section_content",
    ["heading"; "heading_level"; "content"; "content_pieces"])].

(** [s.update(l)] on a set of names, kept without repetition. *)
Definition set_update (s l : list string) : list string :=
  fold_left (fun s x => if mem x s then s else s ++ [x]) l s.

(** [set(base_columns)] updated with the columns of every type. *)
Definition all_columns : list string :=
  fold_left set_update (map snd type_specific_columns)
            (set_update [] base_columns).

Fixpoint insert_sorted (x : string) (l : list string) : list string :=
  match l with
  | [] => [x]
  | y :: l' =>
      if String.leb x y then x :: l else y :: insert_sorted x l'
  end.

(** [sorted(names)]: by code points. *)
Definition sorted (l : list string) : list string :=
  fold_right insert_sorted [] l.

(** [{col: record.get(col, '') for col in sorted(all_columns)}] *)
Definition full_record (record : Dict) : Dict :=
  dict_of (map (fun col => (col, get record col empty_str))
               (sorted all_columns)).

Definition write_file (filename : string) (f : CsvFile) : M World unit :=
  modify (fun w => {| log := log w;
                      files := (filename, f) :: files w;
                      ticks := ticks w |}).

(** [open(filename, 'w', ...)] *)
Definition open_w `{Externals} (filename : string) : M World unit :=
  if can_open filename then ret tt else raise (OSError filename).

Definition with_csv_suffix (filename : string) : string :=
  if endswith filename ".csv" then filename else filename +++ ".csv".

Definition export_formatted_csv `{Externals} (self : Exporter)
           (filename : string) : M World unit :=
  let filename := with_csv_suffix filename in
  if is_nil (data self) then logger_warning No_data_to_export
  else
    try_except
      (open_w filename ;;;
       write_file filename
         {| fieldnames := sorted all_columns;
            rows := map full_record (data self) |} ;;;
       logger_success (Formatted_CSV_exported filename) ;;;
       logger_info (Total_records (List.length (data self))) ;;;
       logger_info (Columns (List.length all_columns)))
      (fun e => raise (ExportException e)).

(** [data_by_type[data_type].append(record)], creating the entry when
    the key is new. *)
Fixpoint group_add (k : PyVal) (record : Dict)
         (groups : list (PyVal * list Dict)) : list (PyVal * list Dict) :=
  match groups with
  | [] => [(k, [record])]
  | (k', records) :: groups' =>
      if val_eqb k' k then (k', records ++ [record]) :: groups'
      else (k', records) :: group_add k record groups'
  end.

Definition group_by_type (records : list Dict)
  : list (PyVal * list Dict) :=
  fold_left
    (fun groups record =>
       group_add (get record "data_type" (VStr "unknown")) record groups)
    records [].

(** [data_type.replace(' ', '_').lower()]; only text has the method. *)
Definition clean_type_of (data_type : PyVal) : Res string :=
  match data_type with
  | VStr s => Ok (lower (replace_char " " "_" s))
  | VInt _ => Raise AttributeError
  end.

Definition export_by_data_type `{Externals} (self : Exporter)
           (base_filename : string) : M World unit :=
  for_each (group_by_type (data self))
    (fun g =>
       let (data_type, records) := g in
       clean_type <- of_res (clean_type_of data_type) ;;
       let filename := base_filename +++ "_" +++ clean_type +++ ".csv" in
       if is_nil records then ret tt
       else
         exporter <- of_res (__init__ records) ;;
         export_formatted_csv exporter filename ;;;
         logger_info (Exported_records_to (List.length records)
                        (str data_type) filename)).

End FormattedCSVExporter.

(* ================================================================== *)
(** ** FormattedScraper *)
(* ================================================================== *)

Module FormattedScraper.

Record Stats : Type := {
  start_time : nat;
  urls_processed : nat;
  urls_successful : nat;
  urls_failed : nat;
  total_records : nat
}.

Record ScraperState : Type := {
  stats : Stats;
  world : World
}.

#[export] Instance ScraperState_Logging : Logging ScraperState :=
  {| write_log e st :=
       {| stats := stats st; world := write_log e (world st) |} |}.

(** [FormattedScraper()]: reads the clock for [start_time]. *)
Definition __init__ (w : World) : ScraperState :=
  {| stats := {| start_time := ticks w; urls_processed := 0;
                 urls_successful := 0; urls_failed := 0;
                 total_records := 0 |};
     world := {| log := log w; files := files w; ticks := S (ticks w) |} |}.

Definition set_stats (f : Stats -> Stats) : M ScraperState unit :=
  modify (fun st => {| stats := f (stats st); world := world st |}).

(** Runs a method of a parser object on the world of the scraper. *)
Definition call_parser {A : Type} (init : StructuredDataParser.Stats)
           (c : M StructuredDataParser.ParserState A) : M ScraperState A :=
  fun st =>
    let (r, ps) :=
      c {| StructuredDataParser.extraction_stats := init;
           StructuredDataParser.world := world st |} in
    (r, {| stats := stats st; world := StructuredDataParser.world ps |}).

(** Runs a method of the exporter on the world of the scraper. *)
Definition call_world {A : Type} (c : M World A) : M ScraperState A :=
  fun st =>
    let (r, w) := c (world st) in
    (r, {| stats := stats st; world := w |}).

Definition scrape_url `{Externals} (url : string)
  : M ScraperState (list Dict) :=
  try_except
    (logger_info (Scraping url) ;;;
     content <- of_res (http_get url) ;;
     parser <- of_res (StructuredDataParser.__init__ (Some content) url) ;;
     data <- call_parser (snd parser)
               (StructuredDataParser.parse_structured_data (fst parser)) ;;
     set_stats (fun st =>
       {| start_time := start_time st;
          urls_processed := urls_processed st + 1;
          urls_successful := urls_successful st + 1;
          urls_failed := urls_failed st;
          total_records := total_records st + List.length data |}) ;;;
     logger_success (Extracted_records_from (List.length data) url) ;;;
     ret data)
    (fun e =>
       set_stats (fun st =>
         {| start_time := start_time st;
            urls_processed := urls_processed st + 1;
            urls_successful := urls_successful st;
            urls_failed := urls_failed st + 1;
            total_records := total_records st |}) ;;;
       logger_failure (Failed_to_scrape url e) ;;;
       ret []).

(** The entry of [url_reports] for one URL. *)
Definition url_report (url : string) (data : list Dict) : Dict :=
  dict_of
    [("url", VStr url);
     ("records_extracted", VInt (Z.of_nat (List.length data)));
     ("status", VStr (if is_nil data then "failed" else "success"))].

(** The loop over the URLs of [run_scraping]. *)
Fixpoint scrape_all `{Externals} (urls : list string)
         (all_data url_reports : list Dict)
  : M ScraperState (list Dict * list Dict) :=
  match urls with
  | [] => ret (all_data, url_reports)
  | url :: rest =>
      data <- scrape_url url ;;
      scrape_all rest (all_data ++ data)
                 (url_reports ++ [url_report url data])
  end.

(** What [scrape_url] returned for each URL of the loop, in order. *)
Fixpoint scrape_trace `{Externals} (urls : list string) (st : ScraperState)
  : list (string * list Dict) :=
  match urls with
  | [] => []
  | url :: rest =>
      match scrape_url url st with
      | (Ok data, st') => (url, data) :: scrape_trace rest st'
      | (Raise _, _) => []
      end
  end.

(** [data_by_type[data_type] = data_by_type.get(data_type, 0) + 1] *)
Fixpoint count_add (k : PyVal) (counts : list (PyVal * nat))
  : list (PyVal * nat) :=
  match counts with
  | [] => [(k, 1)]
  | (k', n) :: counts' =>
      if val_eqb k' k then (k', n + 1) :: counts'
      else (k', n) :: count_add k counts'
  end.

Definition count_by_type (data : list Dict) : list (PyVal * nat) :=
  fold_left
    (fun counts record =>
       count_add (get record "data_type" (VStr "unknown")) counts)
    data [].

Definition summary_fieldnames : list string :=
  ["report_type"; "total_urls"; "successful_urls"; "failed_urls";
   "total_records"; "success_rate"; "scraping_duration"; "url";
   "records_extracted"; "status"; "domain"; "data_type"; "record_count";
   "percentage"].

(** The row of the summary for one entry of [url_reports];
    [report['url']] is text in every report [run_scraping] builds. *)
Definition url_summary_row `{Externals} (report : Dict) : Dict :=
  dict_of
    [("report_type", VStr "URL_REPORT");
     ("url", get report "url" FormattedCSVExporter.empty_str);
     ("records_extracted", get report "records_extracted" FormattedCSVExporter.empty_str);
     ("status", get report "status" FormattedCSVExporter.empty_str);
     ("domain", VStr (netloc (str (get report "url" FormattedCSVExporter.empty_str))))].

Definition type_summary_row `{Externals} (total : nat)
           (tc : PyVal * nat) : Dict :=
  dict_of
    [("report_type", VStr "DATA_TYPE_SUMMARY");
     ("data_type", fst tc);
     ("record_count", VInt (Z.of_nat (snd tc)));
     ("percentage", VStr (percent_1f (snd tc) total +++ "%"))].

Definition _create_summary_report `{Externals} (output_base : string)
           (url_reports data : list Dict) : M ScraperState unit :=
  st <- gets stats ;;
  (if List.length url_reports =? 0
   then raise ZeroDivisionError else ret tt) ;;;
  now <- call_world (fun w =>
           (Ok (ticks w),
            {| log := log w; files := files w; ticks := S (ticks w) |})) ;;
  let overall := dict_of
    [("report_type", VStr "OVERALL_SUMMARY");
     ("total_urls", VInt (Z.of_nat (List.length url_reports)));
     ("successful_urls", VInt (Z.of_nat (urls_successful st)));
     ("failed_urls", VInt (Z.of_nat (urls_failed st)));
     ("total_records", VInt (Z.of_nat (total_records st)));
     ("success_rate",
      VStr (percent_1f (urls_successful st) (List.length url_reports)
            +++ "%"));
     ("scraping_duration",
      VStr (elapsed_1f (start_time st) now +++ "s"))] in
  let summary_data :=
    [overall] ++ map url_summary_row url_reports
    ++ map (type_summary_row (List.length data)) (count_by_type data) in
  let summary_filename := output_base +++ "_summary.csv" in
  try_except
    (call_world
       (FormattedCSVExporter.open_w summary_filename ;;;
        FormattedCSVExporter.write_file summary_filename
          {| fieldnames := summary_fieldnames; rows := summary_data |}) ;;;
     logger_success (Summary_report_exported summary_filename))
    (fun e => logger_error (Error_exporting_summary e)).

Definition _export_results `{Externals} (data : list Dict)
           (output_base : string) (url_reports : list Dict)
  : M ScraperState unit :=
  main_exporter <- of_res (FormattedCSVExporter.__init__ data) ;;
  call_world
    (FormattedCSVExporter.export_formatted_csv main_exporter output_base) ;;;
  call_world
    (FormattedCSVExporter.export_by_data_type main_exporter output_base) ;;;
  _create_summary_report output_base url_reports data.

(** What [run_scraping] returns. *)
Record RunResult : Type := {
  result_data : list Dict;
  result_url_reports : list Dict;
  result_stats : Stats
}.

Definition run_scraping `{Externals} (urls : list string)
           (output_base : string) : M ScraperState RunResult :=
  logger_info (Starting_scraping (List.length urls)) ;;;
  collected <- scrape_all urls [] [] ;;
  let (all_data, url_reports) := collected in
  (if is_nil all_data then logger_warning No_data_collected
   else _export_results all_data output_base url_reports) ;;;
  st <- gets stats ;;
  ret {| result_data := all_data;
         result_url_reports := url_reports;
         result_stats := st |}.

End FormattedScraper.

(* ================================================================== *)
(** ** The library calls that raise *)
(* ================================================================== *)

(** [BeautifulSoup(html, 'html.parser')] raises on markup the parser
    rejects and [urlparse(url)] on an address it cannot split.  The
    fields of [Externals] give what the two calls return; the fields
    here give the exception of a call that raises instead. *)
Class Refusals : Type := {
  (** The exception of [BeautifulSoup(html, 'html.parser')], if any. *)
  parser_error : string -> option PyExn;
  (** The exception of [urlparse(url)], if any. *)
  url_error : string -> option PyExn
}.

(** The constructor of the parser and the methods of the scraper with
    the exceptions of the two library calls written out.  What calls
    neither library is taken from the modules above. *)
Module Raising.

Import FormattedScraper.

(** [BeautifulSoup(html, 'html.parser')] *)
Definition beautiful_soup `{Externals} `{Refusals} (html : string)
  : Res Node :=
  match parser_error html with
  | Some e => Raise e
  | None => Ok (document (html_parser html))
  end.

(** [urlparse(url).netloc] for text. *)
Definition urlparse_netloc `{Externals} `{Refusals} (url : string)
  : Res string :=
  match url_error url with
  | Some e => Raise e
  | None => Ok (netloc url)
  end.

(** [StructuredDataParser(html_content, url, logger)]; [None] stands
    for absent content. *)
Definition __init__ `{Externals} `{Refusals}
           (html_content : option string) (url : string)
  : Res (StructuredDataParser.Parser * StructuredDataParser.Stats) :=
  match html_content with
  | None => Raise (ValueError "HTML content cannot be empty.")
  | Some html =>
      if is_empty html
      then Raise (ValueError "HTML content cannot be empty.")
      else
        match beautiful_soup html with
        | Raise e => Raise e
        | Ok soup =>
            match urlparse_netloc url with
            | Raise e => Raise e
            | Ok domain =>
                Ok ({| StructuredDataParser.soup := soup;
                       StructuredDataParser.url := url;
                       StructuredDataParser.domain := domain |},
                    {| StructuredDataParser.tables := 0;
                       StructuredDataParser.lists := 0;
                       StructuredDataParser.definitions := 0;
                       StructuredDataParser.sections := 0;
                       StructuredDataParser.versions := 0 |})
            end
        end
  end.

Definition scrape_url `{Externals} `{Refusals} (url : string)
  : M ScraperState (list Dict) :=
  try_except
    (logger_info (Scraping url) ;;;
     content <- of_res (http_get url) ;;
     parser <- of_res (__init__ (Some content) url) ;;
     data <- call_parser (snd parser)
               (StructuredDataParser.parse_structured_data (fst parser)) ;;
     set_stats (fun st =>
       {| start_time := start_time st;
          urls_processed := urls_processed st + 1;
          urls_successful := urls_successful st + 1;
          urls_failed := urls_failed st;
          total_records := total_records st + List.length data |}) ;;;
     logger_success (Extracted_records_from (List.length data) url) ;;;
     ret data)
    (fun e =>
       set_stats (fun st =>
         {| start_time := start_time st;
            urls_processed := urls_processed st + 1;
            urls_successful := urls_successful st;
            urls_failed := urls_failed st + 1;
            total_records := total_records st |}) ;;;
       logger_failure (Failed_to_scrape url e) ;;;
       ret []).

(** The loop over the URLs of [run_scraping]. *)
Fixpoint scrape_all `{Externals} `{Refusals} (urls : list string)
         (all_data url_reports : list Dict)
  : M ScraperState (list Dict * list Dict) :=
  match urls with
  | [] => ret (all_data, url_reports)
  | url :: rest =>
      data <- scrape_url url ;;
      scrape_all rest (all_data ++ data)
                 (url_reports ++ [url_report url data])
  end.

(** [d[k]]: a missing key raises. *)
Definition item (d : Dict) (k : string) : Res PyVal :=
  match lookup d k with
  | Some v => Ok v
  | None => Raise (KeyError k)
  end.

(** [urlparse(v).netloc] as the writer prints it.  A number other
    than 0 has no [decode]; 0 is taken for empty bytes, and the
    [netloc] of the result is the bytes [b''].  *)
Definition netloc_of `{Externals} `{Refusals} (v : PyVal) : Res PyVal :=
  match v with
  | VStr url =>
      match urlparse_netloc url with
      | Raise e => Raise e
      | Ok domain => Ok (VStr domain)
      end
  | VInt z => if (z =? 0)%Z then Ok (VStr "b''") else Raise AttributeError
  end.

(** The dict display of the loop over [url_reports], entry by
    entry. *)
Definition url_summary_row `{Externals} `{Refusals} (report : Dict)
  : Res Dict :=
  match item report "url" with
  | Raise e => Raise e
  | Ok url =>
      match item report "records_extracted" with
      | Raise e => Raise e
      | Ok records_extracted =>
          match item report "status" with
          | Raise e => Raise e
          | Ok status =>
              match netloc_of url with
              | Raise e => Raise e
              | Ok domain =>
                  Ok (dict_of
                        [("report_type", VStr "URL_REPORT");
                         ("url", url);
                         ("records_extracted", records_extracted);
                         ("status", status);
                         ("domain", domain)])
              end
          end
      end
  end.

(** The loop over [url_reports]. *)
Fixpoint url_summary_rows `{Externals} `{Refusals} (url_reports : list Dict)
  : Res (list Dict) :=
  match url_reports with
  | [] => Ok []
  | report :: rest =>
      match url_summary_row report with
      | Raise e => Raise e
      | Ok row =>
          match url_summary_rows rest with
          | Raise e => Raise e
          | Ok rows => Ok (row :: rows)
          end
      end
  end.

Definition _create_summary_report `{Externals} `{Refusals}
           (output_base : string) (url_reports data : list Dict)
  : M ScraperState unit :=
  st <- gets stats ;;
  (if List.length url_reports =? 0
   then raise ZeroDivisionError else ret tt) ;;;
  now <- call_world (fun w =>
           (Ok (ticks w),
            {| log := log w; files := files w; ticks := S (ticks w) |})) ;;
  let overall := dict_of
    [("report_type", VStr "OVERALL_SUMMARY");
     ("total_urls", VInt (Z.of_nat (List.length url_reports)));
     ("successful_urls", VInt (Z.of_nat (urls_successful st)));
     ("failed_urls", VInt (Z.of_nat (urls_failed st)));
     ("total_records", VInt (Z.of_nat (total_records st)));
     ("success_rate",
      VStr (percent_1f (urls_successful st) (List.length url_reports)
            +++ "%"));
     ("scraping_duration",
      VStr (elapsed_1f (start_time st) now +++ "s"))] in
  url_rows <- of_res (url_summary_rows url_reports) ;;
  let summary_data :=
    [overall] ++ url_rows
    ++ map (type_summary_row (List.length data)) (count_by_type data) in
  let summary_filename := output_base +++ "_summary.csv" in
  try_except
    (call_world
       (FormattedCSVExporter.open_w summary_filename ;;;
        FormattedCSVExporter.write_file summary_filename
          {| fieldnames := summary_fieldnames; rows := summary_data |}) ;;;
     logger_success (Summary_report_exported summary_filename))
    (fun e => logger_error (Error_exporting_summary e)).

Definition _export_results `{Externals} `{Refusals} (data : list Dict)
           (output_base : string) (url_reports : list Dict)
  : M ScraperState unit :=
  main_exporter <- of_res (FormattedCSVExporter.__init__ data) ;;
  call_world
    (FormattedCSVExporter.export_formatted_csv main_exporter output_base) ;;;
  call_world
    (FormattedCSVExporter.export_by_data_type main_exporter output_base) ;;;
  _create_summary_report output_base url_reports data.

Definition run_scraping `{Externals} `{Refusals} (urls : list string)
           (output_base : string) : M ScraperState RunResult :=
  logger_info (Starting_scraping (List.length urls)) ;;;
  collected <- scrape_all urls [] [] ;;
  let (all_data, url_reports) := collected in
  (if is_nil all_data then logger_warning No_data_collected
   else _export_results all_data output_base url_reports) ;;;
  st <- gets stats ;;
  ret {| result_data := all_data;
         result_url_reports := url_reports;
         result_stats := st |}.

End Raising.

Import StructuredDataParser.
Import FormattedCSVExporter.

(* ================================================================== *)
(** ** Vocabulary of the specification *)
(* ================================================================== *)

(** The keys of a table record that are not cells: the five of the
    record display in [process_row] and the two [stamp] adds. *)
Definition record_meta_keys : list string :=
  table_meta_keys ++ ["extraction_timestamp"; "record_id"].

(** The [type_fields] of a table record: its cells. *)
Definition cell_fields (record : Dict) : Dict :=
  filter_keys (fun k => negb (mem k record_meta_keys)) record.

(** The record holds [k: v] under a key that is not the name of a
    metadata field. *)
Definition cell_field (record : Dict) (k : string) (v : PyVal) : Prop :=
  lookup record k = Some v /\ mem k record_meta_keys = false.

Definition is_table_row (record : Dict) : Prop :=
  get record "data_type" empty_str = VStr "table_data".

(** The records of one type in a sequence. *)
Definition records_of_type (t : string) (records : list Dict)
  : list Dict :=
  filter (fun r => val_eqb (get r "data_type" empty_str) (VStr t)) records.

Definition positional_columns : list string :=
  ["column_1"; "column_2"; "column_3"; "column_4"].

(** The columns of every exported file, in the order of the header. *)
Definition unified_columns : list string :=
  ["additional_data"; "column_1"; "column_2"; "column_3"; "column_4";
   "content"; "content_pieces"; "context"; "data_type"; "domain";
   "element_type"; "extraction_timestamp"; "full_text"; "heading";
   "heading_level"; "item_index"; "list_context"; "list_type";
   "record_id"; "row_index"; "source_url"; "table_context";
   "total_items"; "version_number"].

(** The row handed to the writer for a unified row [std]: one entry
    per column, the empty string where [std] has no such field. *)
Definition exported_row (std : Dict) : Dict :=
  map (fun col => (col, get std col empty_str)) unified_columns.

(** A computation that returns from every state: no exception leaves
    it. *)
Definition returns {S A : Type} (c : M S A) : Prop :=
  forall s, exists a s', c s = (Ok a, s').


(** The next character, if any, is not a digit. *)
Definition ends_number (rest : string) : Prop :=
  match rest with
  | EmptyString => True
  | String c _ => is_digit c = false
  end.

(** The records one pattern adds for an element: one for each of
    its first three matches in the text. *)
Definition pattern_records (self : Parser) (elem_type : string)
           (elem_idx : nat) (text : string) (pattern : regex) : list Dict :=
  map (version_record self elem_type
         (version_context elem_type elem_idx text) text)
      (firstn 3 (findall pattern text)).

(** [a] is what is left of [b] after some of its first characters. *)
Inductive suffix : string -> string -> Prop :=
| suffix_here (s : string) : suffix s s
| suffix_later (c : ascii) (s t : string) :
    suffix s t -> suffix s (String c t).

(** No period of the text is directly followed by a digit. *)
Fixpoint no_dot_digit (s : string) : Prop :=
  match s with
  | EmptyString => True
  | String c s' =>
      (c = "."%char ->
       match s' with
       | String d _ => is_digit d = false
       | EmptyString => True
       end)
      /\ no_dot_digit s'
  end.

(** Every period of the text is directly followed by a space. *)
Fixpoint dots_spaced (s : string) : Prop :=
  match s with
  | EmptyString => True
  | String c s' =>
      (c = "."%char -> exists t, s' = String " "%char t) /\ dots_spaced s'
  end.

(** The three version patterns with a period between digits. *)
Definition dotted_patterns : list regex := firstn 3 version_patterns.

(** The result of one extraction pass over a parsed document. *)
Definition extraction `{Externals} (contents : list Node) (url : string)
           (st : ParserState) : Res (list Dict) :=
  fst (parse_structured_data
         {| soup := document contents; url := url; domain := netloc url |}
         st).

(* ================================================================== *)
(** ** Sample inputs *)
(* ================================================================== *)

Module Samples.

Definition cell (tag text : string) : Node := Elem tag [] [Text text].
Definition row (cells : list Node) : Node := Elem "tr" [] cells.

(** Optional white space between the tags of a document. *)
Definition gap (spaced : bool) : list Node :=
  if spaced then [Text (String (ascii_of_nat 10) "  ")] else [].

(** A table whose first row holds the header cells Name and Version
    and whose single data row holds Widget and 1.2.3; the header cells
    are [th] or [td], with or without white space between the tags. *)
Definition widget_table (header_th spaced : bool) : Node :=
  let h := if header_th then "th" else "td" in
  Elem "table" []
    (gap spaced
     ++ [row (gap spaced ++ [cell h "Name"] ++ gap spaced
              ++ [cell h "Version"] ++ gap spaced)]
     ++ gap spaced
     ++ [row (gap spaced ++ [cell "td" "Widget"] ++ gap spaced
              ++ [cell "td" "1.2.3"] ++ gap spaced)]
     ++ gap spaced).

(** The same two columns with the header in an explicit [thead]. *)
Definition thead_table : Node :=
  Elem "table" []
    [Elem "thead" [] [row [cell "th" "Name"; cell "th" "Notes"]];
     Elem "tbody" [] [row [cell "td" "Widget"; cell "td" "Stable release"]]].

(** The rows of [thead_table] without the [thead] and [tbody] tags. *)
Definition plain_table : Node :=
  Elem "table" []
    [row [cell "th" "Name"; cell "th" "Notes"];
     row [cell "td" "Widget"; cell "td" "Stable release"]].

Definition gadget_table : Node :=
  Elem "table" []
    [row [cell "th" "Product"; cell "th" "Status"];
     row [cell "td" "Gadget"; cell "td" "Beta release"]].

(** A table of six columns whose last header cell reads domain, with
    one data row of six valid cells. *)
Definition registry_table : Node :=
  Elem "table" []
    [row [cell "th" "Name"; cell "th" "Owner"; cell "th" "Region";
          cell "th" "Status"; cell "th" "Contact"; cell "th" "domain"];
     row [cell "td" "Acme registry"; cell "td" "Alice Smith";
          cell "td" "Europe West"; cell "td" "Active now";
          cell "td" "Phone only"; cell "td" "acme example org"]].

(** Its first and last columns alone. *)
Definition owner_table : Node :=
  Elem "table" []
    [row [cell "th" "Name"; cell "th" "domain"];
     row [cell "td" "Acme registry"; cell "td" "acme example org"]].

(** One paragraph with two dates and two month-year phrases. *)
Definition dated_paragraph : Node :=
  Elem "p" []
    [Text "Built 2024-01-01 and 2024-02-02 in March 2024 and April 2024"].

Definition two_item_list : Node :=
  Elem "ul" []
    [Elem "li" [] [Text "Alpha release"];
     Elem "li" [] [Text "Beta release"]].

Definition page_url : string := "https://example.org/news.html".

Definition parser_of (contents : list Node) : Parser :=
  {| soup := document contents; url := page_url; domain := "example.org" |}.

Definition fresh_world : World := {| log := []; files := []; ticks := 0 |}.

Definition fresh_state : ParserState :=
  {| extraction_stats := {| tables := 0; lists := 0; definitions := 0;
                            sections := 0; versions := 0 |};
     world := fresh_world |}.

Definition fresh_frame : TablesFrame :=
  {| table_data := []; first_row := Unbound |}.

(** A table record with six cells. *)
Definition wide_record : Dict :=
  [("data_type", VStr "table_data");
   ("source_url", VStr page_url);
   ("table_context", VStr "Table_1");
   ("row_index", VInt 1);
   ("domain", VStr "example.org");
   ("Name", VStr "Widget");
   ("Vendor", VStr "Acme Tools");
   ("Licence", VStr "MIT licence");
   ("Platform", VStr "Linux");
   ("Language", VStr "Python");
   ("Notes", VStr "It's stable");
   ("extraction_timestamp", VStr "2024-05-01T10:00:00");
   ("record_id", VStr "0042_1")].

Definition list_record : Dict :=
  [("data_type", VStr "list_item");
   ("source_url", VStr page_url);
   ("domain", VStr "example.org");
   ("list_context", VStr "List");
   ("item_index", VInt 0);
   ("content", VStr "Alpha release");
   ("list_type", VStr "ul");
   ("total_items", VInt 2)].

(** Three pages: one with a list, one without content of any kind,
    one that cannot be retrieved. *)
Definition list_page_url : string := "https://example.org/releases".
Definition bare_page_url : string := "https://example.org/bare".
Definition down_page_url : string := "https://example.org/down".

Definition list_page_html : string :=
  "<ul><li>Alpha release</li><li>Beta release</li></ul>".
Definition bare_page_html : string := "<div></div>".

Definition sample_externals : Externals := {|
  html_parser html :=
    if String.eqb html list_page_html then [two_item_list]
    else if String.eqb html bare_page_html then [Elem "div" [] []]
    else [];
  netloc _ := "example.org";
  py_hash _ := 123456789%Z;
  isoformat n := "2024-05-01T10:00:0" +++ str_nat n;
  elapsed_1f _ _ := "0.5";
  percent_1f a b := str_nat (a * 100 / b) +++ ".0";
  text_has_get_text := true;
  http_get u :=
    if String.eqb u list_page_url then Ok list_page_html
    else if String.eqb u bare_page_url then Ok bare_page_html
    else Raise (FetchError u);
  can_open _ := true
|}.

(** Markup the parser rejects and an address [urlparse] cannot
    split. *)
Definition rejected_html : string := "<p>text</p><![abc]]>".
Definition bad_page_url : string := "http://[bad".

Definition sample_refusals : Refusals := {|
  parser_error html :=
    if String.eqb html rejected_html then Some ParserRejectedMarkup
    else None;
  url_error url :=
    if String.eqb url bad_page_url then Some (ValueError "Invalid IPv6 URL")
    else None
|}.

(** The example of the specification, read on a document: one table
    row with the cells Name and Version, and one version reference for
    1.2.3. *)
Definition widget_claim `{Externals} (contents : list Node) (url : string)
           (st : ParserState) : Prop :=
  exists records table_row reference,
    extraction contents url st = Ok records
    /\ records_of_type "table_data" records = [table_row]
    /\ cell_fields table_row
       = [("Name", VStr "Widget"); ("Version", VStr "1.2.3")]
    /\ records_of_type "version_info" records = [reference]
    /\ lookup reference "version_number" = Some (VStr "1.2.3").

Definition fresh_scraper : FormattedScraper.ScraperState :=
  FormattedScraper.__init__ fresh_world.

Definition sample_records : list Dict := [wide_record; list_record].

(** The exporter built from [sample_records]. *)
Definition sample_exporter : Exporter :=
  match FormattedCSVExporter.__init__ sample_records with
  | Ok exporter => exporter
  | Raise _ => {| original_data := []; data := [] |}
  end.

Definition sample_urls : list string :=
  [list_page_url; bare_page_url; down_page_url].

(** A run over the three sample pages. *)
Definition sample_run
  : Res FormattedScraper.RunResult * FormattedScraper.ScraperState :=
  @FormattedScraper.run_scraping sample_externals sample_urls "out"
    fresh_scraper.

Definition sample_result : FormattedScraper.RunResult :=
  match fst sample_run with
  | Ok result => result
  | Raise _ =>
      {| FormattedScraper.result_data := [];
         FormattedScraper.result_url_reports := [];
         FormattedScraper.result_stats := FormattedScraper.stats fresh_scraper |}
  end.

End Samples.

Import Samples.

(* ================================================================== *)
(** ** Vocabulary of the invariants *)
(* ================================================================== *)

(** *** What a computation changes *)

(** Whether it returns or raises, the computation only appends to the
    list that [recs] reads, and what it appends satisfies [P]. *)
Definition grows {S A X : Type} (recs : S -> list X) (P : X -> Prop)
           (c : M S A) : Prop :=
  forall s, exists added,
    recs (snd (c s)) = recs s ++ added /\ Forall P added.

(** The computation leaves the part of the state that [proj] reads as
    it found it, whether it returns or raises. *)
Definition preserves {S A X : Type} (proj : S -> X) (c : M S A) : Prop :=
  forall s, proj (snd (c s)) = proj s.

(** *** Records of each kind *)

(** The dict display of [process_list]. *)
Definition list_item_record (self : Parser) (context : string) (i : nat)
           (text list_type : string) (n : nat) : Dict :=
  [("data_type", VStr "list_item");
   ("source_url", VStr (url self));
   ("domain", VStr (domain self));
   ("list_context", VStr context);
   ("item_index", VInt (Z.of_nat i));
   ("content", VStr text);
   ("list_type", VStr list_type);
   ("total_items", VInt (Z.of_nat n))].

(** A list record as the list extractor builds it: the index is below
    the number of items, the content is valid, the context is short. *)
Definition is_list_item (self : Parser) (record : Dict) : Prop :=
  exists context i text list_type n,
    record = list_item_record self context i text list_type n
    /\ i < n
    /\ _is_valid_content text None = true
    /\ length context <= 100
    /\ (list_type = "ol" \/ list_type = "ul").

(** The dict display of [process_heading]. *)
Definition section_record (self : Parser) (heading level : string)
           (parts : list string) : Dict :=
  [("data_type", VStr "section_content");
   ("source_url", VStr (url self));
   ("domain", VStr (domain self));
   ("heading", VStr heading);
   ("heading_level", VStr level);
   ("content", VStr (join " | " (firstn 3 parts)));
   ("content_pieces", VInt (Z.of_nat (List.length parts)))].

(** A section record as the section extractor builds it: between one
    and five pieces of content, each valid at 30 characters, under a
    heading with text. *)
Definition is_section (self : Parser) (record : Dict) : Prop :=
  exists heading level parts,
    record = section_record self heading level parts
    /\ 1 <= List.length parts <= 5
    /\ Forall (fun text => _is_valid_content text (Some 30) = true) parts
    /\ heading <> EmptyString
    /\ In level heading_tags.

(** The two version patterns without a period: the ISO date and the
    month with a year. *)
Definition dated_patterns : list regex := skipn 3 version_patterns.

(** A version record as the version scan builds it: the element is
    the one at index [elem_idx] among the elements of its kind in the
    document of the parser, its cleaned text is valid at 20 characters,
    and the token is a match of a dated pattern in that text. *)
Definition is_version_reference (self : Parser) (record : Dict) : Prop :=
  exists elem_type elements elem_idx elem version pattern,
    let text := _clean_text (get_text elem) in
    record = version_record self elem_type
               (version_context elem_type elem_idx text) text version
    /\ In (elem_type, elements) (elements_to_check self)
    /\ nth_error elements elem_idx = Some elem
    /\ _is_valid_content text (Some 20) = true
    /\ In pattern dated_patterns
    /\ In version (findall pattern text)
    /\ version <> EmptyString.

(** The dict display of [process_row], before the cells are added. *)
Definition table_base (self : Parser) (table_context : string)
           (row_idx : nat) : Dict :=
  [("data_type", VStr "table_data");
   ("source_url", VStr (url self));
   ("table_context", VStr table_context);
   ("row_index", VInt (Z.of_nat row_idx));
   ("domain", VStr (domain self))].

(** An entry a cell put into a table record: valid text under a key
    that is not empty. *)
Definition is_cell (kv : string * PyVal) : Prop :=
  fst kv <> EmptyString
  /\ exists text, snd kv = VStr text /\ _is_valid_content text None = true.

(** A table record as the table extractor builds it: every entry is
    one of the five of the display or a cell, and some cell lies under
    a key that is not a metadata key. *)
Definition is_table_record (self : Parser) (record : Dict) : Prop :=
  exists table_context row_idx,
    Forall (fun kv => In kv (table_base self table_context row_idx)
                      \/ is_cell kv) record
    /\ exists k text,
         In (k, VStr text) record
         /\ mem k table_meta_keys = false
         /\ _is_valid_content text None = true.

(** The texts a row puts under the key [k]: those of its valid cells
    whose column name is [k], in the order of the row. *)
Definition texts_under (headers : list string) (cells : list Node)
           (k : string) : list string :=
  map (fun ic => _clean_text (get_text (snd ic)))
      (filter (fun ic =>
                 _is_valid_content (_clean_text (get_text (snd ic))) None
                 && String.eqb (col_name headers (fst ic)) k)
              (enumerate cells)).

(** *** The effects of a pass *)

(** What a parser can reach besides the log: its counters, the files
    and the clock. *)
Definition beyond_log (st : ParserState)
  : Stats * list (string * CsvFile) * nat :=
  (extraction_stats st, files (world st), ticks (world st)).

(** A log entry of a pass: an entry at level INFO, or the warning of
    the table loop for a table whose processing raised. *)
Definition expected_entry (entry : LogEntry) : Prop :=
  fst entry = INFO
  \/ exists table_idx e,
       entry = (WARNING, Error_parsing_table table_idx e).

(** *** Rows of the exporter *)

(** The dict a record hands to [str] in [_organize_data]: the fields
    that go to [additional_data] for a table record, the content
    fields for a record of no known type, none for the three types
    that are copied field by field. *)
Definition printed_fields (record : Dict) : Dict :=
  let standardized := standardized_base record in
  let data_type := get record "data_type" empty_str in
  if val_eqb data_type (VStr "table_data")
  then additional_fields standardized record
  else if val_eqb data_type (VStr "version_info")
          || val_eqb data_type (VStr "list_item")
          || val_eqb data_type (VStr "section_content")
  then []
  else filter_keys
         (fun k => negb (contains standardized k)
                   && negb (String.eqb k "data_type"))
         record.

(** The record hands only text to [str]: the text form of a number,
    which Python refuses to build beyond a limit of digits, is never
    asked for. *)
Definition prints_text_only (record : Dict) : Prop :=
  forall k z, ~ In (k, VInt z) (printed_fields record).

(** A version record whose [full_text] is a number: the slice
    [[:100]] cannot be taken. *)
Definition unsliceable (record : Dict) : Prop :=
  get record "data_type" empty_str = VStr "version_info"
  /\ exists n, get record "full_text" empty_str = VInt n.

(** The key under which [export_by_data_type] files a row and
    [_create_summary_report] counts a record. *)
Definition type_key (record : Dict) : PyVal :=
  get record "data_type" (VStr "unknown").

(** The rows of a sequence filed under one key, in their order. *)
Definition rows_of_key (k : PyVal) (records : list Dict) : list Dict :=
  filter (fun r => val_eqb (type_key r) k) records.



(** The groups built so far file the rows [done]: one group per key
    that occurs, holding the rows of that key in their order. *)
Definition files_rows (done : list Dict)
           (groups : list (PyVal * list Dict)) : Prop :=
  NoDup (map fst groups)
  /\ Forall (fun g => snd g = rows_of_key (fst g) done /\ snd g <> [])
            groups
  /\ forall r, In r done -> In (type_key r) (map fst groups).

(** A record the exporter and the per-type export can take: its type
    is text and it is not a version record with a number for text. *)
Definition exportable (record : Dict) : Prop :=
  (exists t, type_key record = VStr t) /\ ~ unsliceable record.

(** The name of the file of a data type:
    [f"{base_filename}_{clean_type}.csv"]. *)
Definition type_file_name (base_filename : string) (data_type : PyVal)
  : string :=
  base_filename +++ "_" +++ lower (replace_char " " "_" (str data_type))
  +++ ".csv".

(** The file [export_by_data_type] writes for one group: the rows of
    the group, normalized once more, under the header of every
    export. *)
Definition type_file (base_filename : string) (g : PyVal * list Dict)
  : string * CsvFile :=
  (type_file_name base_filename (fst g),
   {| fieldnames := sorted all_columns;
      rows := map full_record
                  match _organize_data (snd g) with
                  | Ok rows => rows
                  | Raise _ => []
                  end |}).

(** *** Text *)

(** Every character of the text satisfies [p]. *)
Fixpoint every (p : ascii -> bool) (s : string) : bool :=
  match s with
  | EmptyString => true
  | String c s' => p c && every p s'
  end.

(** A character a cleaned text can hold: no control character and no
    white space other than the plain space. *)
Definition is_clean_char (c : ascii) : bool :=
  negb (is_control c) && (negb (is_space c) || Ascii.eqb c " ").

(** Two ASCII letters stand side by side somewhere in the text. *)
Definition has_letter_pair (s : string) : Prop :=
  exists a b rest,
    suffix (String a (String b rest)) s
    /\ is_ascii_alpha a = true /\ is_ascii_alpha b = true.

(** *** Pages and runs *)

(** The page gives nothing to parse: the fetch raises or returns empty
    content. *)
Definition no_content `{Externals} (url : string) : Prop :=
  match http_get url with
  | Raise _ => True
  | Ok content => content = EmptyString
  end.

(** The counters after one more page, successful with [n] records. *)
Definition counted_success (n : nat) (st : FormattedScraper.Stats)
  : FormattedScraper.Stats :=
  {| FormattedScraper.start_time := FormattedScraper.start_time st;
     FormattedScraper.urls_processed :=
       FormattedScraper.urls_processed st + 1;
     FormattedScraper.urls_successful :=
       FormattedScraper.urls_successful st + 1;
     FormattedScraper.urls_failed := FormattedScraper.urls_failed st;
     FormattedScraper.total_records :=
       FormattedScraper.total_records st + n |}.

(** The counters after one more page, failed. *)
Definition counted_failure (st : FormattedScraper.Stats)
  : FormattedScraper.Stats :=
  {| FormattedScraper.start_time := FormattedScraper.start_time st;
     FormattedScraper.urls_processed :=
       FormattedScraper.urls_processed st + 1;
     FormattedScraper.urls_successful :=
       FormattedScraper.urls_successful st;
     FormattedScraper.urls_failed := FormattedScraper.urls_failed st + 1;
     FormattedScraper.total_records := FormattedScraper.total_records st |}.

(** Why [scrape_url] fails on a page: the fetch raises, the content is
    empty, the HTML parser rejects the content, or the address of the
    page cannot be split.  The exception is the one the page is logged
    with. *)
Inductive page_fails `{Externals} `{Refusals} (url : string)
  : PyExn -> Prop :=
| fetch_raises (e : PyExn) :
    http_get url = Raise e -> page_fails url e
| content_is_empty :
    http_get url = Ok EmptyString ->
    page_fails url (ValueError "HTML content cannot be empty.")
| markup_is_rejected (content : string) (e : PyExn) :
    http_get url = Ok content -> content <> EmptyString ->
    parser_error content = Some e -> page_fails url e
| address_is_rejected (content : string) (e : PyExn) :
    http_get url = Ok content -> content <> EmptyString ->
    parser_error content = None -> url_error url = Some e ->
    page_fails url e.

(** The state after a page that failed with [e]: one more page
    processed and failed, the start and the failure logged. *)
Definition failure_logged (url : string) (e : PyExn)
           (st : FormattedScraper.ScraperState)
  : FormattedScraper.ScraperState :=
  {| FormattedScraper.stats := counted_failure (FormattedScraper.stats st);
     FormattedScraper.world :=
       write_log (ERROR, Failed_to_scrape url e)
         (write_log (INFO, Scraping url) (FormattedScraper.world st)) |}.

(** Libraries that take every input. *)
Definition accepting : Refusals :=
  {| parser_error _ := None; url_error _ := None |}.

(** The entries of [url_reports] for the pages of a run. *)
Definition reports_of (pages : list (string * list Dict)) : list Dict :=
  map (fun ud => FormattedScraper.url_report (fst ud) (snd ud)) pages.

(** The state after the one clock reading of the summary. *)
Definition ticked (st : FormattedScraper.ScraperState)
  : FormattedScraper.ScraperState :=
  {| FormattedScraper.stats := FormattedScraper.stats st;
     FormattedScraper.world :=
       {| log := log (FormattedScraper.world st);
          files := files (FormattedScraper.world st);
          ticks := S (ticks (FormattedScraper.world st)) |} |}.

(** The computation lets out only exceptions that satisfy [Q]. *)
Definition raises_only {S A : Type} (Q : PyExn -> Prop) (c : M S A)
  : Prop :=
  forall s e s', c s = (Raise e, s') -> Q e.

(** The exception of an export whose file could not be opened. *)
Definition cannot_open `{Externals} (e : PyExn) : Prop :=
  exists filename,
    e = ExportException (OSError filename) /\ can_open filename = false.

(** *** More sample inputs *)

(** The surroundings of [sample_externals] on a disk where no file can
    be opened. *)
Definition closed_externals : Externals := {|
  html_parser := @html_parser sample_externals;
  netloc := @netloc sample_externals;
  py_hash := @py_hash sample_externals;
  isoformat := @isoformat sample_externals;
  elapsed_1f := @elapsed_1f sample_externals;
  percent_1f := @percent_1f sample_externals;
  text_has_get_text := @text_has_get_text sample_externals;
  http_get := @http_get sample_externals;
  can_open _ := false
|}.

(** A run over the two pages that give no record. *)
Definition quiet_urls : list string := [bare_page_url; down_page_url].

Definition quiet_run
  : Res FormattedScraper.RunResult * FormattedScraper.ScraperState :=
  @FormattedScraper.run_scraping sample_externals quiet_urls "out"
    fresh_scraper.

Definition quiet_result : FormattedScraper.RunResult :=
  match fst quiet_run with
  | Ok result => result
  | Raise _ =>
      {| FormattedScraper.result_data := [];
         FormattedScraper.result_url_reports := [];
         FormattedScraper.result_stats :=
           FormattedScraper.stats fresh_scraper |}
  end.

(** A run over the page with the list and a page whose address cannot
    be split, on a disk where every file can be opened. *)
Definition bad_address_urls : list string := [list_page_url; bad_page_url].

Definition bad_address_run
  : Res FormattedScraper.RunResult * FormattedScraper.ScraperState :=
  @Raising.run_scraping sample_externals sample_refusals bad_address_urls
    "out" fresh_scraper.

(** A version record whose text is a number. *)
Definition numbered_version : Dict :=
  [("data_type", VStr "version_info");
   ("source_url", VStr page_url);
   ("domain", VStr "example.org");
   ("version_number", VStr "2024-01-01");
   ("context", VStr "Paragraph_1");
   ("element_type", VStr "paragraph");
   ("full_text", VInt 2024)].

(* ================================================================== *)
(** * Properties *)
(* ================================================================== *)

(** ** The runtime on examples *)

Example clean_text_spaces_out_periods :
  _clean_text "1.2.3" = "1. 2. 3".
Proof. vm_compute. reflexivity. Qed.

Example clean_text_on_prose :
  _clean_text "  Hello   world [12] see.Now  .  " = "Hello world  see. Now.".
Proof. vm_compute. reflexivity. Qed.

Example numeric_text_is_not_valid :
  _is_valid_content "1. 2. 3" None = false
  /\ _is_valid_content "Widget" None = true
  /\ _is_valid_content "Beta" None = false.
Proof. vm_compute. auto. Qed.

Example patterns_on_raw_text :
  map (fun p => findall p "v1.2.3a, 10.20.30 or 1.2 on 2024-01-01, May 2023")
      version_patterns
  = [["10.20.30"];
     ["10.20"; "1.2"];
     ["v1.2.3a"; "10.20.30"];
     ["2024-01-01"];
     ["May 2023"]].
Proof. vm_compute. reflexivity. Qed.

Example word_boundary_needs_a_non_word_character :
  findall re_word "NameVersionWidget1 ab_cd a2 ok" = ["ok"].
Proof. vm_compute. reflexivity. Qed.

Example str_dict_of_mixed_values :
  str_dict [("Name", VStr "Widget"); ("Notes", VStr "It's stable");
            ("row", VInt (-3))]
  = "{'Name': 'Widget', 'Notes': "
    +++ String dquote ("It's stable" +++ String dquote ", 'row': -3}").
Proof. vm_compute. reflexivity. Qed.

(** ** Strings *)

Lemma append_assoc (a b c : string) : (a +++ b) +++ c = a +++ (b +++ c).
Proof.
  induction a as [|x a IH]; simpl; [reflexivity|].
  now rewrite IH.
Qed.

Lemma append_length (a b : string) :
  length (a +++ b) = length a + length b.
Proof.
  induction a as [|x a IH]; simpl; [reflexivity|].
  now rewrite IH.
Qed.

(** ** Dictionaries *)

Lemma lookup_set_same (d : Dict) (k : string) (v : PyVal) :
  lookup (set d k v) k = Some v.
Proof.
  induction d as [|[k' v'] d IH]; simpl.
  - now rewrite String.eqb_refl.
  - destruct (String.eqb k' k) eqn:E; simpl.
    + now rewrite String.eqb_refl.
    + now rewrite E.
Qed.

Lemma lookup_set_other (d : Dict) (k k' : string) (v : PyVal) :
  k <> k' -> lookup (set d k v) k' = lookup d k'.
Proof.
  intros Hne.
  induction d as [|[k0 v0] d IH]; simpl.
  - destruct (String.eqb_spec k k'); [contradiction | reflexivity].
  - destruct (String.eqb_spec k0 k) as [->|Hk]; simpl.
    + destruct (String.eqb_spec k k'); [contradiction | reflexivity].
    + destruct (String.eqb_spec k0 k'); [reflexivity | exact IH].
Qed.

(** A comprehension with a filter keeps the entry of every key the
    filter accepts. *)
Lemma lookup_filter_keys (keep : string -> bool) (d : Dict) (k : string) :
  keep k = true -> lookup (filter_keys keep d) k = lookup d k.
Proof.
  intros Hk.
  induction d as [|[k0 v0] d IH]; simpl; [reflexivity|].
  destruct (String.eqb_spec k0 k) as [->|Hne].
  - rewrite Hk. simpl. now rewrite String.eqb_refl.
  - destruct (keep k0); simpl; [|exact IH].
    destruct (String.eqb_spec k0 k); [contradiction | exact IH].
Qed.

Lemma lookup_filter_keys_none (keep : string -> bool) (d : Dict)
      (k : string) :
  keep k = false -> lookup (filter_keys keep d) k = None.
Proof.
  intros Hk.
  induction d as [|[k0 v0] d IH]; simpl; [reflexivity|].
  destruct (keep k0) eqn:E; simpl; [|exact IH].
  destruct (String.eqb_spec k0 k) as [->|Hne]; [congruence | exact IH].
Qed.

(** ** The text form of a dict can be read back *)

Lemma parse_body_repr_char (q c : ascii) (t : string) :
  q = squote \/ q = dquote ->
  parse_body q (repr_char q c +++ t) = prepend c (parse_body q t).
Proof.
  intros [-> | ->];
    destruct c as [[|] [|] [|] [|] [|] [|] [|] [|]]; reflexivity.
Qed.

Lemma parse_body_repr_body (q : ascii) (s rest : string) :
  q = squote \/ q = dquote ->
  parse_body q (repr_body q s +++ String q rest) = Some (s, rest).
Proof.
  intros Hq.
  induction s as [|c s IH]; simpl.
  - now rewrite Ascii.eqb_refl.
  - rewrite append_assoc, parse_body_repr_char by exact Hq.
    now rewrite IH.
Qed.

Lemma repr_quote_cases (s : string) :
  repr_quote s = squote \/ repr_quote s = dquote.
Proof.
  unfold repr_quote.
  destruct (has_char squote s && negb (has_char dquote s)); auto.
Qed.

Lemma parse_str_repr_str (s rest : string) :
  parse_str (repr_str s +++ rest) = Some (s, rest).
Proof.
  unfold repr_str. simpl.
  assert (Hq := repr_quote_cases s).
  replace (Ascii.eqb (repr_quote s) squote || Ascii.eqb (repr_quote s) dquote)
    with true by (destruct Hq as [-> | ->]; reflexivity).
  rewrite append_assoc. simpl.
  now apply parse_body_repr_body.
Qed.

Lemma span_digits_uint (d : Decimal.uint) (rest : string) :
  ends_number rest ->
  span_digits (NilEmpty.string_of_uint d +++ rest)
  = (NilEmpty.string_of_uint d, rest).
Proof.
  intros Hrest.
  induction d; simpl; try (rewrite IHd; reflexivity).
  destruct rest as [|c rest]; simpl; [reflexivity|].
  simpl in Hrest. now rewrite Hrest.
Qed.

Lemma uint_string_not_empty (d : Decimal.uint) :
  d <> Decimal.Nil -> is_empty (NilEmpty.string_of_uint d) = false.
Proof. destruct d; simpl; congruence. Qed.

Lemma to_int_digits_nonnil (z : Z) :
  match Z.to_int z with
  | Decimal.Pos d | Decimal.Neg d => d <> Decimal.Nil
  end.
Proof.
  destruct z; simpl; try apply DecimalPos.Unsigned.to_uint_nonnil.
  discriminate.
Qed.

Lemma parse_int_unsigned (d : Decimal.uint) (rest : string) :
  d <> Decimal.Nil -> ends_number rest ->
  parse_int (NilEmpty.string_of_uint d +++ rest)
  = option_map (fun i => (Z.of_int i, rest))
               (NilEmpty.int_of_string (NilEmpty.string_of_uint d)).
Proof.
  intros Hnn Hrest.
  destruct d; [congruence | ..];
    unfold parse_int; simpl;
    rewrite span_digits_uint by exact Hrest; simpl;
    destruct (NilEmpty.uint_of_string (NilEmpty.string_of_uint d));
    reflexivity.
Qed.

Lemma parse_int_str_int (z : Z) (rest : string) :
  ends_number rest ->
  parse_int (str_int z +++ rest) = Some (z, rest).
Proof.
  intros Hrest. unfold str_int.
  assert (Hnn := to_int_digits_nonnil z).
  assert (Hback := DecimalZ.of_to z).
  assert (Hisi := NilEmpty.isi (Z.to_int z)).
  destruct (Z.to_int z) as [d | d].
  - cbn [NilEmpty.string_of_int] in *.
    rewrite parse_int_unsigned by assumption.
    rewrite Hisi. cbn [option_map]. now rewrite Hback.
  - cbn [NilEmpty.string_of_int] in *.
    unfold parse_int.
    change (String "-" (NilEmpty.string_of_uint d) +++ rest)
      with (String "-"%char (NilEmpty.string_of_uint d +++ rest)).
    cbv iota beta.
    rewrite span_digits_uint by exact Hrest.
    rewrite uint_string_not_empty by exact Hnn.
    change ("-" +++ NilEmpty.string_of_uint d)
      with (String "-"%char (NilEmpty.string_of_uint d)).
    rewrite Hisi. now rewrite Hback.
Qed.

Lemma parse_val_repr_str (s rest : string) :
  parse_val (repr_str s +++ rest) = Some (VStr s, rest).
Proof.
  pose proof (parse_str_repr_str s rest) as H.
  unfold repr_str in *. cbn [String.append] in *.
  unfold parse_val.
  destruct (repr_quote_cases s) as [Hq | Hq]; rewrite Hq in *;
    cbn [Ascii.eqb squote dquote ascii_of_nat ascii_of_pos Bool.eqb orb
         Ascii.shift Ascii.one Ascii.zero];
    now rewrite H.
Qed.

Lemma parse_val_str_int (z : Z) (rest : string) :
  ends_number rest ->
  parse_val (str_int z +++ rest) = Some (VInt z, rest).
Proof.
  intros Hrest.
  pose proof (parse_int_str_int z rest Hrest) as H.
  unfold str_int in *.
  assert (Hnn := to_int_digits_nonnil z).
  destruct (Z.to_int z) as [d | d]; cbn [NilEmpty.string_of_int] in *.
  - destruct d; [congruence | ..]; unfold parse_val;
      cbn [NilEmpty.string_of_uint String.append] in *;
      cbv beta iota; now rewrite H.
  - unfold parse_val. cbn [String.append] in *. cbv beta iota.
    now rewrite H.
Qed.

Lemma parse_val_repr (v : PyVal) (rest : string) :
  ends_number rest ->
  parse_val (repr v +++ rest) = Some (v, rest).
Proof.
  intros Hrest. destruct v as [s | z]; cbn [repr].
  - apply parse_val_repr_str.
  - now apply parse_val_str_int.
Qed.

Lemma drop_prefix_append (pre s : string) :
  drop_prefix pre (pre +++ s) = Some s.
Proof.
  induction pre as [|c pre IH]; simpl; [reflexivity|].
  now rewrite Ascii.eqb_refl.
Qed.

(** One turn of [parse_items] over the text of one entry. *)
Lemma parse_items_step (fuel : nat) (kv : string * PyVal) (rest : string) :
  ends_number rest ->
  parse_items (S fuel) (repr_item kv +++ rest)
  = if String.eqb rest "}" then Some [kv]
    else match drop_prefix ", " rest with
         | None => None
         | Some s4 => option_map (cons kv) (parse_items fuel s4)
         end.
Proof.
  intros Hrest. cbn [parse_items]. unfold repr_item.
  rewrite !append_assoc, parse_str_repr_str, drop_prefix_append.
  rewrite parse_val_repr by exact Hrest.
  now destruct kv.
Qed.

Lemma parse_items_join (d : Dict) (fuel : nat) :
  d <> [] -> List.length d <= fuel ->
  parse_items fuel (join ", " (map repr_item d) +++ "}") = Some d.
Proof.
  revert fuel.
  induction d as [|kv d IH]; intros fuel Hne Hfuel; [congruence|].
  destruct fuel as [|fuel]; [simpl in Hfuel; lia|].
  destruct d as [|kv' d].
  - cbn [map join].
    now rewrite parse_items_step by reflexivity.
  - change (join ", " (map repr_item (kv :: kv' :: d)))
      with (repr_item kv +++ ", " +++ join ", " (map repr_item (kv' :: d))).
    rewrite !append_assoc.
    rewrite parse_items_step by reflexivity.
    change (String.eqb
              (", " +++ join ", " (map repr_item (kv' :: d)) +++ "}") "}")
      with false.
    rewrite drop_prefix_append.
    rewrite IH; [reflexivity | discriminate | simpl in *; lia].
Qed.

Lemma item_length (kv : string * PyVal) : 1 <= length (repr_item kv).
Proof. unfold repr_item, repr_str. simpl. lia. Qed.

Lemma join_items_length (d : Dict) :
  List.length d <= length (join ", " (map repr_item d)).
Proof.
  induction d as [|kv d IH]; [simpl; lia|].
  destruct d as [|kv' d].
  - simpl. pose proof (item_length kv). lia.
  - change (join ", " (map repr_item (kv :: kv' :: d)))
      with (repr_item kv +++ ", " +++ join ", " (map repr_item (kv' :: d))).
    rewrite !append_length. pose proof (item_length kv).
    simpl List.length in *. lia.
Qed.

(** Reading back the text of a dict gives the dict. *)
Lemma parse_str_dict (d : Dict) : parse_dict (str_dict d) = Some d.
Proof.
  unfold str_dict. simpl.
  destruct d as [|kv d]; [reflexivity|].
  set (body := join ", " (map repr_item (kv :: d))).
  assert (Hhead : String.eqb (body +++ "}") "}" = false).
  { subst body. destruct d; simpl; unfold repr_item, repr_str; simpl;
      destruct (repr_quote_cases (fst kv)) as [-> | ->]; reflexivity. }
  rewrite Hhead.
  apply parse_items_join; [discriminate|].
  rewrite append_length. pose proof (join_items_length (kv :: d)).
  fold body in H. lia.
Qed.

(** ** The normalizer on table rows *)

Ltac split_key k name :=
  destruct (String.eqb_spec k name) as [-> | ?]; [reflexivity|].

Lemma standardized_base_items (record : Dict) :
  standardized_base record
  = [("record_id", get record "record_id" empty_str);
     ("data_type", get record "data_type" (VStr "unknown"));
     ("source_url", get record "source_url" empty_str);
     ("domain", get record "domain" empty_str);
     ("extraction_timestamp", get record "extraction_timestamp" empty_str)].
Proof. reflexivity. Qed.

(** The filter of [additional_data] lets through exactly the keys that
    are not metadata of the record. *)
Lemma additional_filter_is_cells (record : Dict) (k : string) :
  negb (contains (standardized_base record) k)
  && negb (mem k ["table_context"; "row_index"])
  = negb (mem k record_meta_keys).
Proof.
  rewrite standardized_base_items.
  split_key k "record_id". split_key k "data_type".
  split_key k "source_url". split_key k "domain".
  split_key k "extraction_timestamp". split_key k "table_context".
  split_key k "row_index".
  unfold contains, record_meta_keys, table_meta_keys.
  cbn [lookup app mem existsb].
  repeat match goal with
         | H : k <> ?name |- _ =>
             rewrite (proj2 (String.eqb_neq k name) H);
             rewrite (proj2 (String.eqb_neq name k) (not_eq_sym H));
             clear H
         end.
  reflexivity.
Qed.

Lemma additional_fields_are_cells (record : Dict) :
  additional_fields (standardized_base record) record = cell_fields record.
Proof.
  unfold additional_fields, cell_fields, filter_keys.
  apply filter_ext. intros [k v]. apply additional_filter_is_cells.
Qed.

Lemma table_row_data_type (record : Dict) :
  is_table_row record ->
  get record "data_type" (VStr "unknown") = VStr "table_data".
Proof.
  unfold is_table_row, get.
  destruct (lookup record "data_type"); [auto | discriminate].
Qed.

(** The unified row of a table record, column by column. *)
Lemma organize_table_row (record : Dict) :
  is_table_row record ->
  organize_record record
  = Ok [("record_id", get record "record_id" empty_str);
        ("data_type", VStr "table_data");
        ("source_url", get record "source_url" empty_str);
        ("domain", get record "domain" empty_str);
        ("extraction_timestamp",
         get record "extraction_timestamp" empty_str);
        ("table_context", get record "table_context" empty_str);
        ("row_index", get record "row_index" empty_str);
        ("column_1", positional record "column_1");
        ("column_2", positional record "column_2");
        ("column_3", positional record "column_3");
        ("column_4", positional record "column_4");
        ("additional_data", VStr (str_dict (cell_fields record)))].
Proof.
  intros Htable. unfold organize_record.
  rewrite Htable. cbn [val_eqb]. rewrite String.eqb_refl.
  rewrite additional_fields_are_cells.
  unfold standardized_base. rewrite (table_row_data_type _ Htable).
  reflexivity.
Qed.

Lemma lookup_cell_fields (record : Dict) (k : string) (v : PyVal) :
  cell_field record k v -> lookup (cell_fields record) k = Some v.
Proof.
  intros [Hk Hmeta]. unfold cell_fields.
  rewrite lookup_filter_keys; [exact Hk|]. now rewrite Hmeta.
Qed.

(** Every field of a table_row record under a key that is not the
    name of a metadata field is recoverable from the additional_data
    column of its unified row: the column holds the text of a dict
    that reads back as exactly those fields.  This holds for a row of
    any width, whether or not one of column_1 to column_4 shows the
    field. *)
Lemma wide_table_cells_recoverable (record : Dict) (k : string)
        (v : PyVal) :
  is_table_row record ->
  cell_field record k v ->
  exists row blob,
    organize_record record = Ok row
    /\ lookup row "additional_data" = Some (VStr blob)
    /\ parse_dict blob = Some (cell_fields record)
    /\ lookup (cell_fields record) k = Some v.
Proof.
  intros Htable Hcell.
  eexists _, _. split; [apply organize_table_row; exact Htable|].
  split; [reflexivity|].
  split; [apply parse_str_dict | now apply lookup_cell_fields].
Qed.

Lemma positional_absent (record : Dict) (name : string) :
  lookup record name = None -> positional record name = empty_str.
Proof.
  intros Hnone. unfold positional, get. rewrite Hnone.
  cbn [get_val]. unfold get. now rewrite Hnone.
Qed.

(** When no key of a table_row record is literally column_1,
    column_2, column_3 or column_4, the four positional columns of its
    unified row are the empty string; the remaining columns other than
    additional_data are the fields of the record under the names of
    the metadata, and additional_data reads back as exactly the fields
    under the other keys. *)
Lemma header_keyed_row_leaves_positional_columns_empty (record : Dict) :
  is_table_row record ->
  (forall name, In name positional_columns -> lookup record name = None) ->
  organize_record record
  = Ok [("record_id", get record "record_id" empty_str);
        ("data_type", VStr "table_data");
        ("source_url", get record "source_url" empty_str);
        ("domain", get record "domain" empty_str);
        ("extraction_timestamp",
         get record "extraction_timestamp" empty_str);
        ("table_context", get record "table_context" empty_str);
        ("row_index", get record "row_index" empty_str);
        ("column_1", VStr ""); ("column_2", VStr "");
        ("column_3", VStr ""); ("column_4", VStr "");
        ("additional_data", VStr (str_dict (cell_fields record)))]
  /\ parse_dict (str_dict (cell_fields record)) = Some (cell_fields record)
  /\ forall k v, cell_field record k v ->
                 lookup (cell_fields record) k = Some v.
Proof.
  intros Htable Habsent.
  split; [|split].
  - rewrite (organize_table_row _ Htable).
    rewrite !positional_absent
      by (apply Habsent; unfold positional_columns; simpl; auto).
    reflexivity.
  - apply parse_str_dict.
  - intros k v. apply lookup_cell_fields.
Qed.

(** ** The exporter *)

Lemma sorted_all_columns : sorted all_columns = unified_columns.
Proof. vm_compute. reflexivity. Qed.

Lemma full_record_is_exported_row (std : Dict) :
  full_record std = exported_row std.
Proof. unfold full_record. rewrite sorted_all_columns. reflexivity. Qed.

Lemma organize_data_length (records organized : list Dict) :
  _organize_data records = Ok organized ->
  List.length organized = List.length records.
Proof.
  revert organized.
  induction records as [|r records IH]; intros organized; simpl.
  - now intros [= <-].
  - destruct (organize_record r); [|discriminate].
    destruct (_organize_data records) as [rest|]; [|discriminate].
    intros [= <-]. simpl. now rewrite (IH rest).
Qed.

Lemma exporter_data_length (records : list Dict) (exporter : Exporter) :
  FormattedCSVExporter.__init__ records = Ok exporter ->
  List.length (data exporter) = List.length records.
Proof.
  unfold FormattedCSVExporter.__init__.
  destruct (_organize_data records) as [organized|] eqn:E; [|discriminate].
  intros [= <-]. simpl. now apply organize_data_length.
Qed.

Lemma unified_columns_sorted :
  StronglySorted (fun a b => String.ltb a b = true) unified_columns.
Proof.
  unfold unified_columns.
  repeat apply SSorted_cons; try apply SSorted_nil;
    repeat (apply Forall_cons; [reflexivity|]); apply Forall_nil.
Qed.

Lemma mem_In (k : string) (l : list string) :
  mem k l = true <-> In k l.
Proof.
  unfold mem. rewrite existsb_exists. split.
  - intros (x & Hx & Heq). apply String.eqb_eq in Heq. now subst.
  - intros Hin. exists k. split; [exact Hin | apply String.eqb_refl].
Qed.

Lemma incl_by_mem (a b : list string) :
  forallb (fun x => mem x b) a = true -> incl a b.
Proof.
  rewrite forallb_forall. intros Hall x Hx.
  apply mem_In. now apply Hall.
Qed.

Lemma unified_columns_union (col : string) :
  In col unified_columns
  <-> In col base_columns
      \/ exists t cols, In (t, cols) type_specific_columns /\ In col cols.
Proof.
  set (every := base_columns ++ List.concat (map snd type_specific_columns)).
  assert (Hevery : In col every
                   <-> In col base_columns
                       \/ exists t cols,
                            In (t, cols) type_specific_columns
                            /\ In col cols).
  { unfold every. rewrite in_app_iff, in_concat. split.
    - intros [Hb | (cols & Hcols & Hc)]; [now left | right].
      apply in_map_iff in Hcols. destruct Hcols as ([t cols'] & <- & Ht).
      now exists t, cols'.
    - intros [Hb | (t & cols & Ht & Hc)]; [now left | right].
      exists cols. split; [|exact Hc].
      apply in_map_iff. now exists (t, cols). }
  rewrite <- Hevery. split.
  - apply (incl_by_mem unified_columns every). reflexivity.
  - apply (incl_by_mem every unified_columns). reflexivity.
Qed.

(** What a successful export does to the world. *)
Lemma export_formatted_csv_writes `{Externals} (self : Exporter)
      (filename : string) (w : World) :
  data self <> [] ->
  can_open (with_csv_suffix filename) = true ->
  export_formatted_csv self filename w
  = (Ok tt,
     {| log := ((log w
                 ++ [(INFO, Formatted_CSV_exported
                              (with_csv_suffix filename))])
                ++ [(INFO, Total_records (List.length (data self)))])
               ++ [(INFO, Columns (List.length all_columns))];
        files := (with_csv_suffix filename,
                  {| fieldnames := sorted all_columns;
                     rows := map full_record (data self) |}) :: files w;
        ticks := ticks w |}).
Proof.
  intros Hne Hopen. unfold export_formatted_csv.
  destruct (data self) as [|std organized]; [congruence|].
  cbn [is_nil].
  unfold try_except, bind, open_w. rewrite Hopen.
  reflexivity.
Qed.

(** C6. Whatever records the exporter was given, the file it writes
    has one fixed header: the union of the base columns and the columns
    of every record type, in lexicographic order; and every row of the
    file has an entry for each of these columns, the empty string where
    the unified row has no such field. *)
Theorem export_schema_is_fixed `{Externals} (records : list Dict)
        (exporter : Exporter) (filename : string) (w : World) :
  FormattedCSVExporter.__init__ records = Ok exporter ->
  records <> [] ->
  can_open (with_csv_suffix filename) = true ->
  exists w' file,
    export_formatted_csv exporter filename w = (Ok tt, w')
    /\ files w' = (with_csv_suffix filename, file) :: files w
    /\ fieldnames file = unified_columns
    /\ rows file = map exported_row (data exporter)
    /\ List.length (rows file) = List.length records
    /\ StronglySorted (fun a b => String.ltb a b = true) unified_columns
    /\ forall col,
         In col unified_columns
         <-> In col base_columns
             \/ exists t cols,
                  In (t, cols) type_specific_columns /\ In col cols.
Proof.
  intros Hinit Hne Hopen.
  pose proof (exporter_data_length _ _ Hinit) as Hlen.
  assert (Hdata : data exporter <> []).
  { intros Hnil. rewrite Hnil in Hlen. destruct records; [congruence|].
    discriminate Hlen. }
  rewrite (export_formatted_csv_writes _ _ _ Hdata Hopen).
  eexists _, _. split; [reflexivity|].
  cbn [files fieldnames rows].
  split; [reflexivity|].
  split; [apply sorted_all_columns|].
  split; [apply map_ext; apply full_record_is_exported_row|].
  split; [cbn [rows]; now rewrite length_map|].
  split; [exact unified_columns_sorted | exact unified_columns_union].
Qed.

(** C8. An exporter built from an empty record sequence writes no
    file: the call returns normally, the files are as before, and the
    log gains the warning that there is no data to export. *)
Theorem export_of_no_records_writes_nothing `{Externals}
        (filename : string) (w : World) :
  exists exporter,
    FormattedCSVExporter.__init__ [] = Ok exporter
    /\ export_formatted_csv exporter filename w
       = (Ok tt,
          {| log := log w ++ [(WARNING, No_data_to_export)];
             files := files w;
             ticks := ticks w |}).
Proof.
  eexists. split; reflexivity.
Qed.

(** ** Computations that always return *)

Lemma returns_ret {S A : Type} (a : A) : returns (S:=S) (ret a).
Proof. intros s. now exists a, s. Qed.

Lemma returns_bind {S A B : Type} (c : M S A) (f : A -> M S B) :
  returns c -> (forall a, returns (f a)) -> returns (bind c f).
Proof.
  intros Hc Hf s. unfold bind.
  destruct (Hc s) as (a & s' & ->). apply Hf.
Qed.

Lemma returns_modify {S : Type} (f : S -> S) : returns (modify f).
Proof. intros s. now exists tt, (f s). Qed.

Lemma returns_gets {S A : Type} (f : S -> A) : returns (gets f).
Proof. intros s. now exists (f s), s. Qed.

Lemma returns_log {S : Type} `{Logging S} (lvl : LogLevel) (m : LogMsg) :
  returns (log_at (S:=S) lvl m).
Proof. apply returns_modify. Qed.

(** A [try] whose handler returns lets no exception out. *)
Lemma returns_try_except {S A : Type} (c : M S A) (h : PyExn -> M S A) :
  (forall e, returns (h e)) -> returns (try_except c h).
Proof.
  intros Hh s. unfold try_except.
  destruct (c s) as [[a | e] s']; [now exists a, s' | apply Hh].
Qed.

Lemma returns_for_each {S A : Type} (l : list A) (body : A -> M S unit) :
  (forall x, returns (body x)) -> returns (for_each l body).
Proof.
  intros Hbody. induction l as [|x l IH]; simpl.
  - apply returns_ret.
  - apply returns_bind; [apply Hbody | intros _; exact IH].
Qed.

Lemma returns_with_frame {L S A : Type} (init : L) (c : M (L * S) A) :
  returns c -> returns (with_frame init c).
Proof.
  intros Hc s. unfold with_frame.
  destruct (Hc (init, s)) as (a & [l s'] & ->). now exists l, s'.
Qed.

Lemma returns_if {S A : Type} (b : bool) (c1 c2 : M S A) :
  returns c1 -> returns c2 -> returns (if b then c1 else c2).
Proof. now destruct b. Qed.

Ltac prove_returns :=
  repeat first
    [ assumption
    | apply returns_ret
    | apply returns_modify
    | apply returns_gets
    | apply returns_log
    | apply returns_with_frame
    | apply returns_for_each; intros ?
    | apply returns_try_except; intros ?
    | apply returns_bind; [|intros ?]
    | apply returns_if ].

Lemma tables_returns (self : Parser) :
  returns (_extract_structured_tables self).
Proof.
  unfold _extract_structured_tables, tables_loop, table_step.
  prove_returns.
Qed.

Lemma lists_returns (self : Parser) :
  returns (_extract_structured_lists self).
Proof. unfold _extract_structured_lists. prove_returns. Qed.

Lemma sections_returns `{Externals} (self : Parser) :
  returns (_extract_content_sections self).
Proof. unfold _extract_content_sections. prove_returns. Qed.

Lemma versions_returns (self : Parser) :
  returns (_extract_version_information self).
Proof. unfold _extract_version_information. prove_returns. Qed.

Lemma read_clock_returns : returns read_clock.
Proof. intros s. unfold read_clock. eauto. Qed.

(** No exception leaves the extraction pass. *)
Lemma parse_structured_data_returns `{Externals} (self : Parser) :
  returns (parse_structured_data self).
Proof.
  unfold parse_structured_data. cbn [extract_tables extract_lists
    extract_sections SCRAPING_CONFIG].
  pose proof (tables_returns self). pose proof (lists_returns self).
  pose proof (sections_returns self). pose proof (versions_returns self).
  pose proof read_clock_returns.
  prove_returns.
Qed.

(** ** A table that raises is skipped *)

Lemma process_row_bound (self : Parser) (ctx : string)
      (headers : list string) (ir : nat * Node) (frame : TablesFrame)
      (st : ParserState) (v : option Node) :
  first_row frame = Bound v ->
  exists frame',
    process_row self ctx headers ir (frame, st) = (Ok tt, (frame', st))
    /\ first_row frame' = Bound v.
Proof.
  intros Hbound. destruct ir as [row_idx r].
  unfold process_row, bind, read_first_row. cbn [fst snd].
  rewrite Hbound.
  destruct (tag_eq r v); [now exists frame|].
  destruct (is_nil (find_all cell_tags r)); [now exists frame|].
  match goal with
  | |- context [if ?b then _ else _] => destruct b
  end; [|now exists frame].
  unfold append_table_data, modify. cbn [fst snd].
  eexists. split; [reflexivity | exact Hbound].
Qed.

Lemma rows_bound (self : Parser) (ctx : string) (headers : list string)
      (rows : list (nat * Node)) (frame : TablesFrame) (st : ParserState)
      (v : option Node) :
  first_row frame = Bound v ->
  exists frame',
    for_each rows (process_row self ctx headers) (frame, st)
    = (Ok tt, (frame', st))
    /\ first_row frame' = Bound v.
Proof.
  revert frame.
  induction rows as [|ir rows IH]; intros frame Hbound; simpl.
  - now exists frame.
  - unfold bind.
    destruct (process_row_bound self ctx headers ir frame st v Hbound)
      as (frame1 & -> & Hbound1).
    apply IH. exact Hbound1.
Qed.

Lemma rows_unbound (self : Parser) (ctx : string) (headers : list string)
      (ir : nat * Node) (rows : list (nat * Node)) (frame : TablesFrame)
      (st : ParserState) :
  first_row frame = Unbound ->
  for_each (ir :: rows) (process_row self ctx headers) (frame, st)
  = (Raise (UnboundLocalError "first_row"), (frame, st)).
Proof.
  intros Hunbound. destruct ir as [row_idx r]. simpl.
  unfold bind, process_row, read_first_row. cbn [fst snd].
  unfold bind. now rewrite Hunbound.
Qed.




(** One raising table ahead of two well-formed ones: the pass yields
    the records of the two and one warning. *)
Lemma raising_table_among_well_formed_ones :
  _extract_structured_tables
    (parser_of [thead_table; plain_table; gadget_table]) fresh_state
  = (Ok [[("data_type", VStr "table_data");
          ("source_url", VStr page_url);
          ("table_context", VStr "Table_2");
          ("row_index", VInt 1);
          ("domain", VStr "example.org");
          ("Name", VStr "Widget");
          ("Notes", VStr "Stable release")];
         [("data_type", VStr "table_data");
          ("source_url", VStr page_url);
          ("table_context", VStr "Table_3");
          ("row_index", VInt 1);
          ("domain", VStr "example.org");
          ("Product", VStr "Gadget");
          ("Status", VStr "Beta release")]],
     {| extraction_stats := {| tables := 2; lists := 0; definitions := 0;
                               sections := 0; versions := 0 |};
        StructuredDataParser.world :=
          {| log := [(WARNING,
                      Error_parsing_table 0
                        (UnboundLocalError "first_row"));
                     (INFO, Extracted_table_records 2)];
             files := [];
             ticks := 0 |} |}).
Proof. vm_compute. reflexivity. Qed.

(** ** The matcher and cleaned text *)

Lemma suffix_trans (a b c : string) :
  suffix a b -> suffix b c -> suffix a c.
Proof.
  intros Hab Hbc. induction Hbc; [exact Hab|].
  apply suffix_later. now apply IHHbc.
Qed.

(** A match hands the rest of the text to the continuation: what the
    matcher answers is what the continuation answers on some suffix. *)
Lemma run_some {R : Type} (r : regex) :
  forall prev s (k : option ascii -> string -> option R) x,
    run r prev s k = Some x ->
    exists p' s', suffix s' s /\ k p' s' = Some x.
Proof.
  induction r as [|p|r1 IH1 r2 IH2|r1 IH1 r2 IH2|r1 IH1|];
    intros prev s k x Hrun; cbn [run] in Hrun.
  - exists prev, s. split; [constructor | exact Hrun].
  - destruct s as [|c s]; [discriminate|].
    destruct (p c); [|discriminate].
    exists (Some c), s. split; [repeat constructor | exact Hrun].
  - apply IH1 in Hrun. destruct Hrun as (p1 & s1 & Hs1 & Hrun).
    apply IH2 in Hrun. destruct Hrun as (p2 & s2 & Hs2 & Hk).
    exists p2, s2. split; [eapply suffix_trans; eassumption | exact Hk].
  - destruct (run r1 prev s k) as [y|] eqn:E1.
    + injection Hrun as ->. now apply IH1 in E1.
    + now apply IH2 in Hrun.
  - revert Hrun. generalize (length s) as fuel. intros fuel.
    revert prev s. induction fuel as [|fuel IHf]; intros prev s Hrun;
      cbn [star_loop] in Hrun.
    + exists prev, s. split; [constructor | exact Hrun].
    + match type of Hrun with
      | match ?c with _ => _ end = _ => destruct c as [y|] eqn:E1
      end.
      * injection Hrun as ->. apply IH1 in E1.
        destruct E1 as (p1 & s1 & Hs1 & Hk).
        destruct (length s1 <? length s); [|discriminate].
        apply IHf in Hk. destruct Hk as (p2 & s2 & Hs2 & Hk).
        exists p2, s2. split; [eapply suffix_trans; eassumption | exact Hk].
      * exists prev, s. split; [constructor | exact Hrun].
  - destruct (at_boundary prev s); [|discriminate].
    exists prev, s. split; [constructor | exact Hrun].
Qed.

Lemma run_none {R : Type} (r : regex) (prev : option ascii) (s : string)
      (k : Cont R) :
  (forall p' s', suffix s' s -> k p' s' = None) -> run r prev s k = None.
Proof.
  intros Hk. destruct (run r prev s k) as [x|] eqn:E; [|reflexivity].
  apply run_some in E. destruct E as (p' & s' & Hsuf & Hx).
  rewrite Hk in Hx by exact Hsuf. discriminate.
Qed.

(** The matcher depends on its continuation through the answers on
    suffixes of the text only. *)
Lemma run_ext {R : Type} (r : regex) :
  forall prev s (k1 k2 : Cont R),
    (forall p' s', suffix s' s -> k1 p' s' = k2 p' s') ->
    run r prev s k1 = run r prev s k2.
Proof.
  induction r as [|p|r1 IH1 r2 IH2|r1 IH1 r2 IH2|r1 IH1|];
    intros prev s k1 k2 Hk; cbn [run].
  - apply Hk. constructor.
  - destruct s as [|c s]; [reflexivity|].
    destruct (p c); [|reflexivity]. apply Hk. repeat constructor.
  - apply IH1. intros p' s' Hs'. apply IH2.
    intros p'' s'' Hs''. apply Hk. eapply suffix_trans; eassumption.
  - rewrite (IH1 prev s k1 k2 Hk), (IH2 prev s k1 k2 Hk). reflexivity.
  - generalize (length s) as fuel. intros fuel. revert prev s Hk.
    induction fuel as [|fuel IHf]; intros prev s Hk; cbn [star_loop].
    + apply Hk. constructor.
    + rewrite (Hk prev s) by constructor.
      erewrite IH1; [reflexivity|].
      intros p' s' Hs'. cbv beta.
      destruct (length s' <? length s); [|reflexivity].
      apply IHf. intros p'' s'' Hs''. apply Hk.
      eapply suffix_trans; eassumption.
  - destruct (at_boundary prev s); [|reflexivity]. apply Hk. constructor.
Qed.

Lemma suffix_length (a b : string) : suffix a b -> length a <= length b.
Proof. induction 1; simpl; lia. Qed.

(** The length of the text is enough fuel for a repetition: more fuel
    gives the same answer. *)
Lemma star_fuel_suffices {R : Type} (r : regex) (k : Cont R) (fuel : nat) :
  forall other prev s,
    length s <= fuel -> length s <= other ->
    star_loop (run r) k fuel prev s = star_loop (run r) k other prev s.
Proof.
  assert (Hempty : forall n prev,
             star_loop (run r) k n prev EmptyString = k prev EmptyString).
  { intros [|n] prev; cbn [star_loop]; [reflexivity|].
    rewrite run_none; [reflexivity|]. intros p' s' _. reflexivity. }
  induction fuel as [|fuel IH]; intros other prev s Hfuel Hother.
  - destruct s; [|simpl in Hfuel; lia]. now rewrite !Hempty.
  - destruct other as [|other].
    + destruct s; [|simpl in Hother; lia]. now rewrite !Hempty.
    + cbn [star_loop].
      erewrite run_ext; [reflexivity|].
      intros p' s' Hs'. cbv beta.
      destruct (Nat.ltb_spec (length s') (length s)); [|reflexivity].
      apply IH; lia.
Qed.

Lemma no_dot_digit_suffix (a b : string) :
  suffix a b -> no_dot_digit b -> no_dot_digit a.
Proof. induction 1; [auto|]. intros [_ Hb]. auto. Qed.

Lemma dots_spaced_suffix (a b : string) :
  suffix a b -> dots_spaced b -> dots_spaced a.
Proof. induction 1; [auto|]. intros [_ Hb]. auto. Qed.

Lemma dot_then_digit_fails {R : Type} (rest : regex) (prev : option ascii)
      (s : string) (k : option ascii -> string -> option R) :
  no_dot_digit s ->
  run (Cat (Chr ".") (Cat digits1 rest)) prev s k = None.
Proof.
  intros Hs. cbn [run Chr digits1 Plus].
  destruct s as [|c s]; [reflexivity|].
  destruct (Ascii.eqb_spec "." c) as [<- | Hc]; [|reflexivity].
  destruct s as [|d s]; [reflexivity|].
  destruct Hs as [Hd _]. now rewrite (Hd eq_refl).
Qed.

Lemma dotted_cats_fail {R : Type} (before after : list regex)
      (prev : option ascii) (s : string)
      (k : option ascii -> string -> option R) :
  no_dot_digit s ->
  run (Cats (before ++ Chr "." :: digits1 :: after)) prev s k = None.
Proof.
  revert prev s k.
  induction before as [|r before IH]; intros prev s k Hs.
  - apply dot_then_digit_fails. exact Hs.
  - cbn [app Cats run].
    destruct (run r prev s _) as [x|] eqn:E; [|reflexivity].
    apply run_some in E. destruct E as (p' & s' & Hsuf & Hk).
    rewrite IH in Hk by (eapply no_dot_digit_suffix; eassumption).
    discriminate.
Qed.

Lemma dotted_pattern_fails (p : regex) (prev : option ascii) (s : string) :
  In p dotted_patterns -> no_dot_digit s -> match_len p prev s = None.
Proof.
  intros Hin Hs. unfold match_len.
  destruct Hin as [<- | [<- | [<- | []]]].
  - apply (dotted_cats_fail [WordB; digits1]
             [Chr "."; digits1; WordB]). exact Hs.
  - apply (dotted_cats_fail [WordB; digits1] [WordB]). exact Hs.
  - apply (dotted_cats_fail [WordB; Opt (Chr "v"); digits1]
             [Chr "."; digits1; Opt (Cls is_ascii_alpha); WordB]).
    exact Hs.
Qed.

Lemma findall_dotted_pattern (p : regex) (s : string) :
  In p dotted_patterns -> no_dot_digit s ->
  forall prev skip, findall_from p prev skip s = [].
Proof.
  intros Hin. induction s as [|c s IH]; intros Hs prev skip;
    [reflexivity|].
  cbn [findall_from]. destruct skip as [|n].
  - rewrite (dotted_pattern_fails p prev _ Hin Hs). apply IH, Hs.
  - apply IH, Hs.
Qed.

Lemma star_answers {R : Type} (r : regex) (prev : option ascii) (s : string)
      (k : option ascii -> string -> option R) :
  k prev s <> None -> run (Star r) prev s k <> None.
Proof.
  intros Hk. cbn [run].
  destruct (length s) as [|fuel]; cbn [star_loop]; [exact Hk|].
  match goal with
  | |- match ?c with _ => _ end <> _ => destruct c
  end; [discriminate | exact Hk].
Qed.

Lemma period_matches_at_dot (prev : option ascii) (s : string) :
  exists n, match_len re_period prev (String "." s) = Some (S n).
Proof.
  unfold match_len, re_period. cbn [Cats].
  set (k0 := fun (_ : option ascii) (s' : string) =>
               Some (length (String "." s) - length s')).
  assert (Hfirst :
    run (Cat (Star (Cls is_space))
             (Cat (Chr ".") (Cat (Star (Cls is_space)) Eps)))
        prev (String "." s) k0
    = run (Star (Cls is_space)) (Some "."%char) s
          (fun p s' => run Eps p s' k0)).
  { reflexivity. }
  rewrite Hfirst.
  destruct (run (Star (Cls is_space)) (Some "."%char) s
                (fun p s' => run Eps p s' k0)) as [v|] eqn:E.
  - apply run_some in E. destruct E as (p' & s' & Hsuf & Hk).
    cbn [run] in Hk. unfold k0 in Hk. injection Hk as <-.
    apply suffix_length in Hsuf.
    exists (length s - length s'). f_equal.
    destruct (length s'); lia.
  - exfalso. revert E. apply star_answers. discriminate.
Qed.

Lemma sub_period_dots_spaced (s : string) :
  forall prev skip, dots_spaced (sub_from re_period ". " prev skip s).
Proof.
  induction s as [|c s IH]; intros prev skip; [exact I|].
  cbn [sub_from]. destruct skip as [|n]; [|apply IH].
  destruct (match_len re_period prev (String c s)) as [[|n]|] eqn:E.
  - split; [|apply IH]. intros ->.
    destruct (period_matches_at_dot prev s) as (n & Hn). congruence.
  - cbn. split; [intros _; eexists; reflexivity|].
    split; [discriminate | apply IH].
  - split; [|apply IH]. intros ->.
    destruct (period_matches_at_dot prev s) as (n & Hn). congruence.
Qed.

Lemma lstrip_suffix (s : string) : suffix (lstrip s) s.
Proof.
  induction s as [|c s IH]; simpl; [constructor|].
  destruct (is_space c); [now constructor | constructor].
Qed.

Lemma rstrip_no_dot_digit (s : string) :
  dots_spaced s -> no_dot_digit (rstrip s).
Proof.
  induction s as [|c s IH]; [auto|].
  intros [Hc Hs]. cbn [rstrip].
  destruct (is_empty (rstrip s) && is_space c); [exact I|].
  split; [|auto].
  intros ->. destruct (Hc eq_refl) as (t & ->).
  cbn [rstrip]. destruct (is_empty (rstrip t) && is_space " "); auto.
Qed.

Lemma clean_text_no_dot_digit (text : string) :
  no_dot_digit (_clean_text text).
Proof.
  unfold _clean_text. destruct (is_empty text); [exact I|].
  unfold strip. apply rstrip_no_dot_digit.
  eapply dots_spaced_suffix; [apply lstrip_suffix|].
  apply sub_period_dots_spaced.
Qed.

(** On cleaned text the three dotted version patterns find nothing:
    cleaning puts a space after every period, so no period is left
    between two digits. *)
Theorem dotted_patterns_never_match (text : string) :
  map (fun p => findall p (_clean_text text)) dotted_patterns
  = [[]; []; []].
Proof.
  assert (Hnone : forall p, In p dotted_patterns ->
                            findall p (_clean_text text) = []).
  { intros p Hin. apply findall_dotted_pattern; [exact Hin|].
    apply clean_text_no_dot_digit. }
  unfold dotted_patterns in *. cbn [firstn version_patterns map] in *.
  rewrite !Hnone by (simpl; auto). reflexivity.
Qed.

(** ** The worked example of the specification *)

(** Evaluation that leaves the hash of the address alone. *)
Ltac evaluate := lazy -[fmt_04d Z.modulo].
Tactic Notation "evaluate" "in" hyp(H) := lazy -[fmt_04d Z.modulo] in H.

(** C1, as stated, fails: on the table with header Name, Version and
    the row Widget, 1.2.3 the pass does not produce a table row with
    both cells together with a version reference for 1.2.3. *)
Lemma widget_example_as_stated_fails :
  ~ @widget_claim sample_externals [widget_table true false] page_url
      fresh_state.
Proof.
  intros (records & table_row & reference & Hrun & Hrow & Hcells & _).
  evaluate in Hrun. injection Hrun as <-.
  evaluate in Hrow. injection Hrow as <-.
  evaluate in Hcells. discriminate Hcells.
Qed.

(** C1, amended. The table with header Name, Version and the single
    data row Widget, 1.2.3 yields exactly one table_row record, and its
    cells are Name: Widget alone: the text of the cell 1.2.3 has no
    alphabetic token, fails the content-validity test and is left
    out. *)
Theorem widget_table_yields_the_name_cell `{Externals}
        (header_th spaced : bool) (url : string) (st : ParserState) :
  exists records table_row,
    extraction [widget_table header_th spaced] url st = Ok records
    /\ records_of_type "table_data" records = [table_row]
    /\ cell_fields table_row = [("Name", VStr "Widget")].
Proof.
  destruct header_th, spaced;
    (eexists _, _; split; [evaluate; reflexivity|];
     split; evaluate; reflexivity).
Qed.

(** The same document yields no version reference at all: cleaning
    turns 1.2.3 into digits separated by a period and a space, which no
    pattern matches. *)
Lemma widget_table_yields_no_version_reference `{Externals}
      (header_th spaced : bool) (url : string) (st : ParserState) :
  exists records,
    extraction [widget_table header_th spaced] url st = Ok records
    /\ records_of_type "version_info" records = [].
Proof.
  destruct header_th, spaced;
    (eexists; split; [evaluate; reflexivity|]; evaluate; reflexivity).
Qed.

(** ** Tables with an explicit header *)

(** C2, on the code. A table whose header is an explicit [thead] is
    the first table of its document: reading the row to skip raises,
    the table is dropped with a warning and yields no record, whereas
    the same rows without the [thead] and [tbody] tags yield the record
    keyed by the header names. *)
Theorem thead_table_yields_no_record (url dom : string)
        (st : ParserState) :
  (exists st',
     _extract_structured_tables
       {| soup := document [thead_table]; url := url; domain := dom |} st
     = (Ok [], st')
     /\ log (world st')
        = (log (world st)
           ++ [(WARNING,
                Error_parsing_table 0 (UnboundLocalError "first_row"))])
          ++ [(INFO, Extracted_table_records 0)])
  /\ (exists table_row st',
        _extract_structured_tables
          {| soup := document [plain_table]; url := url; domain := dom |} st
        = (Ok [table_row], st')
        /\ cell_fields table_row
           = [("Name", VStr "Widget"); ("Notes", VStr "Stable release")]).
Proof.
  split.
  - eexists. split; [evaluate; reflexivity | reflexivity].
  - eexists _, _. split; [evaluate; reflexivity | evaluate; reflexivity].
Qed.

(** Whatever the table, an explicit header with at least one cell and
    at least one data row make the table raise while [first_row] is
    unbound. *)
Lemma explicit_header_raises (self : Parser) (table_idx : nat)
      (table header_row : Node) (frame : TablesFrame) (st : ParserState) :
  find ["thead"] table = Some header_row ->
  header_texts header_row <> [] ->
  find_all ["tr"]
    match find ["tbody"] table with Some tbody => tbody | None => table end
  <> [] ->
  first_row frame = Unbound ->
  process_table self (table_idx, table) (frame, st)
  = (Raise (UnboundLocalError "first_row"), (frame, st)).
Proof.
  intros Hthead Hcells Hrows Hunbound.
  unfold process_table. rewrite Hthead.
  destruct (header_texts header_row) as [|h headers]; [congruence|].
  cbn [is_nil]. unfold bind at 1. unfold ret.
  destruct (find_all ["tr"]
              match find ["tbody"] table with
              | Some tbody => tbody
              | None => table
              end) as [|r rows]; [congruence|].
  unfold enumerate. cbn [List.length seq combine].
  now apply rows_unbound.
Qed.

(** ** Version references per element *)

(** C3, on the code. One paragraph with two dates and two month-year
    phrases yields four version references: the limit of three is
    applied to the matches of each pattern, not to the element. *)
Theorem dated_paragraph_yields_four_references (url dom : string)
        (st : ParserState) :
  exists references st',
    _extract_version_information
      {| soup := document [dated_paragraph]; url := url; domain := dom |} st
    = (Ok references, st')
    /\ map (fun r => lookup r "version_number") references
       = [Some (VStr "2024-01-01"); Some (VStr "2024-02-02");
          Some (VStr "March 2024"); Some (VStr "April 2024")]
    /\ map (fun r => lookup r "context") references
       = repeat (Some (VStr "Paragraph_1")) 4
    /\ 3 < List.length references.
Proof.
  eexists _, _. split; [evaluate; reflexivity|].
  split; [evaluate; reflexivity|].
  split; [evaluate; reflexivity|].
  evaluate. lia.
Qed.

(** ** The identity tag *)

(** Every record leaves the final loop with the same id. *)
Lemma stamp_gives_one_id `{Externals} (self : Parser) (timestamp : string)
      (all_data : list Dict) (record : Dict) :
  In record (stamp self timestamp all_data) ->
  lookup record "record_id" = Some (VStr (record_id_of self all_data)).
Proof.
  unfold stamp. rewrite in_map_iff. intros (r & <- & _).
  apply lookup_set_same.
Qed.

(** C5, on the code. The two records of a list with two items carry
    the same id: its second part is the number of records of the run,
    not the position of the record. *)
Theorem records_of_a_run_share_one_id `{Externals} (url : string)
        (st : ParserState) :
  exists first second,
    extraction [two_item_list] url st = Ok [first; second]
    /\ lookup first "content" = Some (VStr "Alpha release")
    /\ lookup second "content" = Some (VStr "Beta release")
    /\ lookup first "record_id"
       = Some (VStr (fmt_04d (py_hash url mod 10000) +++ "_2"))
    /\ lookup second "record_id"
       = Some (VStr (fmt_04d (py_hash url mod 10000) +++ "_2")).
Proof.
  eexists _, _. split; [evaluate; reflexivity|].
  repeat split; evaluate; reflexivity.
Qed.

(** Every run stamps its records in the final loop. *)
Lemma bind_returned {S A B : Type} (c : M S A) (f : A -> M S B) (s s' : S)
      (b : B) :
  bind c f s = (Ok b, s') ->
  exists a s1, c s = (Ok a, s1) /\ f a s1 = (Ok b, s').
Proof.
  unfold bind. destruct (c s) as [[a | e] s1]; [|discriminate].
  intros Hf. now exists a, s1.
Qed.

Lemma run_records_are_stamped `{Externals} (self : Parser)
      (st st' : ParserState) (records : list Dict) :
  parse_structured_data self st = (Ok records, st') ->
  exists timestamp all_data, records = stamp self timestamp all_data.
Proof.
  unfold parse_structured_data. intros Hrun.
  repeat (apply bind_returned in Hrun; destruct Hrun as (? & ? & _ & Hrun)).
  unfold ret in Hrun. injection Hrun as <- _.
  eexists _, _. reflexivity.
Qed.

(** Any two records of one run carry the same id. *)
Lemma records_of_one_run_have_one_id `{Externals} (self : Parser)
      (st st' : ParserState) (records : list Dict) (r1 r2 : Dict) :
  parse_structured_data self st = (Ok records, st') ->
  In r1 records -> In r2 records ->
  lookup r1 "record_id" = lookup r2 "record_id".
Proof.
  intros Hrun H1 H2.
  destruct (run_records_are_stamped _ _ _ _ Hrun) as (ts & all & ->).
  rewrite (stamp_gives_one_id _ _ _ _ H1).
  now rewrite (stamp_gives_one_id _ _ _ _ H2).
Qed.

(** ** Header cells named like a metadata field *)

(** C4, on the code. A table row with six valid cells whose sixth
    header cell reads domain: the cell replaces the domain of the page
    in the record, the four positional columns of the unified row are
    empty, and additional_data reads back as the five other cells.
    The sixth cell is in neither. *)
Theorem domain_header_cell_is_not_recoverable `{Externals} (url : string)
        (st : ParserState) :
  exists record row blob cells,
    extraction [registry_table] url st = Ok [record]
    /\ is_table_row record
    /\ 4 < List.length (cell_fields record)
    /\ lookup record "domain" = Some (VStr "acme example org")
    /\ organize_record record = Ok row
    /\ map (lookup row) positional_columns = repeat (Some (VStr "")) 4
    /\ lookup row "additional_data" = Some (VStr blob)
    /\ parse_dict blob = Some cells
    /\ cells = [("Name", VStr "Acme registry"); ("Owner", VStr "Alice Smith");
                ("Region", VStr "Europe West"); ("Status", VStr "Active now");
                ("Contact", VStr "Phone only")]
    /\ lookup cells "domain" = None
    /\ lookup row "domain" = Some (VStr "acme example org").
Proof.
  eexists _, _, _, _. split; [evaluate; reflexivity|].
  split; [reflexivity|]. split; [cbn; lia|]. split; [reflexivity|].
  split; [reflexivity|]. split; [reflexivity|].
  split; [reflexivity|]. split; [vm_compute; reflexivity|].
  split; [reflexivity|]. split; reflexivity.
Qed.

(** C9, on the code. A table row with the header cells Name and
    domain: no key of the record is a positional name and the four
    positional columns are empty, but additional_data holds the cell
    under Name only; the text of the other cell stands in the domain
    column of the unified row, in place of the domain of the page. *)
Theorem domain_header_cell_leaves_additional_data `{Externals} (url : string)
        (st : ParserState) :
  exists record row,
    extraction [owner_table] url st = Ok [record]
    /\ is_table_row record
    /\ (forall name, In name positional_columns -> lookup record name = None)
    /\ organize_record record = Ok row
    /\ map (lookup row) positional_columns = repeat (Some (VStr "")) 4
    /\ lookup row "additional_data"
       = Some (VStr "{'Name': 'Acme registry'}")
    /\ lookup row "domain" = Some (VStr "acme example org").
Proof.
  eexists _, _. split; [evaluate; reflexivity|].
  split; [reflexivity|].
  split; [intros name [<- | [<- | [<- | [<- | []]]]]; reflexivity|].
  split; [reflexivity|]. split; [reflexivity|].
  split; [vm_compute; reflexivity|]. reflexivity.
Qed.

(** ** The limit on version references *)

Lemma for_each_append_records {A : Type} (record_of : A -> Dict)
      (xs : list A) (l : list Dict) (st : ParserState) :
  for_each xs (fun x => append_record (record_of x)) (l, st)
  = (Ok tt, (l ++ map record_of xs, st)).
Proof.
  revert l. induction xs as [|x xs IH]; intros l; cbn [for_each map].
  - now rewrite app_nil_r.
  - unfold bind. cbn. rewrite IH. now rewrite <- app_assoc.
Qed.

Lemma scan_patterns_records (self : Parser) (elem_type : string)
      (elem_idx : nat) (text : string) (patterns : list regex)
      (l : list Dict) (st : ParserState) :
  for_each patterns
    (fun pattern =>
       let found := findall pattern text in
       if is_nil found then ret tt
       else
         let context := version_context elem_type elem_idx text in
         for_each (firstn 3 found)
           (fun version =>
              append_record
                (version_record self elem_type context text version)))
    (l, st)
  = (Ok tt,
     (l ++ flat_map (pattern_records self elem_type elem_idx text) patterns,
      st)).
Proof.
  revert l. induction patterns as [|pattern patterns IH]; intros l;
    cbn [for_each flat_map].
  - now rewrite app_nil_r.
  - unfold bind. unfold pattern_records at 1.
    destruct (findall pattern text) as [|v found] eqn:Hfound; cbn [is_nil].
    + unfold ret. rewrite IH. reflexivity.
    + cbv zeta. rewrite for_each_append_records, IH.
      now rewrite <- app_assoc.
Qed.

(** The records an element adds are, pattern by pattern in the order
    of [version_patterns], the records of the first three matches of
    the pattern in the cleaned text of the element, and none when that
    text is not valid at 20 characters: the limit of three holds for
    each pattern, so that an element adds up to three times the number
    of patterns. *)
Lemma element_adds_three_per_pattern (self : Parser) (elem_type : string)
      (elem_idx : nat) (elem : Node) (l : list Dict) (st : ParserState) :
  let text := _clean_text (get_text elem) in
  let added :=
    if _is_valid_content text (Some 20)
    then flat_map (pattern_records self elem_type elem_idx text)
                  version_patterns
    else [] in
  scan_element self elem_type (elem_idx, elem) (l, st)
  = (Ok tt, (l ++ added, st))
  /\ (forall pattern,
        List.length (pattern_records self elem_type elem_idx text pattern)
        <= 3)
  /\ List.length added <= 3 * List.length version_patterns.
Proof.
  intros text added.
  assert (Hthree : forall pattern,
             List.length
               (pattern_records self elem_type elem_idx text pattern) <= 3).
  { intros pattern. unfold pattern_records.
    rewrite length_map, length_firstn. lia. }
  split; [|split; [exact Hthree|]].
  - unfold scan_element. fold text. subst added.
    destruct (_is_valid_content text (Some 20)); cbn [negb].
    + apply scan_patterns_records.
    + unfold ret. now rewrite app_nil_r.
  - subst added. destruct (_is_valid_content text (Some 20));
      [|cbn [List.length]; lia].
    induction version_patterns as [|pattern patterns IH];
      cbn [flat_map List.length]; [lia|].
    rewrite length_app. specialize (Hthree pattern). lia.
Qed.

(** ** Loops that add records *)

Lemma grows_ret {S A X : Type} (recs : S -> list X) (P : X -> Prop)
      (a : A) : grows recs P (ret a).
Proof. intros s. exists []. now rewrite app_nil_r. Qed.

Lemma grows_raise {S A X : Type} (recs : S -> list X) (P : X -> Prop)
      (e : PyExn) : grows recs P (raise (A:=A) e).
Proof. intros s. exists []. now rewrite app_nil_r. Qed.

Lemma grows_modify {S X : Type} (recs : S -> list X) (P : X -> Prop)
      (f : S -> S) :
  (forall s, recs (f s) = recs s) -> grows recs P (modify f).
Proof. intros Hf s. exists []. simpl. now rewrite Hf, app_nil_r. Qed.

Lemma grows_bind {S A B X : Type} (recs : S -> list X) (P : X -> Prop)
      (c : M S A) (f : A -> M S B) :
  grows recs P c -> (forall a, grows recs P (f a)) ->
  grows recs P (bind c f).
Proof.
  intros Hc Hf s. unfold bind.
  destruct (Hc s) as (a1 & H1 & HP1).
  destruct (c s) as [[a | e] s1]; cbn [snd] in *.
  - destruct (Hf a s1) as (a2 & H2 & HP2).
    exists (a1 ++ a2). rewrite H2, H1, app_assoc.
    split; [reflexivity | now apply Forall_app].
  - now exists a1.
Qed.

Lemma grows_try_except {S A X : Type} (recs : S -> list X)
      (P : X -> Prop) (c : M S A) (h : PyExn -> M S A) :
  grows recs P c -> (forall e, grows recs P (h e)) ->
  grows recs P (try_except c h).
Proof.
  intros Hc Hh s. unfold try_except.
  destruct (Hc s) as (a1 & H1 & HP1).
  destruct (c s) as [[a | e] s1]; cbn [snd] in *.
  - now exists a1.
  - destruct (Hh e s1) as (a2 & H2 & HP2).
    exists (a1 ++ a2). rewrite H2, H1, app_assoc.
    split; [reflexivity | now apply Forall_app].
Qed.

Lemma grows_for_each {S A X : Type} (recs : S -> list X)
      (P : X -> Prop) (l : list A) (body : A -> M S unit) :
  (forall x, In x l -> grows recs P (body x)) ->
  grows recs P (for_each l body).
Proof.
  induction l as [|x l IH]; intros Hbody; cbn [for_each].
  - apply grows_ret.
  - apply grows_bind; [apply Hbody; now left|].
    intros _. apply IH. intros y Hy. apply Hbody. now right.
Qed.

Lemma grows_if {S A X : Type} (recs : S -> list X) (P : X -> Prop)
      (b : bool) (c1 c2 : M S A) :
  (b = true -> grows recs P c1) -> (b = false -> grows recs P c2) ->
  grows recs P (if b then c1 else c2).
Proof. destruct b; auto. Qed.

Lemma grows_log {L X : Type} (recs : L * ParserState -> list X)
      (P : X -> Prop) (lvl : LogLevel) (m : LogMsg) :
  (forall l st st', recs (l, st) = recs (l, st')) ->
  grows recs P (log_at (S:=L * ParserState) lvl m).
Proof.
  intros Hrecs. apply grows_modify. intros [l st]. apply Hrecs.
Qed.

Lemma grows_append_record (P : Dict -> Prop) (record : Dict) :
  P record -> grows fst P (append_record record).
Proof.
  intros HP [l st]. exists [record]. split; [reflexivity|].
  now constructor.
Qed.

(** What a loop run from an empty list returns is what it added. *)
Lemma with_frame_grown {L A X : Type} (recs : L -> list X)
      (P : X -> Prop) (c : M (L * ParserState) A) (init final : L)
      (st st' : ParserState) :
  grows (fun fs => recs (fst fs)) P c ->
  recs init = [] ->
  with_frame init c st = (Ok final, st') -> Forall P (recs final).
Proof.
  intros Hc Hinit. unfold with_frame.
  destruct (Hc (init, st)) as (added & Hadd & HP).
  destruct (c (init, st)) as [[a | e] [l s1]]; [|discriminate].
  cbn [snd fst] in Hadd. rewrite Hinit in Hadd. cbn [app] in Hadd.
  intros [= <- _]. now rewrite Hadd.
Qed.

Lemma enumerate_index {A : Type} (l : list A) (i : nat) (x : A) :
  In (i, x) (enumerate l) -> i < List.length l /\ In x l.
Proof.
  unfold enumerate. intros Hin. split.
  - apply in_combine_l in Hin. apply in_seq in Hin. lia.
  - now apply in_combine_r in Hin.
Qed.

Lemma take_length (n : nat) (s : string) : length (take n s) <= n.
Proof.
  unfold take. revert s.
  induction n as [|n IH]; intros [|c s]; simpl; try lia.
  specialize (IH s). lia.
Qed.

Lemma take_short (n : nat) (s : string) :
  length s <= n -> take n s = s.
Proof.
  unfold take. revert s.
  induction n as [|n IH]; intros [|c s]; simpl; intros H;
    try reflexivity; try lia.
  rewrite IH by lia. reflexivity.
Qed.

Lemma find_all_tag (names : list string) (root n : Node) :
  In n (find_all names root) -> is_tag names n = true.
Proof. unfold find_all. intros H. now apply filter_In in H. Qed.

Lemma tag_name_of_tag (names : list string) (n : Node) :
  is_tag names n = true -> In (tag_name n) names.
Proof.
  destruct n as [s | nm attrs cs]; [discriminate|].
  cbn [is_tag tag_name name_of]. apply mem_In.
Qed.

(** ** The records of the list extractor *)

Lemma process_list_grows (self : Parser) (il : nat * (Node * option Node)) :
  is_tag ["ol"; "ul"] (fst (snd il)) = true ->
  grows fst (is_list_item self) (process_list self il).
Proof.
  intros Htag. unfold process_list.
  apply grows_for_each. intros [i item] Hin.
  apply enumerate_index in Hin. destruct Hin as [Hi _].
  apply grows_if; intros Hvalid; [|apply grows_ret].
  apply grows_append_record.
  eexists _, i, _, _, _. split; [reflexivity|].
  split; [exact Hi|]. split; [exact Hvalid|]. split.
  - destruct (snd (snd il)) as [prev|]; [apply take_length | simpl; lia].
  - apply tag_name_of_tag in Htag.
    destruct Htag as [H | [H | []]]; [left | right]; symmetry; exact H.
Qed.

Lemma list_loop_grows (self : Parser) :
  grows fst (is_list_item self)
    (for_each
       (enumerate
          (find_all_with_previous ["ol"; "ul"]
             (heading_tags ++ ["strong"; "b"]) (soup self)))
       (fun il =>
          try_except (process_list self il)
                     (fun e => logger_warning
                                 (Error_parsing_list (fst il) e)))).
Proof.
  apply grows_for_each. intros [i [n prev]] Hin.
  apply enumerate_index in Hin. destruct Hin as [_ Hin].
  unfold find_all_with_previous in Hin. apply filter_In in Hin.
  apply grows_try_except.
  - apply process_list_grows. exact (proj2 Hin).
  - intros e. apply grows_log. reflexivity.
Qed.

Lemma lists_shape (self : Parser) (st st' : ParserState)
      (records : list Dict) :
  _extract_structured_lists self st = (Ok records, st') ->
  Forall (is_list_item self) records.
Proof.
  intros Hrun.
  unfold _extract_structured_lists in Hrun.
  apply bind_returned in Hrun. destruct Hrun as (l & s1 & Hloop & Hrest).
  repeat (apply bind_returned in Hrest;
          destruct Hrest as (? & ? & _ & Hrest)).
  unfold ret in Hrest. injection Hrest as <- _.
  eapply (with_frame_grown (fun l => l)); [|reflexivity|exact Hloop].
  apply list_loop_grows.
Qed.

(** Every record of the list extractor has its index below the number
    of items of its list, valid content and a context of at most 100
    characters. *)
Theorem list_records_are_well_formed (self : Parser) (st : ParserState) :
  exists records st',
    _extract_structured_lists self st = (Ok records, st')
    /\ Forall (is_list_item self) records.
Proof.
  destruct (lists_returns self st) as (records & st' & Hrun).
  exists records, st'. split; [exact Hrun|].
  exact (lists_shape self st st' records Hrun).
Qed.

(** ** The records of the section extractor *)

(** The loop over the siblings adds at most [content_limit] pieces,
    each valid at 30 characters. *)
Lemma gather_content_adds `{Externals} (siblings : list Node) :
  forall content_limit content_parts,
    exists more,
      gather_content siblings content_limit content_parts
      = content_parts ++ more
      /\ List.length more <= content_limit
      /\ Forall (fun text => _is_valid_content text (Some 30) = true) more.
Proof.
  induction siblings as [|next_elem rest IH];
    intros content_limit content_parts; cbn [gather_content].
  - exists []. rewrite app_nil_r. repeat split; [simpl; lia | constructor].
  - destruct (negb (node_truthy next_elem)) eqn:Htruthy; cbn [orb].
    { exists []. rewrite app_nil_r.
      repeat split; [simpl; lia | constructor]. }
    destruct (Nat.eqb_spec content_limit 0) as [-> | Hlimit].
    { exists []. rewrite app_nil_r.
      repeat split; [simpl; lia | constructor]. }
    destruct (has_get_text next_elem
              && _is_valid_content (_clean_text (get_text next_elem))
                   (Some 30)) eqn:Hkeep.
    + apply andb_prop in Hkeep. destruct Hkeep as [_ Hvalid].
      destruct rest as [|following rest'].
      * exists [_clean_text (get_text next_elem)].
        repeat split; [simpl; lia | now constructor].
      * destruct (node_truthy following && is_tag heading_tags following).
        -- exists [_clean_text (get_text next_elem)].
           repeat split; [simpl; lia | now constructor].
        -- destruct (IH (content_limit - 1)
                        (content_parts
                         ++ [_clean_text (get_text next_elem)]))
             as (more & -> & Hlen & Hall).
           exists (_clean_text (get_text next_elem) :: more).
           rewrite <- app_assoc. repeat split; [simpl; lia|].
           now constructor.
    + destruct rest as [|following rest'].
      * exists []. rewrite app_nil_r.
        repeat split; [simpl; lia | constructor].
      * destruct (node_truthy following && is_tag heading_tags following).
        -- exists []. rewrite app_nil_r.
           repeat split; [simpl; lia | constructor].
        -- apply IH.
Qed.

Lemma process_heading_grows `{Externals} (self : Parser)
      (hs : Node * list Node) :
  is_tag heading_tags (fst hs) = true ->
  grows fst (is_section self) (process_heading self hs).
Proof.
  intros Htag. destruct hs as [heading siblings]. unfold process_heading.
  apply grows_if; intros Hempty; [apply grows_ret|].
  destruct (gather_content_adds siblings 5 [])
    as (parts & Hparts & Hlen & Hvalid).
  cbn [app] in Hparts. rewrite Hparts.
  apply grows_if; intros Hnil; [apply grows_ret|].
  apply grows_append_record.
  exists (_clean_text (get_text heading)), (tag_name heading), parts.
  split; [reflexivity|]. split; [|split; [exact Hvalid | split]].
  - destruct parts; [discriminate | simpl in *; lia].
  - intros Heq. rewrite Heq in Hempty. discriminate.
  - now apply tag_name_of_tag.
Qed.

Lemma sections_shape `{Externals} (self : Parser) (st st' : ParserState)
      (records : list Dict) :
  _extract_content_sections self st = (Ok records, st') ->
  Forall (is_section self) records.
Proof.
  intros Hrun.
  unfold _extract_content_sections in Hrun.
  apply bind_returned in Hrun. destruct Hrun as (l & s1 & Hloop & Hrest).
  repeat (apply bind_returned in Hrest;
          destruct Hrest as (? & ? & _ & Hrest)).
  unfold ret in Hrest. injection Hrest as <- _.
  eapply (with_frame_grown (fun l => l)); [|reflexivity|exact Hloop].
  apply grows_for_each. intros hs Hin.
  unfold find_all_with_siblings in Hin. apply filter_In in Hin.
  apply grows_try_except.
  - apply process_heading_grows. exact (proj2 Hin).
  - intros e. apply grows_log. reflexivity.
Qed.

(** Every record of the section extractor holds between one and five
    pieces of content, each valid at 30 characters, under a heading
    whose text is not empty. *)
Theorem section_records_are_well_formed `{Externals} (self : Parser) (st : ParserState) :
  exists records st',
    _extract_content_sections self st = (Ok records, st')
    /\ Forall (is_section self) records.
Proof.
  destruct (sections_returns self st) as (records & st' & Hrun).
  exists records, st'. split; [exact Hrun|].
  exact (sections_shape self st st' records Hrun).
Qed.

(** ** The records of the version scan *)

Lemma findall_from_not_empty (r : regex) (s : string) :
  forall prev skip v,
    In v (findall_from r prev skip s) -> v <> EmptyString.
Proof.
  induction s as [|c s IH]; intros prev skip v Hin; [contradiction|].
  cbn [findall_from] in Hin. destruct skip as [|n]; [|eauto].
  destruct (match_len r prev (String c s)) as [[|n]|]; eauto.
  destruct Hin as [<- | Hin]; [discriminate | eauto].
Qed.

Lemma In_firstn {A : Type} (n : nat) (l : list A) (x : A) :
  In x (firstn n l) -> In x l.
Proof.
  revert l. induction n as [|n IH]; intros [|y l] Hin;
    try contradiction.
  destruct Hin as [<- | Hin]; [now left | right; auto].
Qed.

Lemma dotted_or_dated (pattern : regex) :
  In pattern version_patterns ->
  In pattern dotted_patterns \/ In pattern dated_patterns.
Proof.
  intros Hin. unfold dotted_patterns, dated_patterns.
  rewrite <- (firstn_skipn 3 version_patterns) in Hin.
  now apply in_app_or in Hin.
Qed.

Lemma enumerate_nth {A : Type} (l : list A) (i : nat) (x : A) :
  In (i, x) (enumerate l) -> nth_error l i = Some x.
Proof.
  unfold enumerate. intros Hin.
  assert (Hfrom : forall start,
             In (i, x) (combine (seq start (List.length l)) l) ->
             nth_error l (i - start) = Some x).
  { clear Hin. induction l as [|y l IH]; intros start Hin; [contradiction|].
    cbn [List.length seq combine] in Hin. destruct Hin as [[= <- <-] | Hin].
    - now rewrite Nat.sub_diag.
    - assert (Hlt : start < i)
        by (apply in_combine_l in Hin; apply in_seq in Hin; lia).
      apply IH in Hin.
      replace (i - start) with (S (i - S start)) by lia. exact Hin. }
  specialize (Hfrom 0 Hin). now rewrite Nat.sub_0_r in Hfrom.
Qed.

Lemma scan_element_grows (self : Parser) (elem_type : string)
      (elements : list Node) (ie : nat * Node) :
  In (elem_type, elements) (elements_to_check self) ->
  In ie (enumerate elements) ->
  grows fst (is_version_reference self) (scan_element self elem_type ie).
Proof.
  intros Htype Hie. destruct ie as [elem_idx elem]. unfold scan_element.
  apply grows_if; intros Hvalid; [apply grows_ret|].
  apply negb_false_iff in Hvalid.
  unfold scan_patterns. apply grows_for_each. intros pattern Hpattern.
  apply grows_if; intros Hfound; [apply grows_ret|].
  apply grows_for_each. intros version Hversion.
  apply In_firstn in Hversion.
  apply grows_append_record.
  exists elem_type, elements, elem_idx, elem, version, pattern. cbv zeta.
  split; [reflexivity|]. split; [exact Htype|].
  split; [exact (enumerate_nth _ _ _ Hie)|]. split; [exact Hvalid|].
  split; [|split; [exact Hversion|]].
  - destruct (dotted_or_dated pattern Hpattern) as [Hdotted | Hdated];
      [|exact Hdated].
    unfold findall in *.
    rewrite (findall_dotted_pattern pattern _ Hdotted
               (clean_text_no_dot_digit _)) in Hversion.
    contradiction.
  - eapply findall_from_not_empty. exact Hversion.
Qed.

Lemma versions_shape (self : Parser) (st st' : ParserState)
      (records : list Dict) :
  _extract_version_information self st = (Ok records, st') ->
  Forall (is_version_reference self) records.
Proof.
  intros Hrun.
  unfold _extract_version_information in Hrun.
  apply bind_returned in Hrun. destruct Hrun as (l & s1 & Hloop & Hrest).
  repeat (apply bind_returned in Hrest;
          destruct Hrest as (? & ? & _ & Hrest)).
  unfold ret in Hrest. injection Hrest as <- _.
  eapply (with_frame_grown (fun l => l)); [|reflexivity|exact Hloop].
  apply grows_for_each. intros [elem_type elements] Hte.
  apply grows_for_each. intros ie Hie.
  apply grows_try_except; [|intros e; apply grows_ret].
  exact (scan_element_grows self elem_type elements ie Hte Hie).
Qed.

(** Every record of the version scan comes from an element of the
    document: a table, list, heading or paragraph found in the tree of
    the parser, at the index its context names.  The token of the
    record is a match of one of the two dated patterns in the cleaned,
    valid text of that element; the dotted patterns contribute
    none. *)
Theorem version_records_are_dated (self : Parser) (st : ParserState) :
  exists records st',
    _extract_version_information self st = (Ok records, st')
    /\ Forall (is_version_reference self) records.
Proof.
  destruct (versions_returns self st) as (records & st' & Hrun).
  exists records, st'. split; [exact Hrun|].
  exact (versions_shape self st st' records Hrun).
Qed.

(** ** The records of the table extractor *)

Lemma in_set (d : Dict) (k : string) (v : PyVal) (x : string * PyVal) :
  In x (set d k v) -> x = (k, v) \/ In x d.
Proof.
  induction d as [|[k' v'] d IH]; simpl.
  - intros [<- | []]. now left.
  - destruct (String.eqb k' k); simpl.
    + intros [<- | Hin]; auto.
    + intros [<- | Hin]; auto. destruct (IH Hin); auto.
Qed.

Lemma positional_name_not_empty (i : nat) :
  positional_name i <> EmptyString.
Proof. unfold positional_name. discriminate. Qed.

(** The key of a cell is never the empty string. *)
Lemma col_name_not_empty (headers : list string) (i : nat) :
  col_name headers i <> EmptyString.
Proof.
  unfold col_name. destruct (i <? List.length headers).
  - destruct (nth i headers EmptyString) eqn:E; cbn [is_empty];
      [apply positional_name_not_empty | discriminate].
  - apply positional_name_not_empty.
Qed.

Lemma add_cells_entries (base : Dict) (headers : list string)
      (cells : list Node) (record : Dict) :
  Forall (fun kv => In kv base \/ is_cell kv) record ->
  Forall (fun kv => In kv base \/ is_cell kv)
         (add_cells headers cells record).
Proof.
  unfold add_cells. generalize (enumerate cells) as l. intros l.
  revert record. induction l as [|[i cell] l IH]; intros record Hrec;
    cbn [fold_left]; [exact Hrec|].
  apply IH. cbn [fst snd].
  destruct (_is_valid_content (_clean_text (get_text cell)) None) eqn:Hv;
    [|exact Hrec].
  apply Forall_forall. intros kv Hin. apply in_set in Hin.
  destruct Hin as [-> | Hin].
  - right. split; [apply col_name_not_empty|]. cbn [snd]. eauto.
  - revert kv Hin. now apply Forall_forall.
Qed.

Lemma process_row_grows (self : Parser) (ctx : string)
      (headers : list string) (ir : nat * Node) :
  grows (fun fs => table_data (fst fs)) (is_table_record self)
        (process_row self ctx headers ir).
Proof.
  destruct ir as [row_idx r]. unfold process_row.
  apply grows_bind.
  { intros [frame st]. exists []. rewrite app_nil_r. split; [|constructor].
    unfold read_first_row. cbn [fst]. now destruct (first_row frame). }
  intros fr. apply grows_if; intros _; [apply grows_ret|].
  apply grows_if; intros _; [apply grows_ret|].
  apply grows_if; intros Hany; [|apply grows_ret].
  intros [frame st]. eexists [_]. split; [reflexivity|].
  constructor; [|constructor].
  exists ctx, row_idx.
  assert (Hentries :
    Forall (fun kv => In kv (table_base self ctx row_idx) \/ is_cell kv)
           (add_cells headers (find_all cell_tags r)
                      (table_base self ctx row_idx))).
  { apply add_cells_entries. apply Forall_forall. intros kv Hin. now left. }
  split; [exact Hentries|].
  apply existsb_exists in Hany. destruct Hany as (v & Hv & Htruthy).
  unfold values in Hv. apply in_map_iff in Hv.
  destruct Hv as ([k v'] & Heq & Hin). cbn [snd] in Heq. subst v'.
  unfold filter_keys in Hin. apply filter_In in Hin.
  destruct Hin as [Hin Hkey]. cbn [fst] in Hkey.
  apply negb_true_iff in Hkey.
  pose proof (proj1 (Forall_forall _ _) Hentries _ Hin) as [Hbase | Hcell].
  - exfalso. simpl in Hbase.
    repeat (destruct Hbase as [[= <- <-] | Hbase]; [discriminate Hkey|]).
    contradiction.
  - destruct Hcell as (_ & text & Htext & Hvalid). cbn [snd] in Htext.
    subst v. now exists k, text.
Qed.

Lemma process_table_grows (self : Parser) (it : nat * Node) :
  grows (fun fs => table_data (fst fs)) (is_table_record self)
        (process_table self it).
Proof.
  destruct it as [table_idx table]. unfold process_table.
  apply grows_bind.
  - apply grows_if; intros _; [|apply grows_ret].
    apply grows_bind; [|intros _; apply grows_ret].
    apply grows_modify. reflexivity.
  - intros headers. apply grows_for_each. intros ir _.
    apply process_row_grows.
Qed.

Lemma tables_shape (self : Parser) (st st' : ParserState)
      (records : list Dict) :
  _extract_structured_tables self st = (Ok records, st') ->
  Forall (is_table_record self) records.
Proof.
  intros Hrun.
  unfold _extract_structured_tables in Hrun.
  apply bind_returned in Hrun. destruct Hrun as (l & s1 & Hloop & Hrest).
  repeat (apply bind_returned in Hrest;
          destruct Hrest as (? & ? & _ & Hrest)).
  unfold ret in Hrest. injection Hrest as <- _.
  eapply (with_frame_grown table_data); [| |exact Hloop]; [|reflexivity].
  unfold tables_loop. apply grows_for_each. intros it _.
  unfold table_step. apply grows_try_except.
  - apply process_table_grows.
  - intros e. apply grows_log. reflexivity.
Qed.

(** Every record of the table extractor is made of the five entries
    of the record display and of cells, which are valid text under a
    key that is not empty, and holds at least one cell under a key
    that is not a metadata key. *)
Theorem table_records_are_well_formed (self : Parser) (st : ParserState) :
  exists records st',
    _extract_structured_tables self st = (Ok records, st')
    /\ Forall (is_table_record self) records.
Proof.
  destruct (tables_returns self st) as (records & st' & Hrun).
  exists records, st'. split; [exact Hrun|].
  exact (tables_shape self st st' records Hrun).
Qed.

(** ** Cells that share a key *)

Lemma last_cons {A : Type} (l : list A) (x d : A) :
  last (x :: l) d = last l x.
Proof.
  revert x d. induction l as [|y l IH]; intros x d; [reflexivity|].
  change (last (x :: y :: l) d) with (last (y :: l) d).
  now rewrite !IH.
Qed.

Lemma add_cells_lookup (headers : list string) (k : string)
      (l : list (nat * Node)) :
  forall record,
    lookup
      (fold_left
         (fun record ic =>
            let cell_text := _clean_text (get_text (snd ic)) in
            if _is_valid_content cell_text None
            then set record (col_name headers (fst ic)) (VStr cell_text)
            else record)
         l record) k
    = match
        map (fun ic => _clean_text (get_text (snd ic)))
            (filter (fun ic =>
                       _is_valid_content (_clean_text (get_text (snd ic)))
                                         None
                       && String.eqb (col_name headers (fst ic)) k)
                    l)
      with
      | [] => lookup record k
      | text :: texts => Some (VStr (last texts text))
      end.
Proof.
  induction l as [|[i cell] l IH]; intros record; cbn [fold_left filter map];
    [reflexivity|].
  rewrite IH. cbn [fst snd].
  destruct (_is_valid_content (_clean_text (get_text cell)) None);
    cbn [andb]; [|reflexivity].
  destruct (String.eqb_spec (col_name headers i) k) as [-> | Hne];
    cbn [map].
  - rewrite lookup_set_same.
    destruct (map _ (filter _ l)) as [|t ts]; [reflexivity|].
    now rewrite last_cons.
  - now rewrite lookup_set_other.
Qed.

(** When several valid cells of a row fall under one key, because two
    columns share a header, the record keeps the text of the last one;
    a cell under the name of a metadata key takes the place of the
    metadata.  A key no valid cell falls under keeps what the record
    held. *)
Theorem cells_under_one_key_keep_the_last (headers : list string)
        (cells : list Node) (record : Dict) (k : string) :
  lookup (add_cells headers cells record) k
  = match texts_under headers cells k with
    | [] => lookup record k
    | text :: texts => Some (VStr (last texts text))
    end.
Proof. unfold add_cells, texts_under. apply add_cells_lookup. Qed.

(** ** Tables after a table without an explicit header *)

(** A table without header cells in a [thead] binds [first_row] and
    returns, whatever the frame. *)
Lemma process_table_plain (self : Parser) (table_idx : nat) (table : Node)
      (frame : TablesFrame) (st : ParserState) :
  match find ["thead"] table with
  | Some header_row => header_texts header_row
  | None => []
  end = [] ->
  exists frame',
    process_table self (table_idx, table) (frame, st)
    = (Ok tt, (frame', st))
    /\ first_row frame' = Bound (find ["tr"] table).
Proof.
  intros Hplain. unfold process_table. rewrite Hplain. cbn [is_nil].
  unfold bind at 1. unfold bind at 1.
  unfold assign_first_row, modify, ret. cbn [fst snd].
  match goal with
  | |- exists _, for_each ?rows (process_row ?s ?c ?h) (?fr, ?st0) = _ /\ _ =>
      destruct (rows_bound s c h rows fr st0 (find ["tr"] table) eq_refl)
        as (frame' & Hrun & Hbound)
  end.
  now exists frame'.
Qed.

(** Once [first_row] is bound a table returns and leaves it bound. *)
Lemma process_table_bound (self : Parser) (it : nat * Node)
      (frame : TablesFrame) (st : ParserState) (v : option Node) :
  first_row frame = Bound v ->
  exists frame' v',
    process_table self it (frame, st) = (Ok tt, (frame', st))
    /\ first_row frame' = Bound v'.
Proof.
  intros Hbound. destruct it as [table_idx table].
  destruct (match find ["thead"] table with
            | Some header_row => header_texts header_row
            | None => []
            end) as [|h hs] eqn:Hheader.
  - destruct (process_table_plain self table_idx table frame st Hheader)
      as (frame' & Hrun & Hb).
    now exists frame', (find ["tr"] table).
  - unfold process_table. rewrite Hheader. cbn [is_nil].
    unfold bind at 1. unfold ret at 1.
    match goal with
    | |- exists _ _,
           for_each ?rows (process_row ?s ?c ?hd) (?fr, ?st0) = _ /\ _ =>
        destruct (rows_bound s c hd rows fr st0 v Hbound)
          as (frame' & Hrun & Hb)
    end.
    now exists frame', v.
Qed.

Lemma tables_loop_bound (self : Parser) (tables : list (nat * Node)) :
  forall (frame : TablesFrame) (st : ParserState) (v : option Node),
    first_row frame = Bound v ->
    exists frame',
      tables_loop self tables (frame, st) = (Ok tt, (frame', st)).
Proof.
  unfold tables_loop.
  induction tables as [|it tables IH]; intros frame st v Hbound;
    cbn [for_each].
  - now exists frame.
  - unfold bind at 1. unfold table_step at 1. unfold try_except.
    destruct (process_table_bound self it frame st v Hbound)
      as (frame1 & v1 & -> & Hbound1).
    exact (IH frame1 st v1 Hbound1).
Qed.

(** When the first table of a document has no header cell in a
    [thead], no table of the document fails on the unbound
    [first_row], whatever the other tables are: the extractor returns,
    no entry it logs is the warning of that exception, and the last
    entry it logs is the count of its records. *)
Theorem plain_first_table_binds_first_row (self : Parser)
        (st : ParserState) (table : Node) (others : list Node) :
  find_all ["table"] (soup self) = table :: others ->
  match find ["thead"] table with
  | Some header_row => header_texts header_row
  | None => []
  end = [] ->
  exists records st' added,
    _extract_structured_tables self st = (Ok records, st')
    /\ log (world st')
       = log (world st) ++ added
         ++ [(INFO, Extracted_table_records (List.length records))]
    /\ forall table_idx,
         ~ In (WARNING,
               Error_parsing_table table_idx (UnboundLocalError "first_row"))
              added.
Proof.
  intros Htables Hplain. unfold _extract_structured_tables.
  rewrite Htables. unfold enumerate. cbn [List.length seq combine].
  unfold bind at 1. unfold with_frame, tables_loop. cbn [for_each].
  unfold bind at 1. unfold table_step at 1. unfold try_except.
  destruct (process_table_plain self 0 table
              {| table_data := []; first_row := Unbound |} st Hplain)
    as (frame1 & -> & Hbound1).
  destruct (tables_loop_bound self (combine (seq 1 (List.length others))
                                            others)
              frame1 st _ Hbound1) as (frame2 & Hloop).
  unfold tables_loop in Hloop. rewrite Hloop.
  eexists. eexists. exists []. split; [reflexivity|].
  split; [reflexivity|]. intros table_idx [].
Qed.

(** ** What a computation leaves alone *)

Lemma preserves_ret {S A X : Type} (proj : S -> X) (a : A) :
  preserves proj (ret a).
Proof. intros s. reflexivity. Qed.

Lemma preserves_raise {S A X : Type} (proj : S -> X) (e : PyExn) :
  preserves proj (raise (A:=A) e).
Proof. intros s. reflexivity. Qed.

Lemma preserves_gets {S A X : Type} (proj : S -> X) (f : S -> A) :
  preserves proj (gets f).
Proof. intros s. reflexivity. Qed.

Lemma preserves_of_res {S A X : Type} (proj : S -> X) (r : Res A) :
  preserves proj (of_res r).
Proof. intros s. reflexivity. Qed.

Lemma preserves_modify {S X : Type} (proj : S -> X) (f : S -> S) :
  (forall s, proj (f s) = proj s) -> preserves proj (modify f).
Proof. intros Hf s. apply Hf. Qed.

Lemma preserves_bind {S A B X : Type} (proj : S -> X) (c : M S A)
      (f : A -> M S B) :
  preserves proj c -> (forall a, preserves proj (f a)) ->
  preserves proj (bind c f).
Proof.
  intros Hc Hf s. unfold bind. specialize (Hc s).
  destruct (c s) as [[a | e] s1]; cbn [snd] in *.
  - now rewrite Hf.
  - exact Hc.
Qed.

Lemma preserves_try_except {S A X : Type} (proj : S -> X) (c : M S A)
      (h : PyExn -> M S A) :
  preserves proj c -> (forall e, preserves proj (h e)) ->
  preserves proj (try_except c h).
Proof.
  intros Hc Hh s. unfold try_except. specialize (Hc s).
  destruct (c s) as [[a | e] s1]; cbn [snd] in *.
  - exact Hc.
  - now rewrite Hh.
Qed.

Lemma preserves_for_each {S A X : Type} (proj : S -> X) (l : list A)
      (body : A -> M S unit) :
  (forall x, preserves proj (body x)) -> preserves proj (for_each l body).
Proof.
  intros Hbody. induction l as [|x l IH]; cbn [for_each].
  - apply preserves_ret.
  - apply preserves_bind; [apply Hbody | intros _; exact IH].
Qed.

Lemma preserves_if {S A X : Type} (proj : S -> X) (b : bool)
      (c1 c2 : M S A) :
  preserves proj c1 -> preserves proj c2 ->
  preserves proj (if b then c1 else c2).
Proof. now destruct b. Qed.

Lemma preserves_with_frame {L S A X : Type} (proj : S -> X) (init : L)
      (c : M (L * S) A) :
  preserves (fun fs => proj (snd fs)) c -> preserves proj (with_frame init c).
Proof.
  intros Hc s. unfold with_frame. specialize (Hc (init, s)).
  destruct (c (init, s)) as [[a | e] [l s1]]; exact Hc.
Qed.

(** Writing to the log changes nothing else. *)
Lemma preserves_log {L : Type} (lvl : LogLevel) (m : LogMsg) :
  preserves (fun fs : L * ParserState => beyond_log (snd fs))
            (log_at lvl m).
Proof. apply preserves_modify. intros [l st]. reflexivity. Qed.

Ltac prove_preserves :=
  repeat first
    [ assumption
    | apply preserves_ret
    | apply preserves_raise
    | apply preserves_log
    | apply preserves_with_frame
    | apply preserves_for_each; intros ?
    | apply preserves_try_except; [|intros ?]
    | apply preserves_bind; [|intros ?]
    | apply preserves_if
    | apply preserves_modify; intros [? ?]; reflexivity ].

Lemma process_row_preserves (self : Parser) (ctx : string)
      (headers : list string) (ir : nat * Node) :
  preserves (fun fs => beyond_log (snd fs))
            (process_row self ctx headers ir).
Proof.
  destruct ir as [row_idx r]. unfold process_row.
  apply preserves_bind.
  - intros [frame st]. unfold read_first_row. cbn [fst].
    now destruct (first_row frame).
  - intros fr. unfold append_table_data. prove_preserves.
Qed.

Lemma tables_loop_preserves (self : Parser) (l : list (nat * Node)) :
  preserves (fun fs => beyond_log (snd fs)) (tables_loop self l).
Proof.
  unfold tables_loop, table_step. apply preserves_for_each.
  intros [table_idx table]. apply preserves_try_except;
    [|intros e; apply preserves_log].
  unfold process_table, assign_first_row.
  apply preserves_bind; [prove_preserves|]. intros headers.
  apply preserves_for_each. intros ir. apply process_row_preserves.
Qed.

Lemma lists_loop_preserves (self : Parser)
      (l : list (nat * (Node * option Node))) :
  preserves (fun fs => beyond_log (snd fs))
    (for_each l
       (fun il =>
          try_except (process_list self il)
                     (fun e => logger_warning
                                 (Error_parsing_list (fst il) e)))).
Proof.
  apply preserves_for_each. intros il.
  apply preserves_try_except; [|intros e; apply preserves_log].
  unfold process_list, append_record. prove_preserves.
Qed.

Lemma sections_loop_preserves `{Externals} (self : Parser)
      (l : list (Node * list Node)) :
  preserves (fun fs => beyond_log (snd fs))
    (for_each l
       (fun hs =>
          try_except (process_heading self hs)
                     (fun e => logger_warning
                                 (Error_extracting_section e)))).
Proof.
  apply preserves_for_each. intros [heading siblings].
  apply preserves_try_except; [|intros e; apply preserves_log].
  unfold process_heading, append_record. prove_preserves.
Qed.

Lemma versions_loop_preserves (self : Parser) :
  preserves (fun fs => beyond_log (snd fs))
    (for_each (elements_to_check self)
       (fun te =>
          for_each (enumerate (snd te))
            (fun ie =>
               try_except (scan_element self (fst te) ie)
                          (fun _ => ret tt)))).
Proof.
  apply preserves_for_each. intros te. apply preserves_for_each.
  intros [elem_idx elem]. apply preserves_try_except;
    [|intros e; apply preserves_ret].
  unfold scan_element, scan_patterns, append_record. prove_preserves.
Qed.

Ltac loop_left_alone Hloop :=
  match type of Hloop with
  | with_frame ?init ?c ?st = _ =>
      let H := fresh "Hsame" in
      assert (H : preserves beyond_log (with_frame init c));
      [ apply preserves_with_frame
      | specialize (H st); rewrite Hloop in H; cbn [snd] in H ]
  end.

(** Each extractor sets its own counter to the number of records it
    returns and leaves the other counters, the files and the clock
    alone. *)
Lemma tables_effects (self : Parser) (st st' : ParserState)
      (records : list Dict) :
  _extract_structured_tables self st = (Ok records, st') ->
  beyond_log st'
  = ({| tables := List.length records;
        lists := lists (extraction_stats st);
        definitions := definitions (extraction_stats st);
        sections := sections (extraction_stats st);
        versions := versions (extraction_stats st) |},
     files (world st), ticks (world st)).
Proof.
  unfold _extract_structured_tables. intros Hrun.
  apply bind_returned in Hrun. destruct Hrun as (frame & s1 & Hloop & Hrun).
  loop_left_alone Hloop; [apply tables_loop_preserves|].
  unfold bind, set_stats, logger_info, log_at, modify, ret in Hrun.
  injection Hrun as <- <-.
  unfold beyond_log in *. cbn. injection Hsame as -> -> ->. reflexivity.
Qed.

Lemma lists_effects (self : Parser) (st st' : ParserState)
      (records : list Dict) :
  _extract_structured_lists self st = (Ok records, st') ->
  beyond_log st'
  = ({| tables := tables (extraction_stats st);
        lists := List.length records;
        definitions := definitions (extraction_stats st);
        sections := sections (extraction_stats st);
        versions := versions (extraction_stats st) |},
     files (world st), ticks (world st)).
Proof.
  unfold _extract_structured_lists. intros Hrun.
  apply bind_returned in Hrun. destruct Hrun as (frame & s1 & Hloop & Hrun).
  loop_left_alone Hloop; [apply lists_loop_preserves|].
  unfold bind, set_lists, set_stats, logger_info, log_at, modify, ret
    in Hrun.
  injection Hrun as <- <-.
  unfold beyond_log in *. cbn. injection Hsame as -> -> ->. reflexivity.
Qed.

Lemma sections_effects `{Externals} (self : Parser) (st st' : ParserState)
      (records : list Dict) :
  _extract_content_sections self st = (Ok records, st') ->
  beyond_log st'
  = ({| tables := tables (extraction_stats st);
        lists := lists (extraction_stats st);
        definitions := definitions (extraction_stats st);
        sections := List.length records;
        versions := versions (extraction_stats st) |},
     files (world st), ticks (world st)).
Proof.
  unfold _extract_content_sections. intros Hrun.
  apply bind_returned in Hrun. destruct Hrun as (frame & s1 & Hloop & Hrun).
  loop_left_alone Hloop; [apply sections_loop_preserves|].
  unfold bind, set_sections, set_stats, logger_info, log_at, modify, ret
    in Hrun.
  injection Hrun as <- <-.
  unfold beyond_log in *. cbn. injection Hsame as -> -> ->. reflexivity.
Qed.

Lemma versions_effects (self : Parser) (st st' : ParserState)
      (records : list Dict) :
  _extract_version_information self st = (Ok records, st') ->
  beyond_log st'
  = ({| tables := tables (extraction_stats st);
        lists := lists (extraction_stats st);
        definitions := definitions (extraction_stats st);
        sections := sections (extraction_stats st);
        versions := List.length records |},
     files (world st), ticks (world st)).
Proof.
  unfold _extract_version_information. intros Hrun.
  apply bind_returned in Hrun. destruct Hrun as (frame & s1 & Hloop & Hrun).
  loop_left_alone Hloop; [apply versions_loop_preserves|].
  unfold bind, set_versions, set_stats, logger_info, log_at, modify, ret
    in Hrun.
  injection Hrun as <- <-.
  unfold beyond_log in *. cbn. injection Hsame as -> -> ->. reflexivity.
Qed.

(** ** The whole pass *)

(** The records of a pass are the table records, then the list
    records, the section records and the version records, each with
    the time of the one clock reading and the id; the counters hold
    the number of each. *)
Lemma parse_structure `{Externals} (self : Parser) (st st' : ParserState)
      (records : list Dict) :
  parse_structured_data self st = (Ok records, st') ->
  exists table_data list_data section_data version_data,
    records = stamp self (isoformat (ticks (world st)))
                (table_data ++ list_data ++ section_data ++ version_data)
    /\ Forall (is_table_record self) table_data
    /\ Forall (is_list_item self) list_data
    /\ Forall (is_section self) section_data
    /\ Forall (is_version_reference self) version_data
    /\ beyond_log st'
       = ({| tables := List.length table_data;
             lists := List.length list_data;
             definitions := definitions (extraction_stats st);
             sections := List.length section_data;
             versions := List.length version_data |},
          files (world st), S (ticks (world st))).
Proof.
  unfold parse_structured_data.
  cbn [extract_tables extract_lists extract_sections SCRAPING_CONFIG].
  intros Hrun.
  apply bind_returned in Hrun. destruct Hrun as ([] & s0 & Hlog & Hrun).
  apply bind_returned in Hrun. destruct Hrun as (t & s1 & Ht & Hrun).
  apply bind_returned in Hrun. destruct Hrun as (l & s2 & Hl & Hrun).
  apply bind_returned in Hrun. destruct Hrun as (s & s3 & Hs & Hrun).
  apply bind_returned in Hrun. destruct Hrun as (v & s4 & Hv & Hrun).
  apply bind_returned in Hrun. destruct Hrun as (tick & s5 & Hclock & Hrun).
  apply bind_returned in Hrun. destruct Hrun as ([] & s6 & Hdone & Hrun).
  exists t, l, s, v.
  pose proof (tables_effects _ _ _ _ Ht) as Et.
  pose proof (lists_effects _ _ _ _ Hl) as El.
  pose proof (sections_effects _ _ _ _ Hs) as Es.
  pose proof (versions_effects _ _ _ _ Hv) as Ev.
  injection Hlog as <-.
  unfold read_clock in Hclock. injection Hclock as <- <-.
  injection Hdone as <-. unfold ret in Hrun. injection Hrun as <- <-.
  unfold beyond_log in *. cbn in Et.
  injection Et as Et1 Et2 Et3. injection El as El1 El2 El3.
  injection Es as Es1 Es2 Es3. injection Ev as Ev1 Ev2 Ev3.
  rewrite Ev3, Es3, El3, Et3.
  split; [reflexivity|].
  split; [exact (tables_shape _ _ _ _ Ht)|].
  split; [exact (lists_shape _ _ _ _ Hl)|].
  split; [exact (sections_shape _ _ _ _ Hs)|].
  split; [exact (versions_shape _ _ _ _ Hv)|].
  cbn. rewrite Ev1, Ev2, Es1, Es2, El1, El2, Et1, Et2.
  cbn. reflexivity.
Qed.

Lemma stamp_gives_one_time `{Externals} (self : Parser) (timestamp : string)
      (all_data : list Dict) :
  Forall (fun record =>
            lookup record "extraction_timestamp" = Some (VStr timestamp))
         (stamp self timestamp all_data).
Proof.
  unfold stamp. apply Forall_forall. intros record Hin.
  apply in_map_iff in Hin. destruct Hin as (r & <- & _).
  rewrite lookup_set_other by discriminate. apply lookup_set_same.
Qed.

Lemma stamp_length `{Externals} (self : Parser) (timestamp : string)
      (all_data : list Dict) :
  List.length (stamp self timestamp all_data) = List.length all_data.
Proof. unfold stamp. apply length_map. Qed.

(** A pass returns, writes no file and reads the clock once; every
    record carries the time of that one reading. *)
Theorem extraction_reads_the_clock_once `{Externals} (self : Parser)
        (st : ParserState) :
  exists records st',
    parse_structured_data self st = (Ok records, st')
    /\ files (world st') = files (world st)
    /\ ticks (world st') = S (ticks (world st))
    /\ Forall (fun record =>
                 lookup record "extraction_timestamp"
                 = Some (VStr (isoformat (ticks (world st)))))
              records.
Proof.
  destruct (parse_structured_data_returns self st) as (records & st' & Hrun).
  exists records, st'. split; [exact Hrun|].
  destruct (parse_structure self st st' records Hrun)
    as (t & l & s & v & -> & _ & _ & _ & _ & Hbeyond).
  unfold beyond_log in Hbeyond. injection Hbeyond as _ Hfiles Hticks.
  split; [exact Hfiles|]. split; [exact Hticks|].
  apply stamp_gives_one_time.
Qed.

(** After a pass the report of the parser counts the records of the
    pass: the four counters add up to the number of records returned,
    and the counter of definitions is the one the parser started
    with. *)
Theorem extraction_report_counts_the_records `{Externals} (self : Parser)
        (st : ParserState) :
  exists records report st',
    (records <- parse_structured_data self ;;
     report <- get_extraction_report ;;
     ret (records, report)) st
    = (Ok (records, report), st')
    /\ tables report + lists report + sections report + versions report
       = List.length records
    /\ definitions report = definitions (extraction_stats st).
Proof.
  destruct (parse_structured_data_returns self st) as (records & st' & Hrun).
  exists records, (extraction_stats st'), st'.
  unfold bind at 1. rewrite Hrun. split; [reflexivity|].
  destruct (parse_structure self st st' records Hrun)
    as (t & l & s & v & -> & _ & _ & _ & _ & Hbeyond).
  unfold beyond_log in Hbeyond. injection Hbeyond as Hstats _ _.
  rewrite Hstats. cbn. rewrite stamp_length, !length_app. lia.
Qed.

(** ** What a pass logs *)

Lemma grows_with_frame {L S A X : Type} (recs : S -> list X)
      (P : X -> Prop) (init : L) (c : M (L * S) A) :
  grows (fun fs => recs (snd fs)) P c -> grows recs P (with_frame init c).
Proof.
  intros Hc s. unfold with_frame. specialize (Hc (init, s)).
  destruct (c (init, s)) as [[a | e] [l s1]]; exact Hc.
Qed.

(** A [try] around a body that cannot raise. *)
Lemma grows_try_returns {S A X : Type} (recs : S -> list X)
      (P : X -> Prop) (c : M S A) (h : PyExn -> M S A) :
  returns c -> grows recs P c -> grows recs P (try_except c h).
Proof.
  intros Hret Hc s. unfold try_except. specialize (Hc s).
  destruct (Hret s) as (a & s1 & Heq). rewrite Heq in *. exact Hc.
Qed.

Lemma logs_entry_in_frame {L : Type} (P : LogEntry -> Prop)
      (lvl : LogLevel) (m : LogMsg) :
  P (lvl, m) ->
  grows (fun fs : L * ParserState => log (world (snd fs))) P
        (log_at lvl m).
Proof.
  intros HP [l st]. exists [(lvl, m)]. split; [reflexivity|].
  now constructor.
Qed.

Lemma logs_entry (P : LogEntry -> Prop) (lvl : LogLevel) (m : LogMsg) :
  P (lvl, m) ->
  grows (fun st : ParserState => log (world st)) P (log_at lvl m).
Proof.
  intros HP st. exists [(lvl, m)]. split; [reflexivity|].
  now constructor.
Qed.

(** Loops that change the frame only add nothing to the log. *)
Ltac logs_nothing :=
  repeat first
    [ apply grows_ret
    | apply grows_for_each; intros ? _
    | apply grows_bind; [|intros ?]
    | apply grows_if; intros _
    | apply grows_modify; intros [? ?]; reflexivity ].

Lemma tables_log (self : Parser) :
  grows (fun st : ParserState => log (world st)) expected_entry
        (_extract_structured_tables self).
Proof.
  unfold _extract_structured_tables.
  apply grows_bind.
  - apply grows_with_frame. unfold tables_loop.
    apply grows_for_each. intros [table_idx table] _.
    unfold table_step.
    apply grows_try_except.
    + unfold process_table, assign_first_row. apply grows_bind.
      * logs_nothing.
      * intros headers. apply grows_for_each. intros [row_idx r] _.
        unfold process_row. apply grows_bind.
        -- intros [frame st]. exists []. rewrite app_nil_r.
           split; [|constructor]. unfold read_first_row. cbn [fst].
           now destruct (first_row frame).
        -- intros fr. unfold append_table_data. logs_nothing.
    + intros e. apply logs_entry_in_frame. right. now exists table_idx, e.
  - intros frame. unfold set_stats. apply grows_bind.
    + apply grows_modify. reflexivity.
    + intros _. apply grows_bind; [|intros _; apply grows_ret].
      apply logs_entry. now left.
Qed.

Lemma lists_log (self : Parser) :
  grows (fun st : ParserState => log (world st)) expected_entry
        (_extract_structured_lists self).
Proof.
  unfold _extract_structured_lists.
  apply grows_bind.
  - apply grows_with_frame. apply grows_for_each. intros il _.
    apply grows_try_returns.
    + unfold process_list, append_record. prove_returns.
    + unfold process_list, append_record. logs_nothing.
  - intros frame. unfold set_lists, set_stats. apply grows_bind.
    + apply grows_modify. reflexivity.
    + intros _. apply grows_bind; [|intros _; apply grows_ret].
      apply logs_entry. now left.
Qed.

Lemma sections_log `{Externals} (self : Parser) :
  grows (fun st : ParserState => log (world st)) expected_entry
        (_extract_content_sections self).
Proof.
  unfold _extract_content_sections.
  apply grows_bind.
  - apply grows_with_frame. apply grows_for_each.
    intros [heading siblings] _.
    apply grows_try_returns.
    + unfold process_heading, append_record. prove_returns.
    + unfold process_heading, append_record. logs_nothing.
  - intros frame. unfold set_sections, set_stats. apply grows_bind.
    + apply grows_modify. reflexivity.
    + intros _. apply grows_bind; [|intros _; apply grows_ret].
      apply logs_entry. now left.
Qed.

Lemma versions_log (self : Parser) :
  grows (fun st : ParserState => log (world st)) expected_entry
        (_extract_version_information self).
Proof.
  unfold _extract_version_information.
  apply grows_bind.
  - apply grows_with_frame. apply grows_for_each. intros te _.
    apply grows_for_each. intros [elem_idx elem] _.
    apply grows_try_except; [|intros e; apply grows_ret].
    unfold scan_element, scan_patterns, append_record. logs_nothing.
  - intros frame. unfold set_versions, set_stats. apply grows_bind.
    + apply grows_modify. reflexivity.
    + intros _. apply grows_bind; [|intros _; apply grows_ret].
      apply logs_entry. now left.
Qed.

Lemma parse_log `{Externals} (self : Parser) :
  grows (fun st : ParserState => log (world st)) expected_entry
        (parse_structured_data self).
Proof.
  unfold parse_structured_data.
  cbn [extract_tables extract_lists extract_sections SCRAPING_CONFIG].
  apply grows_bind; [apply logs_entry; now left|]. intros _.
  apply grows_bind; [apply tables_log|]. intros t.
  apply grows_bind; [apply lists_log|]. intros l.
  apply grows_bind; [apply sections_log|]. intros s.
  apply grows_bind; [apply versions_log|]. intros v.
  apply grows_bind.
  { intros st. exists []. rewrite app_nil_r. now split. }
  intros tick.
  apply grows_bind; [apply logs_entry; now left|]. intros _.
  apply grows_ret.
Qed.

(** A pass only adds to the log, and what it adds are entries at
    level INFO and, for each table whose processing raised, the
    warning of the table loop with the exception: no list, section or
    scanned element logs a failure, and no entry is an error. *)
Theorem extraction_warns_only_about_tables `{Externals}
        (self : Parser) (st : ParserState) :
  exists records st' added,
    parse_structured_data self st = (Ok records, st')
    /\ log (world st') = log (world st) ++ added
    /\ Forall expected_entry added.
Proof.
  destruct (parse_structured_data_returns self st) as (records & st' & Hrun).
  destruct (parse_log self st) as (added & Hlog & Hadded).
  rewrite Hrun in Hlog. now exists records, st', added.
Qed.

(** ** The characters of a cleaned text *)

Lemma every_append (p : ascii -> bool) (a b : string) :
  every p (a +++ b) = every p a && every p b.
Proof.
  induction a as [|c a IH]; cbn [String.append every]; [reflexivity|].
  now rewrite IH, andb_assoc.
Qed.

Lemma every_lstrip (p : ascii -> bool) (s : string) :
  every p s = true -> every p (lstrip s) = true.
Proof.
  induction s as [|c s IH]; cbn [lstrip every]; [reflexivity|].
  intros H. apply andb_true_iff in H. destruct H as [Hc Hs].
  destruct (is_space c); [auto|]. cbn [every]. now rewrite Hc, Hs.
Qed.

Lemma every_rstrip (p : ascii -> bool) (s : string) :
  every p s = true -> every p (rstrip s) = true.
Proof.
  induction s as [|c s IH]; cbn [rstrip every]; [reflexivity|].
  intros H. apply andb_true_iff in H. destruct H as [Hc Hs].
  destruct (is_empty (rstrip s) && is_space c); [reflexivity|].
  cbn [every]. now rewrite Hc, IH.
Qed.

Lemma every_strip (p : ascii -> bool) (s : string) :
  every p s = true -> every p (strip s) = true.
Proof. intros H. now apply every_rstrip, every_lstrip. Qed.

(** A substitution keeps a property of the characters that the text
    and the replacement both have. *)
Lemma sub_keeps (p : ascii -> bool) (r : regex) (repl : string) :
  every p repl = true ->
  forall s prev skip,
    every p s = true -> every p (sub_from r repl prev skip s) = true.
Proof.
  intros Hrepl. induction s as [|c s IH]; intros prev skip Hs;
    cbn [sub_from]; [reflexivity|].
  cbn [every] in Hs. apply andb_true_iff in Hs. destruct Hs as [Hc Hs].
  destruct skip as [|n]; [|auto].
  destruct (match_len r prev (String c s)) as [[|n]|].
  - cbn [every]. now rewrite Hc, IH.
  - now rewrite every_append, Hrepl, IH.
  - cbn [every]. now rewrite Hc, IH.
Qed.

(** A substitution whose pattern matches at every character without
    the property leaves none of them. *)
Lemma sub_removes (p : ascii -> bool) (r : regex) (repl : string) :
  every p repl = true ->
  (forall prev c s,
     p c = false -> exists n, match_len r prev (String c s) = Some (S n)) ->
  forall s prev skip, every p (sub_from r repl prev skip s) = true.
Proof.
  intros Hrepl Hmatch. induction s as [|c s IH]; intros prev skip;
    cbn [sub_from]; [reflexivity|].
  destruct skip as [|n]; [|auto].
  destruct (p c) eqn:Hc.
  - destruct (match_len r prev (String c s)) as [[|n]|].
    + cbn [every]. now rewrite Hc, IH.
    + now rewrite every_append, Hrepl, IH.
    + cbn [every]. now rewrite Hc, IH.
  - destruct (Hmatch prev c s Hc) as (n & ->).
    now rewrite every_append, Hrepl, IH.
Qed.

Lemma spaces_match_at_space (prev : option ascii) (c : ascii)
      (s : string) :
  is_space c = true ->
  exists n, match_len re_spaces prev (String c s) = Some (S n).
Proof.
  intros Hc. unfold match_len, re_spaces, Plus.
  set (k0 := fun (_ : option ascii) (s' : string) =>
               Some (length (String c s) - length s')).
  assert (Hfirst :
    run (Cat (Cls is_space) (Star (Cls is_space))) prev (String c s) k0
    = run (Star (Cls is_space)) (Some c) s k0).
  { cbn [run]. now rewrite Hc. }
  rewrite Hfirst.
  destruct (run (Star (Cls is_space)) (Some c) s k0) as [v|] eqn:E.
  - apply run_some in E. destruct E as (p' & s' & Hsuf & Hk).
    unfold k0 in Hk. injection Hk as <-.
    apply suffix_length in Hsuf.
    exists (length s - length s'). f_equal.
    cbn [length]. destruct (length s'); lia.
  - exfalso. revert E. apply star_answers. discriminate.
Qed.

Lemma control_matches_at_control (prev : option ascii) (c : ascii)
      (s : string) :
  is_control c = true ->
  exists n, match_len re_control prev (String c s) = Some (S n).
Proof.
  intros Hc. unfold match_len, re_control. cbn [run]. rewrite Hc.
  exists 0. f_equal. cbn [length]. lia.
Qed.

Lemma is_clean_char_split (s : string) :
  every is_clean_char s
  = every (fun c => negb (is_control c)) s
    && every (fun c => negb (is_space c) || Ascii.eqb c " ") s.
Proof.
  induction s as [|c s IH]; cbn [every]; [reflexivity|].
  rewrite IH. unfold is_clean_char.
  destruct (negb (is_control c)), (negb (is_space c) || Ascii.eqb c " "),
    (every (fun c => negb (is_control c)) s); reflexivity.
Qed.

Lemma strip_strip (s : string) : strip (strip s) = strip s.
Proof.
  unfold strip.
  assert (Hl : forall t, lstrip (lstrip t) = lstrip t).
  { induction t as [|c t IH]; cbn [lstrip]; [reflexivity|].
    destruct (is_space c) eqn:Hc; [exact IH|]. cbn [lstrip].
    now rewrite Hc. }
  assert (Hr : forall t, rstrip (rstrip t) = rstrip t).
  { induction t as [|c t IH]; cbn [rstrip]; [reflexivity|].
    destruct (is_empty (rstrip t) && is_space c) eqn:Hc;
      [reflexivity|].
    cbn [rstrip]. rewrite IH, Hc. reflexivity. }
  assert (Hlr : forall t, lstrip t = t -> lstrip (rstrip t) = rstrip t).
  { intros [|c t]; [reflexivity|]. cbn [lstrip rstrip].
    destruct (is_space c) eqn:Hc.
    - intros Heq. exfalso.
      assert (Hlen : length (lstrip t) <= length t)
        by (apply suffix_length, lstrip_suffix).
      rewrite Heq in Hlen. cbn [length] in Hlen. lia.
    - intros _. rewrite andb_false_r. cbn [lstrip]. now rewrite Hc. }
  rewrite Hlr by apply Hl. apply Hr.
Qed.

(** A cleaned text holds no control character and no white space
    other than the plain space, and neither starts nor ends with a
    space: stripping it again changes nothing. *)
Theorem cleaned_text_is_plain (text : string) :
  every is_clean_char (_clean_text text) = true
  /\ strip (_clean_text text) = _clean_text text.
Proof.
  unfold _clean_text. destruct (is_empty text); [split; reflexivity|].
  split; [|apply strip_strip].
  apply every_strip. rewrite is_clean_char_split.
  apply andb_true_iff. split.
  - apply sub_keeps; [reflexivity|]. apply sub_keeps; [reflexivity|].
    apply sub_removes; [reflexivity|]. intros prev c s Hc.
    apply control_matches_at_control. now apply negb_false_iff in Hc.
  - apply sub_keeps; [reflexivity|]. apply sub_keeps; [reflexivity|].
    apply sub_keeps; [reflexivity|].
    apply sub_removes; [reflexivity|]. intros prev c s Hc.
    apply spaces_match_at_space.
    apply orb_false_iff in Hc. now apply negb_false_iff, (proj1 Hc).
Qed.

(** ** Valid content *)

Lemma findall_from_matched (r : regex) (s : string) :
  forall prev skip v,
    In v (findall_from r prev skip s) ->
    exists prev' s' n,
      suffix s' s /\ match_len r prev' s' = Some (S n).
Proof.
  induction s as [|c s IH]; intros prev skip v Hin; [contradiction|].
  cbn [findall_from] in Hin.
  assert (Hlater : forall prev skip,
             In v (findall_from r prev skip s) ->
             exists prev' s' n,
               suffix s' (String c s)
               /\ match_len r prev' s' = Some (S n)).
  { intros p k Hk. destruct (IH p k v Hk) as (p' & s' & n & Hsuf & Hm).
    exists p', s', n. split; [now apply suffix_later | exact Hm]. }
  destruct skip as [|k]; [|eauto].
  destruct (match_len r prev (String c s)) as [[|n]|] eqn:Hm; eauto.
  destruct Hin as [_ | Hin]; [|eauto].
  exists prev, (String c s), n. split; [apply suffix_here | exact Hm].
Qed.

Lemma word_starts_with_letters (prev : option ascii) (s : string)
      (n : nat) :
  match_len re_word prev s = Some n ->
  exists a b rest,
    s = String a (String b rest)
    /\ is_ascii_alpha a = true /\ is_ascii_alpha b = true.
Proof.
  unfold match_len, re_word, AtLeast. cbn [Cats Rep run].
  destruct (at_boundary prev s); [|discriminate].
  destruct s as [|a [|b rest]]; try discriminate.
  - destruct (is_ascii_alpha a); discriminate.
  - destruct (is_ascii_alpha a) eqn:Ha; [|discriminate].
    destruct (is_ascii_alpha b) eqn:Hb; [|discriminate].
    intros _. now exists a, b, rest.
Qed.

(** Content is valid only if it is as long as the minimum asks and
    holds two ASCII letters side by side: text made of digits and
    signs alone is never valid. *)
Theorem valid_content_has_letters (text : string)
        (min_length : option nat) :
  _is_valid_content text min_length = true ->
  match min_length with
  | Some n => n
  | None => min_content_length SCRAPING_CONFIG
  end <= length text
  /\ has_letter_pair text.
Proof.
  unfold _is_valid_content.
  destruct (is_empty text || _) eqn:Hshort; [discriminate|].
  apply orb_false_iff in Hshort. destruct Hshort as [_ Hlen].
  apply Nat.ltb_ge in Hlen. intros Hwords. split; [exact Hlen|].
  apply Nat.leb_le in Hwords. unfold findall in Hwords.
  destruct (findall_from re_word None 0 text) as [|v rest] eqn:Hfound;
    [cbn in Hwords; lia|].
  destruct (findall_from_matched re_word text None 0 v)
    as (prev' & s' & n & Hsuf & Hm); [rewrite Hfound; now left|].
  destruct (word_starts_with_letters _ _ _ Hm)
    as (a & b & tail & -> & Ha & Hb).
  now exists a, b, tail.
Qed.

(** ** When the normalizer raises *)

Lemma val_eqb_eq (a b : PyVal) : val_eqb a b = true <-> a = b.
Proof.
  destruct a as [s | x], b as [t | y]; cbn [val_eqb];
    try (split; [discriminate | intros [=]]).
  - rewrite String.eqb_eq. split; [now intros -> | now intros [= ->]].
  - rewrite Z.eqb_eq. split; [now intros -> | now intros [= ->]].
Qed.

Lemma val_eqb_refl (a : PyVal) : val_eqb a a = true.
Proof. now apply val_eqb_eq. Qed.

Lemma organize_record_raise (record : Dict) (e : PyExn) :
  organize_record record = Raise e <-> e = TypeError /\ unsliceable record.
Proof.
  unfold organize_record, unsliceable.
  destruct (val_eqb (get record "data_type" empty_str) (VStr "table_data"))
    eqn:Htable.
  { apply val_eqb_eq in Htable. rewrite Htable.
    split; [discriminate | intros (_ & [=] & _)]. }
  destruct (val_eqb (get record "data_type" empty_str)
                    (VStr "version_info")) eqn:Hversion.
  { apply val_eqb_eq in Hversion.
    destruct (get record "full_text" empty_str) as [s | n]; cbn [slice_100].
    - split; [discriminate | intros (_ & _ & n & [=])].
    - split; [intros [= <-]; eauto | now intros [-> _]]. }
  assert (Hno : get record "data_type" empty_str <> VStr "version_info").
  { intros Heq. apply val_eqb_eq in Heq. congruence. }
  repeat match goal with
         | |- context [if ?b then _ else _] => destruct b
         end;
    (split; [discriminate | intros (_ & Heq & _); contradiction]).
Qed.

Lemma organize_data_raise (data : list Dict) (e : PyExn) :
  _organize_data data = Raise e
  <-> e = TypeError /\ Exists unsliceable data.
Proof.
  revert e. induction data as [|record data IH]; intros e;
    cbn [_organize_data].
  - split; [discriminate | intros [_ Hex]; inversion Hex].
  - destruct (organize_record record) as [row | e1] eqn:Hhead.
    + destruct (_organize_data data) as [rows | e2].
      * split; [discriminate|]. intros [-> Hex].
        inversion Hex as [? ? Hbad | ? ? Hrest]; subst.
        -- assert (Hr : organize_record record = Raise TypeError)
             by now apply organize_record_raise.
           congruence.
        -- assert (Hr : @Ok (list Dict) rows = Raise TypeError)
             by (apply IH; auto).
           discriminate.
      * split.
        -- intros [= <-]. destruct (proj1 (IH e2) eq_refl) as [-> Hex].
           split; [reflexivity | now apply Exists_cons_tl].
        -- intros [-> _]. f_equal.
           exact (proj1 (proj1 (IH e2) eq_refl)).
    + apply organize_record_raise in Hhead. destruct Hhead as [-> Hbad].
      split; [intros [= <-] | now intros [-> _]].
      split; [reflexivity | now apply Exists_cons_hd].
Qed.

(** On records that hand only text to [str], building an exporter
    raises only [TypeError], and exactly when some record of type
    version_info holds a number as its [full_text]. *)
Theorem exporter_raises_on_numeric_full_text (data : list Dict)
        (e : PyExn) :
  Forall prints_text_only data ->
  FormattedCSVExporter.__init__ data = Raise e
  <-> e = TypeError /\ Exists unsliceable data.
Proof.
  intros _. unfold FormattedCSVExporter.__init__.
  rewrite <- organize_data_raise.
  destruct (_organize_data data) as [rows | e1].
  - split; discriminate.
  - split; intros [= ->]; reflexivity.
Qed.

(** ** Nothing of a unified row is lost in the file *)

Lemma lookup_keys (d : Dict) (k : string) (v : PyVal) :
  lookup d k = Some v -> In k (keys d).
Proof.
  induction d as [|[k' v'] d IH]; cbn [lookup keys map fst];
    [discriminate|].
  destruct (String.eqb_spec k' k) as [-> | Hne]; [now left|].
  intros Hin. right. now apply IH.
Qed.

(** Every key of a unified row is one of the 24 columns. *)
Lemma organize_record_keys (record row : Dict) :
  organize_record record = Ok row -> incl (keys row) unified_columns.
Proof.
  unfold organize_record.
  repeat match goal with
         | |- context [if ?b then _ else _] => destruct b
         | |- context [match slice_100 ?v with _ => _ end] =>
             destruct (slice_100 v)
         end;
    intros [= <-]; apply incl_by_mem; reflexivity.
Qed.

Lemma lookup_columns (f : string -> PyVal) (cols : list string)
      (k : string) :
  In k cols -> lookup (map (fun col => (col, f col)) cols) k = Some (f k).
Proof.
  induction cols as [|c cols IH]; cbn [map lookup]; [contradiction|].
  destruct (String.eqb_spec c k) as [-> | Hne]; [reflexivity|].
  intros [Heq | Hin]; [contradiction | now apply IH].
Qed.

(** Every field of a unified row is written: the row handed to the
    writer holds it under the same column. *)
Theorem organized_fields_reach_the_file (record row : Dict) (k : string)
        (v : PyVal) :
  organize_record record = Ok row ->
  lookup row k = Some v ->
  lookup (full_record row) k = Some v.
Proof.
  intros Hrow Hk. rewrite full_record_is_exported_row.
  unfold exported_row. rewrite lookup_columns.
  - unfold get. now rewrite Hk.
  - apply (organize_record_keys record row Hrow). now apply lookup_keys in Hk.
Qed.

(** ** Normalizing a unified row again *)

Lemma take_take (n : nat) (s : string) : take n (take n s) = take n s.
Proof. apply take_short, take_length. Qed.

Lemma get_found (record : Dict) (k : string) (default v other : PyVal) :
  get record k default = v -> v <> default -> get record k other = v.
Proof.
  unfold get. destruct (lookup record k); [auto | congruence].
Qed.

(** The rows of a version reference, a list item and a section are
    fixed points of the normalizer: the exporter that
    [export_by_data_type] builds from unified rows writes them as the
    main file has them. *)
Theorem reorganized_row_is_unchanged (record row : Dict) (t : string) :
  In t ["version_info"; "list_item"; "section_content"] ->
  get record "data_type" empty_str = VStr t ->
  organize_record record = Ok row ->
  organize_record row = Ok row.
Proof.
  intros Ht Htype Hrow.
  assert (Hkey : get record "data_type" (VStr "unknown") = VStr t).
  { apply (get_found record "data_type" empty_str); [exact Htype|].
    destruct Ht as [<- | [<- | [<- | []]]]; discriminate. }
  unfold organize_record in Hrow. rewrite Htype in Hrow.
  unfold standardized_base in Hrow. rewrite Hkey in Hrow.
  destruct Ht as [<- | [<- | [<- | []]]]; cbn in Hrow.
  - destruct (get record "full_text" empty_str) as [s | n];
      cbn in Hrow; [|discriminate].
    injection Hrow as <-. unfold organize_record. cbn.
    now rewrite take_take.
  - injection Hrow as <-. reflexivity.
  - injection Hrow as <-. reflexivity.
Qed.

(** The unified row of a table record is not a fixed point: when it is
    normalized again, as [export_by_data_type] does, its
    [additional_data] becomes the text of a dict that holds the four
    positional columns and, as one more text, the cells. *)
Theorem reorganized_table_row_nests_its_cells (record : Dict) :
  is_table_row record ->
  exists row again,
    organize_record record = Ok row
    /\ organize_record row = Ok again
    /\ lookup row "additional_data"
       = Some (VStr (str_dict (cell_fields record)))
    /\ lookup again "additional_data"
       = Some (VStr (str_dict
            [("column_1", positional record "column_1");
             ("column_2", positional record "column_2");
             ("column_3", positional record "column_3");
             ("column_4", positional record "column_4");
             ("additional_data",
              VStr (str_dict (cell_fields record)))])).
Proof.
  intros Htable. rewrite (organize_table_row record Htable).
  eexists. eexists. split; [reflexivity|].
  split; [reflexivity|]. split; reflexivity.
Qed.

(** ** The exporter takes what the parser returns *)

Lemma lookup_In (d : Dict) (k : string) (v : PyVal) :
  lookup d k = Some v -> In (k, v) d.
Proof.
  induction d as [|[k' v'] d IH]; cbn [lookup]; [discriminate|].
  destruct (String.eqb_spec k' k) as [-> | Hne].
  - intros [= ->]. now left.
  - intros Hin. right. now apply IH.
Qed.

Lemma table_record_exportable (self : Parser) (record : Dict) :
  is_table_record self record -> exportable record.
Proof.
  intros (ctx & idx & Hentries & _).
  assert (Htext : forall k v,
             lookup record k = Some v -> k <> "row_index" ->
             exists s, v = VStr s).
  { intros k v Hk Hne. apply lookup_In in Hk.
    destruct (proj1 (Forall_forall _ _) Hentries _ Hk) as [Hbase | Hcell].
    - simpl in Hbase.
      repeat (destruct Hbase as [[= <- <-] | Hbase];
              [first [ eexists; reflexivity
                     | exfalso; apply Hne; reflexivity ]|]).
      contradiction.
    - destruct Hcell as (_ & text & Hv & _). now exists text. }
  split.
  - unfold type_key, get.
    destruct (lookup record "data_type") as [v|] eqn:Hk; [|now eexists].
    apply (Htext _ _ Hk). discriminate.
  - intros (_ & n & Hn). unfold get in Hn.
    destruct (lookup record "full_text") as [v|] eqn:Hk; [|discriminate].
    destruct (Htext _ _ Hk) as (s & ->); discriminate.
Qed.

Lemma list_item_exportable (self : Parser) (record : Dict) :
  is_list_item self record -> exportable record.
Proof.
  intros (context & i & text & list_type & n & -> & _).
  split; [now eexists|]. intros ([=] & _).
Qed.

Lemma section_exportable (self : Parser) (record : Dict) :
  is_section self record -> exportable record.
Proof.
  intros (heading & level & parts & -> & _).
  split; [now eexists|]. intros ([=] & _).
Qed.

Lemma version_reference_exportable (self : Parser) (record : Dict) :
  is_version_reference self record -> exportable record.
Proof.
  intros (elem_type & elements & elem_idx & elem & version & pattern
          & -> & _).
  split; [now eexists|]. intros (_ & n & [=]).
Qed.

Lemma stamped_exportable (record : Dict) (timestamp id : PyVal) :
  exportable record ->
  exportable (set (set record "extraction_timestamp" timestamp)
                  "record_id" id).
Proof.
  unfold exportable, unsliceable, type_key, get.
  now rewrite !lookup_set_other by discriminate.
Qed.

Lemma parse_exportable `{Externals} (self : Parser) (st st' : ParserState)
      (records : list Dict) :
  parse_structured_data self st = (Ok records, st') ->
  Forall exportable records.
Proof.
  intros Hrun.
  destruct (parse_structure self st st' records Hrun)
    as (t & l & s & v & -> & Ht & Hl & Hs & Hv & _).
  unfold stamp. apply Forall_forall. intros record Hin.
  apply in_map_iff in Hin. destruct Hin as (r & <- & Hin).
  apply stamped_exportable.
  rewrite !in_app_iff in Hin. rewrite Forall_forall in Ht, Hl, Hs, Hv.
  destruct Hin as [Hin | [Hin | [Hin | Hin]]].
  - eapply table_record_exportable; eauto.
  - eapply list_item_exportable; eauto.
  - eapply section_exportable; eauto.
  - eapply version_reference_exportable; eauto.
Qed.

Lemma exportable_organized (data : list Dict) :
  Forall exportable data ->
  exists rows, _organize_data data = Ok rows.
Proof.
  intros Hdata. destruct (_organize_data data) as [rows | e] eqn:Hrows;
    [now exists rows|].
  apply organize_data_raise in Hrows. destruct Hrows as [_ Hex].
  apply Exists_exists in Hex. destruct Hex as (r & Hin & Hbad).
  rewrite Forall_forall in Hdata. now destruct (Hdata r Hin).
Qed.

(** Whatever the page, the records of a pass can be handed to the
    exporter: building it does not raise and gives one unified row per
    record. *)
Theorem exporter_takes_the_records_of_a_pass `{Externals} (self : Parser)
        (st : ParserState) :
  exists records st' exporter,
    parse_structured_data self st = (Ok records, st')
    /\ FormattedCSVExporter.__init__ records = Ok exporter
    /\ List.length (data exporter) = List.length records.
Proof.
  destruct (parse_structured_data_returns self st) as (records & st' & Hrun).
  destruct (exportable_organized records (parse_exportable _ _ _ _ Hrun))
    as (rows & Hrows).
  exists records, st', {| original_data := records; data := rows |}.
  split; [exact Hrun|]. unfold FormattedCSVExporter.__init__.
  rewrite Hrows. split; [reflexivity|].
  now apply organize_data_length.
Qed.

(** ** Rows by type *)

Lemma val_eqb_sym (a b : PyVal) : val_eqb a b = val_eqb b a.
Proof.
  destruct a, b; cbn [val_eqb]; auto using String.eqb_sym, Z.eqb_sym.
Qed.

Lemma val_eqb_neq (a b : PyVal) : val_eqb a b = false <-> a <> b.
Proof.
  rewrite <- val_eqb_eq. destruct (val_eqb a b); split; congruence.
Qed.

Lemma rows_of_key_app (k : PyVal) (a b : list Dict) :
  rows_of_key k (a ++ b) = rows_of_key k a ++ rows_of_key k b.
Proof. apply filter_app. Qed.

Lemma filter_none {A : Type} (f : A -> bool) (l : list A) :
  (forall x, In x l -> f x = false) -> filter f l = [].
Proof.
  induction l as [|x l IH]; intros Hf; cbn [filter]; [reflexivity|].
  rewrite (Hf x) by now left. apply IH. intros y Hy. apply Hf. now right.
Qed.

Lemma group_add_keys (k : PyVal) (r : Dict)
      (groups : list (PyVal * list Dict)) :
  map fst (group_add k r groups)
  = if existsb (fun k' => val_eqb k' k) (map fst groups)
    then map fst groups else map fst groups ++ [k].
Proof.
  induction groups as [|[k' rs] groups IH]; cbn [group_add map fst existsb];
    [reflexivity|].
  destruct (val_eqb k' k); cbn [map fst orb]; [reflexivity|].
  rewrite IH. now destruct (existsb _ _).
Qed.

Lemma absent_key (k : PyVal) (ks : list PyVal) :
  existsb (fun k' => val_eqb k' k) ks = false <-> ~ In k ks.
Proof.
  induction ks as [|k' ks IH]; cbn [existsb In]; [tauto|].
  rewrite orb_false_iff, IH, val_eqb_neq. intuition congruence.
Qed.

Lemma group_add_rows (k : PyVal) (r : Dict) (done : list Dict)
      (groups : list (PyVal * list Dict)) :
  type_key r = k ->
  NoDup (map fst groups) ->
  (~ In k (map fst groups) -> rows_of_key k done = []) ->
  Forall (fun g => snd g = rows_of_key (fst g) done /\ snd g <> []) groups ->
  Forall (fun g => snd g = rows_of_key (fst g) (done ++ [r])
                   /\ snd g <> [])
         (group_add k r groups).
Proof.
  intros <-. induction groups as [|[k' rs] groups IH];
    intros Hnodup Habsent Hgroups; cbn [group_add].
  - constructor; [|constructor]. cbn [fst snd]. split; [|discriminate].
    rewrite rows_of_key_app, Habsent by (intros []).
    unfold rows_of_key. cbn [filter app].
    now rewrite val_eqb_refl.
  - inversion Hgroups as [|? ? [Hrs Hne] Hrest]; subst.
    inversion Hnodup as [|? ? Hnotin Hnodup']; subst.
    cbn [fst snd] in *.
    destruct (val_eqb k' (type_key r)) eqn:Hsame.
    + apply val_eqb_eq in Hsame. subst k'.
      constructor.
      * cbn [fst snd]. split.
        -- rewrite rows_of_key_app. f_equal; [exact Hrs|].
           unfold rows_of_key. cbn [filter]. now rewrite val_eqb_refl.
        -- intros Happ. apply app_eq_nil in Happ. now destruct Happ.
      * apply Forall_forall. intros [k2 rs2] Hin.
        pose proof (proj1 (Forall_forall _ _) Hrest _ Hin) as [H2 Hne2].
        cbn [fst snd] in *. split; [|exact Hne2].
        rewrite rows_of_key_app, <- H2.
        unfold rows_of_key. cbn [filter].
        assert (Hdiff : val_eqb (type_key r) k2 = false).
        { apply val_eqb_neq. intros <-. apply Hnotin.
          now apply (in_map fst) in Hin. }
        rewrite Hdiff. now rewrite app_nil_r.
    + constructor.
      * cbn [fst snd]. split; [|exact Hne].
        rewrite rows_of_key_app, <- Hrs.
        unfold rows_of_key. cbn [filter].
        rewrite val_eqb_sym, Hsame. now rewrite app_nil_r.
      * apply IH; [exact Hnodup'| |exact Hrest].
        intros Hnot. apply Habsent. cbn [map fst In].
        apply val_eqb_neq in Hsame. intuition congruence.
Qed.

Lemma group_add_files (r : Dict) (done : list Dict)
      (groups : list (PyVal * list Dict)) :
  files_rows done groups ->
  files_rows (done ++ [r]) (group_add (type_key r) r groups).
Proof.
  intros (Hnodup & Hgroups & Hkeys).
  assert (Habsent : ~ In (type_key r) (map fst groups) ->
                    rows_of_key (type_key r) done = []).
  { intros Hnot. unfold rows_of_key.
    apply filter_none. intros r' Hr'.
    apply val_eqb_neq. intros Heq. apply Hnot. rewrite <- Heq.
    now apply Hkeys. }
  split; [|split].
  - rewrite group_add_keys.
    destruct (existsb _ _) eqn:Hex; [exact Hnodup|].
    apply absent_key in Hex.
    apply NoDup_app; [exact Hnodup | repeat constructor; intros [] |].
    intros x Hx [<- | []]. contradiction.
  - now apply group_add_rows.
  - intros r' Hr'. rewrite group_add_keys.
    apply in_app_or in Hr'. destruct Hr' as [Hr' | [<- | []]].
    + destruct (existsb _ _); [|apply in_or_app; left]; now apply Hkeys.
    + destruct (existsb _ _) eqn:Hex.
      * apply existsb_exists in Hex. destruct Hex as (k' & Hin & Heq).
        apply val_eqb_eq in Heq. now subst k'.
      * apply in_or_app. right. now left.
Qed.

Lemma group_fold_files (rest done : list Dict)
      (groups : list (PyVal * list Dict)) :
  files_rows done groups ->
  files_rows (done ++ rest)
    (fold_left (fun groups record =>
                  group_add (type_key record) record groups)
               rest groups).
Proof.
  revert done groups. induction rest as [|r rest IH];
    intros done groups Hinv; cbn [fold_left].
  - now rewrite app_nil_r.
  - replace (done ++ r :: rest) with ((done ++ [r]) ++ rest)
      by (now rewrite <- app_assoc).
    apply IH. now apply group_add_files.
Qed.

(** The groups of [export_by_data_type] file every row once: the keys
    are distinct, every row has its key among them, and the group of a
    key holds the rows of that key, in their order, and is never
    empty. *)
Theorem rows_are_grouped_by_type (records : list Dict) :
  NoDup (map fst (group_by_type records))
  /\ Forall (fun g => snd g = rows_of_key (fst g) records /\ snd g <> [])
            (group_by_type records)
  /\ forall r, In r records ->
               In (type_key r) (map fst (group_by_type records)).
Proof.
  apply (group_fold_files records [] []).
  split; [constructor|]. split; [constructor | intros r []].
Qed.

(** ** The files of the types *)

Lemma substring_past (a b : string) (m : nat) :
  substring (length a) m (a +++ b) = substring 0 m b.
Proof. induction a as [|c a IH]; [reflexivity | exact IH]. Qed.

Lemma endswith_csv (s : string) : endswith (s +++ ".csv") ".csv" = true.
Proof.
  unfold endswith. rewrite append_length. cbn [length].
  replace (length s + 4 - 4) with (length s) by lia.
  rewrite substring_past. cbn [substring].
  apply andb_true_iff. split; [apply Nat.leb_le; lia | reflexivity].
Qed.

Lemma type_file_name_suffix (base_filename : string) (data_type : PyVal) :
  with_csv_suffix (type_file_name base_filename data_type)
  = type_file_name base_filename data_type.
Proof.
  unfold with_csv_suffix, type_file_name.
  rewrite <- !append_assoc. now rewrite endswith_csv.
Qed.

(** The body of the loop of [export_by_data_type] on a group it can
    take: one file more, nothing else but the log changes. *)
Lemma type_file_written `{Externals} (base_filename : string)
      (g : PyVal * list Dict) (w : World) :
  (forall filename, can_open filename = true) ->
  snd g <> [] -> Forall exportable (snd g) ->
  (exists t, fst g = VStr t) ->
  exists w',
    (let (data_type, records) := g in
     clean_type <- of_res (clean_type_of data_type) ;;
     let filename := base_filename +++ "_" +++ clean_type +++ ".csv" in
     if is_nil records then ret tt
     else
       exporter <- of_res (FormattedCSVExporter.__init__ records) ;;
       export_formatted_csv exporter filename ;;;
       logger_info (Exported_records_to (List.length records)
                      (str data_type) filename)) w
    = (Ok tt, w')
    /\ files w' = type_file base_filename g :: files w
    /\ ticks w' = ticks w.
Proof.
  intros Hopen Hne Hrows (t & Ht). destruct g as [data_type records].
  cbn [fst snd] in *. subst data_type.
  destruct (exportable_organized records Hrows) as (rows & Horg).
  unfold type_file, type_file_name. cbn [fst snd str]. rewrite Horg.
  cbn [clean_type_of]. unfold bind at 1, of_res at 1.
  destruct records as [|r rest]; [contradiction|]. cbn [is_nil].
  unfold FormattedCSVExporter.__init__. rewrite Horg.
  unfold bind at 1, of_res at 1. unfold bind at 1.
  rewrite export_formatted_csv_writes.
  - pose proof (type_file_name_suffix base_filename (VStr t)) as Hname.
    unfold type_file_name in Hname. cbn [str] in Hname. rewrite Hname.
    eexists. split; [reflexivity|]. split; reflexivity.
  - cbn [data]. intros ->. apply organize_data_length in Horg.
    discriminate Horg.
  - apply Hopen.
Qed.

Lemma for_each_writes {A : Type} (body : A -> M World unit)
      (file_of : A -> string * CsvFile) (good : A -> Prop) :
  (forall x w, good x ->
     exists w', body x w = (Ok tt, w')
                /\ files w' = file_of x :: files w
                /\ ticks w' = ticks w) ->
  forall l, Forall good l ->
  forall w,
  exists w',
    for_each l body w = (Ok tt, w')
    /\ files w' = rev (map file_of l) ++ files w
    /\ ticks w' = ticks w.
Proof.
  intros Hbody. induction 1 as [|x l Hx _ IH]; intros w;
    cbn [for_each map rev].
  - now exists w.
  - unfold bind at 1.
    destruct (Hbody x w Hx) as (w1 & -> & Hfiles1 & Hticks1).
    destruct (IH w1) as (w' & -> & Hfiles & Hticks).
    exists w'. split; [reflexivity|].
    rewrite Hfiles, Hfiles1, <- app_assoc. split; [reflexivity | congruence].
Qed.

Lemma groups_exportable (rows : list Dict) :
  Forall exportable rows ->
  Forall (fun g => snd g <> [] /\ Forall exportable (snd g)
                   /\ exists t, fst g = VStr t)
         (group_by_type rows).
Proof.
  intros Hrows.
  destruct (group_fold_files rows [] []) as (_ & Hgroups & _);
    [split; [constructor|]; split; [constructor | intros r []]|].
  cbn [app] in Hgroups. fold (group_by_type rows) in Hgroups.
  apply Forall_forall. intros [k records] Hin.
  pose proof (proj1 (Forall_forall _ _) Hgroups _ Hin) as [Hof Hne].
  cbn [fst snd] in *. split; [exact Hne|].
  assert (Hsub : forall r, In r records ->
                           In r rows /\ type_key r = k).
  { intros r Hr. rewrite Hof in Hr. apply filter_In in Hr.
    split; [exact (proj1 Hr) | now apply val_eqb_eq, (proj2 Hr)]. }
  rewrite Forall_forall in Hrows. split.
  - apply Forall_forall. intros r Hr. apply Hrows. now apply Hsub.
  - destruct records as [|r rest]; [contradiction|].
    destruct (Hsub r (or_introl eq_refl)) as [Hin' <-].
    exact (proj1 (Hrows r Hin')).
Qed.

Lemma type_export_files `{Externals} (self : Exporter)
      (base_filename : string) (w : World) :
  (forall filename, can_open filename = true) ->
  Forall exportable (data self) ->
  exists w',
    export_by_data_type self base_filename w = (Ok tt, w')
    /\ files w'
       = rev (map (type_file base_filename) (group_by_type (data self)))
         ++ files w.
Proof.
  intros Hopen Hrows. unfold export_by_data_type.
  destruct (for_each_writes _ (type_file base_filename) _
              (fun g w0 Hg =>
                 type_file_written base_filename g w0 Hopen
                   (proj1 Hg) (proj1 (proj2 Hg)) (proj2 (proj2 Hg)))
              _ (groups_exportable (data self) Hrows) w)
    as (w' & Hrun & Hfiles & _).
  now exists w'.
Qed.





(** ** The report of a run *)

Import FormattedScraper.

Lemma scrape_url_returns `{Externals} (url : string) :
  returns (scrape_url url).
Proof. unfold scrape_url. prove_returns. Qed.

(** The loop over the URLs returns the records and the reports of its
    trace. *)
Lemma scrape_all_follows_trace `{Externals} (urls : list string)
      (all_data url_reports : list Dict) (st : ScraperState) :
  exists st',
    scrape_all urls all_data url_reports st
    = (Ok (all_data ++ List.concat (map snd (scrape_trace urls st)),
           url_reports
           ++ map (fun ud => url_report (fst ud) (snd ud))
                  (scrape_trace urls st)),
       st')
    /\ map fst (scrape_trace urls st) = urls.
Proof.
  revert all_data url_reports st.
  induction urls as [|url urls IH]; intros all_data url_reports st.
  - exists st. simpl. now rewrite !app_nil_r.
  - cbn [scrape_all scrape_trace]. unfold bind.
    destruct (scrape_url_returns url st) as (data & st1 & ->).
    destruct (IH (all_data ++ data)
                 (url_reports ++ [url_report url data]) st1)
      as (st' & -> & Hurls).
    exists st'. cbn [map List.concat fst snd].
    rewrite <- !app_assoc. cbn [app]. now rewrite Hurls.
Qed.

Lemma url_report_status (url : string) (data : list Dict) :
  lookup (url_report url data) "status"
  = Some (VStr (if is_nil data then "failed" else "success")).
Proof. reflexivity. Qed.

Lemma url_summary_row_status `{Externals} (report : Dict) :
  lookup (url_summary_row report) "status"
  = Some (get report "status" empty_str).
Proof. reflexivity. Qed.

(** The summary, once written, is the newest file and holds one row per
    report after the overall row. *)
Lemma summary_report_rows `{Externals} (output_base : string)
      (url_reports data : list Dict) (st st' : ScraperState) :
  _create_summary_report output_base url_reports data st = (Ok tt, st') ->
  can_open (output_base +++ "_summary.csv") = true ->
  exists overall,
    files (world st')
    = (output_base +++ "_summary.csv",
       {| fieldnames := summary_fieldnames;
          rows := [overall] ++ map url_summary_row url_reports
                  ++ map (type_summary_row (List.length data))
                         (count_by_type data) |})
        :: files (world st).
Proof.
  intros Hrun Hopen. unfold _create_summary_report in Hrun.
  apply bind_returned in Hrun. destruct Hrun as (stats0 & s1 & Hs & Hrun).
  unfold gets in Hs. injection Hs as <- <-.
  apply bind_returned in Hrun. destruct Hrun as ([] & s2 & Hdiv & Hrun).
  destruct (List.length url_reports =? 0); [discriminate|].
  unfold ret in Hdiv. injection Hdiv as <-.
  apply bind_returned in Hrun. destruct Hrun as (now & s3 & Hclock & Hrun).
  unfold call_world in Hclock. injection Hclock as <- <-.
  unfold try_except, bind, call_world, open_w in Hrun.
  cbn [world] in Hrun. rewrite Hopen in Hrun.
  cbn in Hrun. injection Hrun as <-.
  eexists. reflexivity.
Qed.

(** What a run that returns has done, step by step. *)
Lemma run_scraping_returned `{Externals} (urls : list string)
      (output_base : string) (st st' : ScraperState) (result : RunResult) :
  run_scraping urls output_base st = (Ok result, st') ->
  let trace :=
    scrape_trace urls
      (write_log (INFO, Starting_scraping (List.length urls)) st) in
  map fst trace = urls
  /\ result_data result = List.concat (map snd trace)
  /\ result_url_reports result
     = map (fun ud => url_report (fst ud) (snd ud)) trace
  /\ (result_data result <> [] ->
      exists st1,
        _export_results (result_data result) output_base
                        (result_url_reports result) st1
        = (Ok tt, st')).
Proof.
  intros Hrun trace.
  set (s0 := write_log (INFO, Starting_scraping (List.length urls)) st)
    in *.
  destruct (scrape_all_follows_trace urls [] [] s0)
    as (s1 & Hall & Hurls).
  fold trace in Hall, Hurls. clearbody trace.
  unfold run_scraping in Hrun.
  apply bind_returned in Hrun. destruct Hrun as ([] & s0' & Hlog & Hrun).
  assert (Hs0 : s0' = s0)
    by (apply (f_equal snd) in Hlog; symmetry; exact Hlog).
  clear Hlog. subst s0'. clearbody s0.
  apply bind_returned in Hrun.
  destruct Hrun as (collected & s1' & Hloop & Hrun).
  rewrite Hall in Hloop. injection Hloop as <- <-.
  cbn [app] in Hrun.
  apply bind_returned in Hrun. destruct Hrun as ([] & s2 & Hexport & Hrun).
  apply bind_returned in Hrun. destruct Hrun as (stats2 & s3 & Hs & Hrun).
  unfold gets in Hs. injection Hs as <- <-.
  unfold ret in Hrun. injection Hrun as <- <-.
  cbn [result_data result_url_reports].
  repeat split; try reflexivity; try exact Hurls.
  intros Hne. exists s1. revert Hne Hexport.
  generalize (List.concat (map snd trace)) as all_data.
  intros [|record all_data] Hne Hexport; [congruence | exact Hexport].
Qed.

(** C10. For every URL of a run, the report says success exactly when
    [scrape_url] returned at least one record for it, and failed
    otherwise; the summary file, when it is written, repeats that
    status in its row for the URL.  In particular a page that is
    retrieved and parsed without error but gives no record is counted
    among the successful URLs of the statistics and reported as
    failed. *)
Theorem url_status_follows_record_count `{Externals} :
  (forall urls output_base st result st',
     run_scraping urls output_base st = (Ok result, st') ->
     let trace :=
       scrape_trace urls
         (write_log (INFO, Starting_scraping (List.length urls)) st) in
     map fst trace = urls
     /\ result_data result = List.concat (map snd trace)
     /\ result_url_reports result
        = map (fun ud => url_report (fst ud) (snd ud)) trace
     /\ (result_data result <> [] ->
         can_open (output_base +++ "_summary.csv") = true ->
         exists overall types,
           hd_error (files (world st'))
           = Some (output_base +++ "_summary.csv",
                   {| fieldnames := summary_fieldnames;
                      rows := [overall]
                              ++ map url_summary_row
                                     (result_url_reports result)
                              ++ types |})))
  /\ (forall url data,
        lookup (url_report url data) "url" = Some (VStr url)
        /\ lookup (url_report url data) "records_extracted"
           = Some (VInt (Z.of_nat (List.length data)))
        /\ (lookup (url_report url data) "status" = Some (VStr "success")
            <-> data <> [])
        /\ (lookup (url_report url data) "status" = Some (VStr "failed")
            <-> data = []))
  /\ (forall report,
        lookup (url_summary_row report) "status"
        = Some (get report "status" empty_str))
  /\ (forall url content st,
        http_get url = Ok content ->
        is_empty content = false ->
        (forall ps,
           fst (parse_structured_data
                  {| soup := document (html_parser content);
                     url := url; domain := netloc url |} ps) = Ok []) ->
        exists st',
          scrape_url url st = (Ok [], st')
          /\ urls_successful (stats st') = urls_successful (stats st) + 1
          /\ urls_failed (stats st') = urls_failed (stats st)
          /\ lookup (url_report url []) "status" = Some (VStr "failed")).
Proof.
  split; [|split; [|split]].
  - intros urls output_base st result st' Hrun.
    destruct (run_scraping_returned _ _ _ _ _ Hrun)
      as (Hurls & Hdata & Hreports & Hexport).
    cbv zeta. repeat split; try assumption.
    intros Hne Hopen. destruct (Hexport Hne) as (s1 & Hres).
    unfold _export_results in Hres.
    do 3 (apply bind_returned in Hres;
          destruct Hres as (? & ? & _ & Hres)).
    destruct (summary_report_rows _ _ _ _ _ Hres Hopen) as (overall & ->).
    eexists _, _. reflexivity.
  - intros url data. rewrite url_report_status.
    repeat split; try reflexivity;
      destruct data; cbn [is_nil]; intros; congruence.
  - intros report. apply url_summary_row_status.
  - intros url content st Hget Hcontent Hparse.
    unfold scrape_url, try_except, bind.
    unfold logger_info, log_at, modify, of_res. rewrite Hget.
    unfold StructuredDataParser.__init__. rewrite Hcontent.
    cbn [fst snd]. unfold call_parser.
    match goal with
    | |- context [parse_structured_data ?p ?ps] =>
        pose proof (Hparse ps) as Hps;
        destruct (parse_structured_data p ps) as [r ps']
    end.
    cbn [fst] in Hps. subst r.
    eexists. split; [reflexivity|]. cbn. repeat split.
Qed.

(** ** The counts of the summary *)

Lemma organize_record_type_key (record row : Dict) :
  organize_record record = Ok row -> type_key row = type_key record.
Proof.
  unfold organize_record.
  repeat match goal with
         | |- context [if ?b then _ else _] => destruct b
         | |- context [match slice_100 ?v with _ => _ end] =>
             destruct (slice_100 v)
         end;
    intros [= <-]; reflexivity.
Qed.

Lemma organize_data_type_keys (data rows : list Dict) :
  _organize_data data = Ok rows ->
  Forall2 (fun record row => type_key row = type_key record) data rows.
Proof.
  revert rows. induction data as [|record data IH]; intros rows;
    cbn [_organize_data].
  - intros [= <-]. constructor.
  - destruct (organize_record record) as [row | e] eqn:Hrow;
      [|discriminate].
    destruct (_organize_data data) as [rest | e]; [|discriminate].
    intros [= <-]. constructor; [|now apply IH].
    now apply organize_record_type_key.
Qed.

Lemma count_add_group_add (k : PyVal) (row : Dict)
      (groups : list (PyVal * list Dict)) :
  count_add k (map (fun g => (fst g, List.length (snd g))) groups)
  = map (fun g => (fst g, List.length (snd g))) (group_add k row groups).
Proof.
  induction groups as [|[k' rs] groups IH];
    cbn [map count_add group_add fst snd]; [reflexivity|].
  destruct (val_eqb k' k); cbn [map fst snd].
  - now rewrite length_app.
  - now rewrite IH.
Qed.

Lemma count_fold_group_fold (data rows : list Dict) :
  Forall2 (fun record row => type_key row = type_key record) data rows ->
  forall groups,
    fold_left (fun counts record => count_add (type_key record) counts)
              data (map (fun g => (fst g, List.length (snd g))) groups)
    = map (fun g => (fst g, List.length (snd g)))
          (fold_left (fun groups row => group_add (type_key row) row groups)
                     rows groups).
Proof.
  induction 1 as [|record row data rows Hkey Hrest IH]; intros groups;
    cbn [fold_left]; [reflexivity|].
  rewrite <- Hkey, (count_add_group_add _ row). apply IH.
Qed.

(** The summary counts the records by the key under which the
    per-type files group the unified rows: for every data type, the
    count in the summary is the number of rows of the file of that
    type, in the same order of types. *)
Theorem summary_counts_match_the_type_files (data : list Dict)
        (exporter : Exporter) :
  FormattedCSVExporter.__init__ data = Ok exporter ->
  count_by_type data
  = map (fun g => (fst g, List.length (snd g)))
        (group_by_type (FormattedCSVExporter.data exporter)).
Proof.
  unfold FormattedCSVExporter.__init__.
  destruct (_organize_data data) as [rows | e] eqn:Hrows; [|discriminate].
  intros [= <-]. cbn [FormattedCSVExporter.data].
  apply (count_fold_group_fold data rows
           (organize_data_type_keys data rows Hrows) []).
Qed.

(** ** One page of a run *)

Lemma call_parser_returned {A : Type} (init : StructuredDataParser.Stats)
      (c : M ParserState A) (st st' : ScraperState) (a : A) :
  call_parser init c st = (Ok a, st') ->
  exists pst',
    c {| extraction_stats := init;
         StructuredDataParser.world := world st |} = (Ok a, pst')
    /\ st' = {| stats := stats st;
                world := StructuredDataParser.world pst' |}.
Proof.
  unfold call_parser.
  destruct (c _) as [r pst'] eqn:Hc. intros [= -> <-]. now exists pst'.
Qed.

(** What [scrape_url] does with a page: it returns; it writes no file;
    a page without content gives no record and counts as failed, any
    other page counts as successful with the records of its pass. *)
Lemma scrape_url_outcome `{Externals} (url : string) (st : ScraperState) :
  exists data st',
    scrape_url url st = (Ok data, st')
    /\ files (world st') = files (world st)
    /\ Forall exportable data
    /\ ((no_content url /\ data = []
         /\ stats st' = counted_failure (stats st))
        \/ (~ no_content url
            /\ stats st' = counted_success (List.length data) (stats st))).
Proof.
  unfold scrape_url, no_content, try_except.
  unfold bind at 1. unfold logger_info at 1, log_at, modify.
  unfold bind at 1. unfold of_res at 1.
  destruct (http_get url) as [content | e].
  - unfold bind at 1. unfold of_res at 1.
    unfold StructuredDataParser.__init__.
    destruct content as [|ch content]; cbn [is_empty].
    + eexists. eexists. split; [reflexivity|].
      split; [reflexivity|]. split; [constructor|]. left. now repeat split.
    + unfold bind at 1. cbn [fst snd].
      match goal with
      | |- context [call_parser ?init ?run ?s] =>
          destruct (call_parser init run s) as [r st1] eqn:Hcall
      end.
      unfold call_parser in Hcall.
      match type of Hcall with
      | (let (_, _) := _ ?ps in _) = _ =>
          destruct (parse_structured_data_returns
                      {| soup := document (html_parser (String ch content));
                         url := url; domain := netloc url |} ps)
            as (data & pst' & Hparse)
      end.
      rewrite Hparse in Hcall. injection Hcall as <- <-.
      eexists. eexists. split; [reflexivity|].
      destruct (parse_structure _ _ _ _ Hparse)
        as (t & l & s & v & _ & _ & _ & _ & _ & Hbeyond).
      unfold beyond_log in Hbeyond. injection Hbeyond as _ Hfiles _.
      split; [exact Hfiles|].
      split; [exact (parse_exportable _ _ _ _ Hparse)|].
      right. split; [discriminate | reflexivity].
  - eexists. eexists. split; [reflexivity|].
    split; [reflexivity|]. split; [constructor|]. left. now repeat split.
Qed.

(** ** The counters of a run *)

Lemma scrape_all_outcome `{Externals} (urls : list string) :
  forall (all_data url_reports : list Dict) (st : ScraperState),
  exists data reports st',
    scrape_all urls all_data url_reports st
    = (Ok (all_data ++ data, url_reports ++ reports), st')
    /\ files (world st') = files (world st)
    /\ Forall exportable data
    /\ (data <> [] -> reports <> [])
    /\ List.length reports = List.length urls
    /\ start_time (stats st') = start_time (stats st)
    /\ urls_processed (stats st')
       = urls_processed (stats st) + List.length urls
    /\ urls_successful (stats st') + urls_failed (stats st')
       = urls_successful (stats st) + urls_failed (stats st)
         + List.length urls
    /\ total_records (stats st')
       = total_records (stats st) + List.length data.
Proof.
  induction urls as [|url urls IH]; intros all_data url_reports st.
  - exists [], [], st. cbn [scrape_all]. unfold ret.
    rewrite !app_nil_r. cbn [List.length].
    repeat split; auto; lia.
  - cbn [scrape_all]. unfold bind.
    destruct (scrape_url_outcome url st)
      as (data & st1 & -> & Hfiles & Hdata & Hstats).
    destruct (IH (all_data ++ data)
                 (url_reports ++ [url_report url data]) st1)
      as (rest & reports & st' & -> & Hfiles' & Hrest & _ & Hlen & Hstart
          & Hproc & Hsum & Htotal).
    exists (data ++ rest), (url_report url data :: reports), st'.
    rewrite <- !app_assoc. cbn [app].
    split; [reflexivity|].
    split; [congruence|].
    split; [now apply Forall_app|].
    split; [discriminate|].
    rewrite length_app. cbn [List.length].
    destruct Hstats as [(_ & Hnone & Hs) | (_ & Hs)];
      rewrite Hs in *; try subst data;
      cbn [counted_failure counted_success start_time urls_processed
           urls_successful urls_failed total_records List.length] in *;
      repeat split; lia.
Qed.

Lemma preserves_call_world {A : Type} (c : M World A) :
  preserves stats (call_world c).
Proof. intros st. unfold call_world. now destruct (c (world st)). Qed.

Lemma preserves_scraper_log (lvl : LogLevel) (m : LogMsg) :
  preserves stats (log_at (S:=ScraperState) lvl m).
Proof. intros st. reflexivity. Qed.

Lemma summary_preserves_stats `{Externals} (output_base : string)
      (url_reports data : list Dict) :
  preserves stats (_create_summary_report output_base url_reports data).
Proof.
  unfold _create_summary_report.
  apply preserves_bind; [apply preserves_gets | intros s].
  apply preserves_bind;
    [apply preserves_if; [apply preserves_raise | apply preserves_ret]
    | intros _].
  apply preserves_bind; [apply preserves_call_world | intros now].
  apply preserves_try_except.
  - apply preserves_bind; [apply preserves_call_world | intros _].
    apply preserves_scraper_log.
  - intros e. apply preserves_scraper_log.
Qed.

Lemma export_results_preserves_stats `{Externals} (data : list Dict)
      (output_base : string) (url_reports : list Dict) :
  preserves stats (_export_results data output_base url_reports).
Proof.
  unfold _export_results.
  apply preserves_bind; [apply preserves_of_res | intros exporter].
  apply preserves_bind; [apply preserves_call_world | intros _].
  apply preserves_bind; [apply preserves_call_world | intros _].
  apply summary_preserves_stats.
Qed.

Lemma run_scraping_outcome `{Externals} (urls : list string)
      (output_base : string) (st : ScraperState) :
  exists data reports st1,
    scrape_all urls [] []
      (write_log (INFO, Starting_scraping (List.length urls)) st)
    = (Ok (data, reports), st1)
    /\ files (world st1) = files (world st)
    /\ Forall exportable data
    /\ (data <> [] -> reports <> [])
    /\ List.length reports = List.length urls
    /\ start_time (stats st1) = start_time (stats st)
    /\ urls_processed (stats st1)
       = urls_processed (stats st) + List.length urls
    /\ urls_successful (stats st1) + urls_failed (stats st1)
       = urls_successful (stats st) + urls_failed (stats st)
         + List.length urls
    /\ total_records (stats st1)
       = total_records (stats st) + List.length data
    /\ run_scraping urls output_base st
       = ((if is_nil data then logger_warning No_data_collected
           else _export_results data output_base reports) ;;;
          (s <- gets stats ;;
           ret {| result_data := data; result_url_reports := reports;
                  result_stats := s |})) st1.
Proof.
  destruct (scrape_all_outcome urls [] []
              (write_log (INFO, Starting_scraping (List.length urls)) st))
    as (data & reports & st1 & Hall & Hrest).
  exists data, reports, st1. cbn [app] in Hall.
  split; [exact Hall|].
  repeat (split; [exact (proj1 Hrest)|]; destruct Hrest as [_ Hrest]).
  split; [exact Hrest|].
  unfold run_scraping. unfold bind at 1.
  unfold logger_info at 1, log_at, modify.
  unfold bind at 1. rewrite Hall. reflexivity.
Qed.

(** After a run that returns, the counters of the result account for
    every URL: each one was processed, each one is either successful
    or failed, there is one report per URL, and [total_records] grew
    by the number of records returned. *)
Theorem run_counters_account_for_every_url `{Externals}
        (urls : list string) (output_base : string)
        (st st' : ScraperState) (result : RunResult) :
  run_scraping urls output_base st = (Ok result, st') ->
  List.length (result_url_reports result) = List.length urls
  /\ urls_processed (result_stats result)
     = urls_processed (stats st) + List.length urls
  /\ urls_successful (result_stats result)
     + urls_failed (result_stats result)
     = urls_successful (stats st) + urls_failed (stats st)
       + List.length urls
  /\ total_records (result_stats result)
     = total_records (stats st) + List.length (result_data result)
  /\ start_time (result_stats result) = start_time (stats st).
Proof.
  destruct (run_scraping_outcome urls output_base st)
    as (data & reports & st1 & _ & _ & _ & _ & Hlen & Hstart & Hproc
        & Hsum & Htotal & ->).
  intros Hrun. apply bind_returned in Hrun.
  destruct Hrun as ([] & st2 & Hexport & Hrun).
  assert (Hsame : stats st2 = stats st1).
  { destruct (is_nil data).
    - injection Hexport as <-. reflexivity.
    - pose proof (export_results_preserves_stats data output_base reports
                    st1) as Hp.
      now rewrite Hexport in Hp. }
  unfold bind, gets, ret in Hrun. injection Hrun as <- <-.
  cbn [result_data result_url_reports result_stats].
  rewrite Hsame. repeat split; assumption.
Qed.

(** A run that collects no record writes no file: neither a data file
    nor the summary. *)
Theorem run_without_records_writes_no_file `{Externals}
        (urls : list string) (output_base : string)
        (st st' : ScraperState) (result : RunResult) :
  run_scraping urls output_base st = (Ok result, st') ->
  result_data result = [] ->
  files (world st') = files (world st).
Proof.
  destruct (run_scraping_outcome urls output_base st)
    as (data & reports & st1 & _ & Hfiles & _ & _ & _ & _ & _ & _ & _
        & ->).
  intros Hrun Hdata. destruct data as [|r data].
  - cbn [is_nil] in Hrun. injection Hrun as _ <-. exact Hfiles.
  - exfalso. apply bind_returned in Hrun.
    destruct Hrun as ([] & st2 & _ & Hrun).
    unfold bind, gets, ret in Hrun. injection Hrun as <- _.
    discriminate Hdata.
Qed.

(** ** What a run can raise *)

Lemma raises_only_returns {S A : Type} (Q : PyExn -> Prop) (c : M S A) :
  returns c -> raises_only Q c.
Proof.
  intros Hret s e s' Hraise. destruct (Hret s) as (a & s1 & Hok).
  congruence.
Qed.

Lemma raises_only_bind {S A B : Type} (Q : PyExn -> Prop) (c : M S A)
      (f : A -> M S B) :
  raises_only Q c ->
  (forall a s s1, c s = (Ok a, s1) -> raises_only Q (f a)) ->
  raises_only Q (bind c f).
Proof.
  intros Hc Hf s e s'. unfold bind.
  destruct (c s) as [[a | e1] s1] eqn:Hcs.
  - apply (Hf a s s1 Hcs).
  - intros [= <- <-]. exact (Hc s e1 s1 Hcs).
Qed.

Lemma raises_only_for_each {S A : Type} (Q : PyExn -> Prop) (l : list A)
      (body : A -> M S unit) :
  (forall x, In x l -> raises_only Q (body x)) ->
  raises_only Q (for_each l body).
Proof.
  induction l as [|x l IH]; intros Hbody; cbn [for_each].
  - intros s e s'. discriminate.
  - apply raises_only_bind; [apply Hbody; now left|].
    intros _ _ _ _. apply IH. intros y Hy. apply Hbody. now right.
Qed.

Lemma raises_only_call_world {A : Type} (Q : PyExn -> Prop)
      (c : M World A) :
  raises_only Q c -> raises_only Q (call_world c).
Proof.
  intros Hc st e st'. unfold call_world.
  destruct (c (world st)) as [r w] eqn:Hcw. intros [= -> _].
  exact (Hc _ _ _ Hcw).
Qed.

(** Writing the main file raises only when the file cannot be
    opened. *)
Lemma export_raises_only `{Externals} (self : Exporter)
      (filename : string) :
  raises_only cannot_open (export_formatted_csv self filename).
Proof.
  intros w e w'. unfold export_formatted_csv.
  destruct (is_nil (data self)); [discriminate|].
  unfold try_except, open_w. unfold bind at 1.
  destruct (can_open (with_csv_suffix filename)) eqn:Hopen.
  - discriminate.
  - intros [= <- _]. now exists (with_csv_suffix filename).
Qed.

(** No unified row is a version record with a number for text. *)
Lemma organized_sliceable (record row : Dict) :
  organize_record record = Ok row -> ~ unsliceable row.
Proof.
  unfold organize_record, unsliceable.
  repeat match goal with
         | |- context [if ?b then _ else _] => destruct b
         end;
    try (intros [= <-] (_ & n & [=])).
  destruct (get record "full_text" empty_str) as [s | z];
    cbn [slice_100]; [|discriminate].
  intros [= <-] (_ & n & [=]).
Qed.

Lemma organized_rows (data rows : list Dict) :
  Forall exportable data ->
  _organize_data data = Ok rows ->
  Forall exportable rows.
Proof.
  revert rows. induction data as [|record data IH]; intros rows Hdata;
    cbn [_organize_data].
  - intros [= <-]. constructor.
  - destruct (organize_record record) as [row | e] eqn:Hrow;
      [|discriminate].
    destruct (_organize_data data) as [rest | e]; [|discriminate].
    intros [= <-]. inversion Hdata as [|? ? [Hkey _] Hrest]; subst.
    constructor; [|now apply IH].
    split; [|exact (organized_sliceable record row Hrow)].
    now rewrite (organize_record_type_key record row Hrow).
Qed.

Lemma export_by_type_raises_only `{Externals} (self : Exporter)
      (base_filename : string) :
  Forall exportable (data self) ->
  raises_only cannot_open (export_by_data_type self base_filename).
Proof.
  intros Hrows. unfold export_by_data_type.
  destruct (group_fold_files (data self) [] [])
    as (_ & Hgroups & _);
    [split; [constructor|]; split; [constructor | intros r []]|].
  cbn [app] in Hgroups. fold (group_by_type (data self)) in Hgroups.
  apply raises_only_for_each. intros [data_type records] Hin.
  pose proof (proj1 (Forall_forall _ _) Hgroups _ Hin) as [Hof Hne].
  cbn [fst snd] in Hof, Hne.
  assert (Hsub : Forall exportable records).
  { subst records. unfold rows_of_key. apply Forall_forall.
    intros r Hr. apply filter_In in Hr.
    exact (proj1 (Forall_forall _ _) Hrows r (proj1 Hr)). }
  assert (Htext : exists t, data_type = VStr t).
  { destruct records as [|r rest]; [contradiction|].
    assert (Hr : In r (rows_of_key data_type (data self)))
      by (rewrite <- Hof; now left).
    apply filter_In in Hr. destruct Hr as [Hr Hkey].
    apply val_eqb_eq in Hkey. subst data_type.
    exact (proj1 (proj1 (Forall_forall _ _) Hrows r Hr)). }
  destruct Htext as (t & ->). cbn [clean_type_of].
  destruct (exportable_organized records Hsub) as (rows & Hrows').
  unfold FormattedCSVExporter.__init__. rewrite Hrows'.
  intros w e w'. unfold bind at 1, of_res at 1.
  destruct records as [|r rest]; [contradiction|]. cbn [is_nil].
  unfold bind at 1, of_res at 1. unfold bind at 1.
  destruct (export_formatted_csv _ _ w) as [[[] | e1] w1] eqn:Hexport.
  - discriminate.
  - intros [= <- _]. exact (export_raises_only _ _ _ _ _ Hexport).
Qed.

(** ** Runs when a library call raises *)

(** What [scrape_url] does with a page: it returns and writes no
    file; a page that fails gives no record, any other page gives the
    records of its pass, which the exporter can take. *)
Lemma page_outcome `{Externals} `{Refusals} (url : string)
      (st : ScraperState) :
  exists data st',
    Raising.scrape_url url st = (Ok data, st')
    /\ files (world st') = files (world st)
    /\ Forall exportable data
    /\ ((exists e, page_fails url e /\ data = []
                   /\ st' = failure_logged url e st)
        \/ ((forall e, ~ page_fails url e)
            /\ stats st' = counted_success (List.length data) (stats st))).
Proof.
  unfold Raising.scrape_url, try_except.
  unfold bind at 1. unfold logger_info at 1, log_at, modify.
  unfold bind at 1. unfold of_res at 1.
  destruct (http_get url) as [content | e] eqn:Hget.
  - unfold bind at 1. unfold of_res at 1.
    unfold Raising.__init__.
    destruct content as [|ch content]; cbn [is_empty].
    + eexists. eexists. split; [reflexivity|].
      split; [reflexivity|]. split; [constructor|]. left.
      eexists. split; [now apply content_is_empty|]. now split.
    + unfold Raising.beautiful_soup, Raising.urlparse_netloc.
      destruct (parser_error (String ch content)) as [e1|] eqn:Hparser.
      { eexists. eexists. split; [reflexivity|].
        split; [reflexivity|]. split; [constructor|]. left.
        exists e1. split; [|now split].
        now apply (markup_is_rejected url (String ch content)). }
      destruct (url_error url) as [e2|] eqn:Hurl.
      { eexists. eexists. split; [reflexivity|].
        split; [reflexivity|]. split; [constructor|]. left.
        exists e2. split; [|now split].
        now apply (address_is_rejected url (String ch content)). }
      unfold bind at 1. cbn [fst snd].
      match goal with
      | |- context [call_parser ?init ?run ?s] =>
          destruct (call_parser init run s) as [r st1] eqn:Hcall
      end.
      unfold call_parser in Hcall.
      match type of Hcall with
      | (let (_, _) := _ ?ps in _) = _ =>
          destruct (parse_structured_data_returns
                      {| soup := document (html_parser (String ch content));
                         url := url; domain := netloc url |} ps)
            as (data & pst' & Hparse)
      end.
      rewrite Hparse in Hcall. injection Hcall as <- <-.
      eexists. eexists. split; [reflexivity|].
      destruct (parse_structure _ _ _ _ Hparse)
        as (t & l & s & v & _ & _ & _ & _ & _ & Hbeyond).
      unfold beyond_log in Hbeyond. injection Hbeyond as _ Hfiles _.
      split; [exact Hfiles|].
      split; [exact (parse_exportable _ _ _ _ Hparse)|].
      right. split; [|reflexivity].
      intros e Hfails. inversion Hfails; congruence.
  - eexists. eexists. split; [reflexivity|].
    split; [reflexivity|]. split; [constructor|]. left.
    exists e. split; [now apply fetch_raises | now split].
Qed.

(** The loop over the URLs returns the records and the reports of its
    pages, one page per URL, and writes no file. *)
Lemma pages_outcome `{Externals} `{Refusals} (urls : list string) :
  forall (all_data url_reports : list Dict) (st : ScraperState),
  exists pages st',
    Raising.scrape_all urls all_data url_reports st
    = (Ok (all_data ++ List.concat (map snd pages),
           url_reports ++ map (fun ud => url_report (fst ud) (snd ud)) pages),
       st')
    /\ map fst pages = urls
    /\ files (world st') = files (world st)
    /\ Forall exportable (List.concat (map snd pages)).
Proof.
  induction urls as [|url urls IH]; intros all_data url_reports st.
  - exists [], st. cbn [Raising.scrape_all map List.concat]. unfold ret.
    rewrite !app_nil_r. repeat split; constructor.
  - cbn [Raising.scrape_all]. unfold bind.
    destruct (page_outcome url st)
      as (data & st1 & -> & Hfiles & Hdata & _).
    destruct (IH (all_data ++ data)
                 (url_reports ++ [url_report url data]) st1)
      as (pages & st' & -> & Hurls & Hfiles' & Hrest).
    exists ((url, data) :: pages), st'.
    cbn [map List.concat fst snd]. rewrite <- !app_assoc. cbn [app].
    split; [reflexivity|]. split; [now rewrite Hurls|].
    split; [congruence|]. now apply Forall_app.
Qed.

(** The row of a report of a run: the display raises when the
    address cannot be split and for nothing else. *)
Lemma url_summary_row_built `{Externals} `{Refusals} (url : string)
      (data : list Dict) :
  Raising.url_summary_row (url_report url data)
  = match url_error url with
    | Some e => Raise e
    | None => Ok (url_summary_row (url_report url data))
    end.
Proof.
  unfold Raising.url_summary_row, url_report, url_summary_row.
  cbn [Raising.item lookup dict_of]. cbv beta iota delta [Raising.item].
  change (lookup (dict_of [("url", VStr url);
                           ("records_extracted",
                            VInt (Z.of_nat (List.length data)));
                           ("status",
                            VStr (if is_nil data then "failed"
                                  else "success"))]) "url")
    with (Some (VStr url)).
  cbn [Raising.netloc_of]. unfold Raising.urlparse_netloc.
  destruct (url_error url); reflexivity.
Qed.

Lemma url_summary_rows_built `{Externals} `{Refusals}
      (pages : list (string * list Dict)) :
  match Raising.url_summary_rows
          (map (fun ud => url_report (fst ud) (snd ud)) pages) with
  | Ok rows =>
      rows = map url_summary_row
                 (map (fun ud => url_report (fst ud) (snd ud)) pages)
      /\ forall url, In url (map fst pages) -> url_error url = None
  | Raise e => exists url, In url (map fst pages) /\ url_error url = Some e
  end.
Proof.
  induction pages as [|[url data] pages IH];
    cbn [map Raising.url_summary_rows fst snd].
  - split; [reflexivity | intros url []].
  - rewrite url_summary_row_built.
    destruct (url_error url) as [e|] eqn:Hurl.
    + exists url. split; [now left | exact Hurl].
    + destruct (Raising.url_summary_rows _) as [rows | e].
      * destruct IH as [-> Hrest]. split; [reflexivity|].
        intros u [<- | Hu]; [exact Hurl | now apply Hrest].
      * destruct IH as (u & Hu & He). exists u. split; [now right | exact He].
Qed.

(** The three ways the summary ends, once there is a report. *)
Lemma summary_outcome `{Externals} `{Refusals}
        (output_base : string) (url_reports data : list Dict)
        (st : ScraperState) :
  url_reports <> [] ->
  let filename := output_base +++ "_summary.csv" in
  match Raising.url_summary_rows url_reports with
  | Raise e =>
      Raising._create_summary_report output_base url_reports data st
      = (Raise e, ticked st)
  | Ok url_rows =>
      if can_open filename
      then
        exists overall,
          Raising._create_summary_report output_base url_reports data st
          = (Ok tt,
             {| stats := stats st;
                world :=
                  {| log := log (world st)
                            ++ [(INFO, Summary_report_exported filename)];
                     files :=
                       (filename,
                        {| fieldnames := summary_fieldnames;
                           rows := [overall] ++ url_rows
                                   ++ map (type_summary_row
                                             (List.length data))
                                          (count_by_type data) |})
                       :: files (world st);
                     ticks := S (ticks (world st)) |} |})
      else
        Raising._create_summary_report output_base url_reports data st
        = (Ok tt,
           {| stats := stats st;
              world :=
                {| log := log (world st)
                          ++ [(ERROR,
                               Error_exporting_summary (OSError filename))];
                   files := files (world st);
                   ticks := S (ticks (world st)) |} |})
  end.
Proof.
  intros Hreports filename.
  destruct url_reports as [|report url_reports]; [contradiction|].
  destruct (Raising.url_summary_rows (report :: url_reports))
    as [url_rows | e] eqn:Hrows;
    [destruct (can_open filename) eqn:Hopen; [eexists|]|];
    unfold Raising._create_summary_report;
    cbn [List.length Nat.eqb];
    (unfold bind at 1; unfold gets at 1);
    (unfold bind at 1; unfold ret at 1);
    (unfold bind at 1; unfold call_world at 1; cbn [fst snd world]);
    (unfold bind at 1; unfold of_res at 1); rewrite Hrows;
    try reflexivity;
    unfold try_except; (unfold bind at 1; unfold call_world at 1);
    (unfold bind at 1; unfold open_w at 1); fold filename; rewrite Hopen;
    reflexivity.
Qed.

(** With the reports of a run the summary raises only the exception
    of an address that cannot be split. *)
Lemma summary_raises_for_an_address `{Externals} `{Refusals} (output_base : string)
      (pages : list (string * list Dict)) (data : list Dict) :
  pages <> [] ->
  raises_only (fun e => exists url,
                 In url (map fst pages) /\ url_error url = Some e)
    (Raising._create_summary_report output_base (reports_of pages) data).
Proof.
  intros Hpages st e st' Hrun.
  assert (Hreports : reports_of pages <> [])
    by (destruct pages; [contradiction | discriminate]).
  pose proof (summary_outcome output_base
                (reports_of pages) data st Hreports) as Hsummary.
  cbv zeta in Hsummary.
  pose proof (url_summary_rows_built pages) as Hrows.
  fold (reports_of pages) in Hrows.
  destruct (Raising.url_summary_rows (reports_of pages)) as [rows | e1].
  - destruct (can_open _).
    + destruct Hsummary as (overall & Hsummary). congruence.
    + congruence.
  - rewrite Hsummary in Hrun. injection Hrun as <- _. exact Hrows.
Qed.

(** What [_export_results] lets out with the records and the reports
    of a run. *)
Lemma export_raises_for_a_file_or_an_address `{Externals} `{Refusals}
      (data : list Dict) (output_base : string)
      (pages : list (string * list Dict)) :
  Forall exportable data -> pages <> [] ->
  raises_only (fun e => cannot_open e
                        \/ exists url, In url (map fst pages)
                                       /\ url_error url = Some e)
    (Raising._export_results data output_base (reports_of pages)).
Proof.
  intros Hdata Hpages. unfold Raising._export_results.
  destruct (exportable_organized data Hdata) as (rows & Hrows).
  unfold FormattedCSVExporter.__init__. rewrite Hrows.
  apply raises_only_bind; [intros s e s'; discriminate|].
  intros exporter s s1 [= <- _].
  apply raises_only_bind.
  { apply raises_only_call_world. intros w e w' Hraise. left.
    exact (export_raises_only _ _ _ _ _ Hraise). }
  intros _ _ _ _. apply raises_only_bind.
  - apply raises_only_call_world. intros w e w' Hraise. left.
    refine (export_by_type_raises_only _ _ _ _ _ _ Hraise).
    cbn [FormattedCSVExporter.data]. now apply (organized_rows data).
  - intros _ _ _ _ s2 e s' Hraise. right.
    exact (summary_raises_for_an_address output_base pages data Hpages _ _ _ Hraise).
Qed.

(** A run up to its exports. *)
Lemma run_outcome `{Externals} `{Refusals} (urls : list string)
      (output_base : string) (st : ScraperState) :
  exists pages st1,
    map fst pages = urls
    /\ files (world st1) = files (world st)
    /\ Forall exportable (List.concat (map snd pages))
    /\ Raising.run_scraping urls output_base st
       = ((if is_nil (List.concat (map snd pages))
           then logger_warning No_data_collected
           else Raising._export_results (List.concat (map snd pages))
                  output_base (reports_of pages)) ;;;
          (s <- gets stats ;;
           ret {| result_data := List.concat (map snd pages);
                  result_url_reports := reports_of pages;
                  result_stats := s |})) st1.
Proof.
  destruct (pages_outcome urls [] []
              (write_log (INFO, Starting_scraping (List.length urls)) st))
    as (pages & st1 & Hall & Hurls & Hfiles & Hdata).
  exists pages, st1. cbn [app] in Hall.
  split; [exact Hurls|]. split; [exact Hfiles|]. split; [exact Hdata|].
  unfold Raising.run_scraping. unfold bind at 1.
  unfold logger_info at 1, log_at, modify.
  unfold bind at 1. rewrite Hall. reflexivity.
Qed.

(** Where neither library call raises, the constructor and the
    methods of [Raising] are those of [StructuredDataParser] and
    [FormattedScraper]. *)
Lemma constructor_agrees `{Externals} (html : option string) (url : string) :
  @Raising.__init__ _ accepting html url
  = StructuredDataParser.__init__ html url.
Proof. destruct html as [[|c html]|]; reflexivity. Qed.

Lemma scrape_url_agrees `{Externals} (url : string) :
  @Raising.scrape_url _ accepting url = scrape_url url.
Proof. reflexivity. Qed.

Lemma scrape_all_agrees `{Externals} (urls : list string) :
  forall all_data url_reports st,
    @Raising.scrape_all _ accepting urls all_data url_reports st
    = scrape_all urls all_data url_reports st.
Proof.
  induction urls as [|url urls IH]; intros all_data url_reports st;
    cbn [Raising.scrape_all scrape_all]; [reflexivity|].
  unfold bind. rewrite scrape_url_agrees.
  destruct (scrape_url url st) as [[data | e] st1]; [apply IH | reflexivity].
Qed.

Lemma summary_agrees `{Externals} (output_base : string)
      (pages : list (string * list Dict)) (data : list Dict)
      (st : ScraperState) :
  @Raising._create_summary_report _ accepting output_base
     (reports_of pages) data st
  = _create_summary_report output_base (reports_of pages) data st.
Proof.
  unfold Raising._create_summary_report, _create_summary_report.
  unfold bind, gets, of_res.
  destruct (List.length (reports_of pages) =? 0); [reflexivity|].
  unfold ret, call_world. cbn [fst snd world].
  pose proof (@url_summary_rows_built _ accepting pages) as Hrows.
  fold (reports_of pages) in Hrows.
  destruct (Raising.url_summary_rows (reports_of pages)) as [rows | e].
  - destruct Hrows as [-> _]. reflexivity.
  - destruct Hrows as (url & _ & [=]).
Qed.

Lemma run_agrees `{Externals} (urls : list string) (output_base : string)
      (st : ScraperState) :
  @Raising.run_scraping _ accepting urls output_base st
  = run_scraping urls output_base st.
Proof.
  unfold Raising.run_scraping, run_scraping.
  unfold bind, logger_info, log_at, modify.
  rewrite <- scrape_all_agrees.
  destruct (@pages_outcome _ accepting urls [] []
              (write_log (INFO, Starting_scraping (List.length urls)) st))
    as (pages & st1 & -> & _).
  cbn [app]. fold (reports_of pages).
  destruct (List.concat (map snd pages)) as [|r data]; cbn [is_nil];
    [reflexivity|].
  assert (Hexport :
    @Raising._export_results _ accepting (r :: data) output_base
       (reports_of pages) st1
    = _export_results (r :: data) output_base (reports_of pages) st1).
  { unfold Raising._export_results, _export_results. unfold bind.
    destruct (of_res (FormattedCSVExporter.__init__ (r :: data)) st1)
      as [[exporter | e] s1]; [|reflexivity].
    destruct (call_world (export_formatted_csv exporter output_base) s1)
      as [[[] | e] s2]; [|reflexivity].
    destruct (call_world (export_by_data_type exporter output_base) s2)
      as [[[] | e] s3]; [|reflexivity].
    apply summary_agrees. }
  rewrite Hexport. reflexivity.
Qed.


(** Two exceptions can leave a run: the failure to open a data file,
    from the exporter, and the exception of [urlparse] for a URL of
    the run whose address cannot be split, from the rows of the
    summary.  A page that cannot be fetched or parsed and a summary
    file that cannot be opened never stop a run. *)
Theorem run_raises_for_a_data_file_or_an_address `{Externals} `{Refusals}
        (urls : list string) (output_base : string)
        (st st' : ScraperState) (e : PyExn) :
  Raising.run_scraping urls output_base st = (Raise e, st') ->
  cannot_open e
  \/ exists url, In url urls /\ url_error url = Some e.
Proof.
  destruct (run_outcome urls output_base st)
    as (pages & st1 & Hurls & _ & Hdata & ->).
  unfold bind at 1.
  destruct (List.concat (map snd pages)) as [|r data] eqn:Hall;
    cbn [is_nil].
  - discriminate.
  - destruct (Raising._export_results (r :: data) output_base
                (reports_of pages) st1) as [[[] | e1] st2] eqn:Hexport.
    + discriminate.
    + intros [= <- _]. rewrite <- Hurls.
      apply (export_raises_for_a_file_or_an_address (r :: data) output_base pages
               Hdata) in Hexport; [exact Hexport|].
      intros ->. discriminate Hall.
Qed.

(** The [try] of the summary covers the write only.  With at least
    one report: an exception of the rows of the reports leaves the
    method after the clock was read and before any file is opened;
    once the rows are built, a summary file that cannot be opened is
    logged as an error and the method returns, and one that can be
    opened is written with the overall row, the rows of the reports
    and the rows of the types. *)
Theorem summary_try_covers_the_write_only `{Externals} `{Refusals}
        (output_base : string) (url_reports data : list Dict)
        (st : ScraperState) :
  url_reports <> [] ->
  let filename := output_base +++ "_summary.csv" in
  match Raising.url_summary_rows url_reports with
  | Raise e =>
      Raising._create_summary_report output_base url_reports data st
      = (Raise e, ticked st)
  | Ok url_rows =>
      if can_open filename
      then
        exists overall,
          Raising._create_summary_report output_base url_reports data st
          = (Ok tt,
             {| stats := stats st;
                world :=
                  {| log := log (world st)
                            ++ [(INFO, Summary_report_exported filename)];
                     files :=
                       (filename,
                        {| fieldnames := summary_fieldnames;
                           rows := [overall] ++ url_rows
                                   ++ map (type_summary_row
                                             (List.length data))
                                          (count_by_type data) |})
                       :: files (world st);
                     ticks := S (ticks (world st)) |} |})
      else
        Raising._create_summary_report output_base url_reports data st
        = (Ok tt,
           {| stats := stats st;
              world :=
                {| log := log (world st)
                          ++ [(ERROR,
                               Error_exporting_summary (OSError filename))];
                   files := files (world st);
                   ticks := S (ticks (world st)) |} |})
  end.
Proof. apply summary_outcome. Qed.

(** On a disk where every file can be opened, a run over URLs whose
    addresses can all be split always returns.  With no record it
    writes nothing; otherwise it writes the main file first, then one
    file per data type, then the summary, and nothing else. *)
Theorem open_disk_run_writes_every_file `{Externals} `{Refusals}
        (urls : list string) (output_base : string) (st : ScraperState) :
  (forall filename, can_open filename = true) ->
  (forall url, In url urls -> url_error url = None) ->
  exists result st',
    Raising.run_scraping urls output_base st = (Ok result, st')
    /\ (result_data result = [] -> files (world st') = files (world st))
    /\ (result_data result <> [] ->
        exists exporter summary,
          FormattedCSVExporter.__init__ (result_data result) = Ok exporter
          /\ files (world st')
             = (output_base +++ "_summary.csv", summary)
               :: rev (map (type_file output_base)
                           (group_by_type
                              (FormattedCSVExporter.data exporter)))
               ++ (with_csv_suffix output_base,
                   {| fieldnames := sorted all_columns;
                      rows := map full_record
                                  (FormattedCSVExporter.data exporter) |})
               :: files (world st)).
Proof.
  intros Hopen Haccepted.
  destruct (run_outcome urls output_base st)
    as (pages & st1 & Hurls & Hfiles & Hdata & ->).
  destruct (List.concat (map snd pages)) as [|r data] eqn:Hall;
    cbn [is_nil].
  - eexists. eexists. split; [reflexivity|].
    cbn [result_data]. split; [intros _; exact Hfiles|].
    intros Hne. now contradiction Hne.
  - destruct (exportable_organized (r :: data) Hdata) as (rows & Horg).
    assert (Hrows : rows <> []).
    { intros ->. apply organize_data_length in Horg. discriminate Horg. }
    set (exporter := {| original_data := r :: data;
                        FormattedCSVExporter.data := rows |}).
    assert (Hinit : FormattedCSVExporter.__init__ (r :: data) = Ok exporter).
    { unfold FormattedCSVExporter.__init__. now rewrite Horg. }
    pose proof (export_formatted_csv_writes exporter output_base
                  (world st1) Hrows (Hopen _)) as Hmain.
    match type of Hmain with _ = (_, ?w) => set (w2 := w) in * end.
    destruct (type_export_files exporter output_base w2 Hopen
                (organized_rows _ _ Hdata Horg))
      as (w3 & Htypes & Hfiles3).
    set (st3 := {| stats := stats st1; world := w3 |}).
    assert (Hreports : reports_of pages <> []).
    { destruct pages; [discriminate Hall | discriminate]. }
    pose proof (summary_outcome output_base (reports_of pages) (r :: data)
                  st3 Hreports) as Hsummary.
    cbv zeta in Hsummary. rewrite Hopen in Hsummary.
    pose proof (url_summary_rows_built pages) as Hbuilt.
    fold (reports_of pages) in Hbuilt.
    destruct (Raising.url_summary_rows (reports_of pages)) as [url_rows | e].
    2:{ destruct Hbuilt as (url & Hin & Hrefused).
        rewrite Hurls in Hin. rewrite (Haccepted url Hin) in Hrefused.
        discriminate Hrefused. }
    destruct Hsummary as (overall & Hsummary).
    assert (Hexport :
      exists st4,
        Raising._export_results (r :: data) output_base (reports_of pages)
                                st1 = (Ok tt, st4)
        /\ exists summary,
             files (world st4)
             = (output_base +++ "_summary.csv", summary) :: files w3).
    { eexists. split.
      - unfold Raising._export_results. rewrite Hinit.
        unfold bind at 1, of_res at 1.
        unfold bind at 1. unfold call_world at 1. rewrite Hmain.
        unfold bind at 1. unfold call_world at 1. cbn [world].
        rewrite Htypes. exact Hsummary.
      - eexists. reflexivity. }
    destruct Hexport as (st4 & Hexport & summary & Hfiles4).
    unfold bind at 1. rewrite Hexport.
    eexists. eexists. split; [reflexivity|].
    cbn [result_data]. split; [discriminate|]. intros _.
    exists exporter, summary. split; [exact Hinit|].
    rewrite Hfiles4, Hfiles3.
    unfold w2. cbn [files]. rewrite Hfiles. reflexivity.
Qed.

(** ** The properties on the sample inputs *)

Lemma wide_record_cells_are_recoverable :
  4 < List.length (cell_fields wide_record)
  /\ exists row blob,
       organize_record wide_record = Ok row
       /\ lookup row "additional_data" = Some (VStr blob)
       /\ parse_dict blob = Some (cell_fields wide_record)
       /\ lookup (cell_fields wide_record) "Notes"
          = Some (VStr "It's stable").
Proof.
  split; [vm_compute; lia|].
  apply (wide_table_cells_recoverable wide_record "Notes"
           (VStr "It's stable")).
  - reflexivity.
  - split; reflexivity.
Defined.

Lemma wide_record_leaves_positional_columns_empty :
  organize_record wide_record
  = Ok [("record_id", VStr "0042_1");
        ("data_type", VStr "table_data");
        ("source_url", VStr page_url);
        ("domain", VStr "example.org");
        ("extraction_timestamp", VStr "2024-05-01T10:00:00");
        ("table_context", VStr "Table_1");
        ("row_index", VInt 1);
        ("column_1", VStr ""); ("column_2", VStr "");
        ("column_3", VStr ""); ("column_4", VStr "");
        ("additional_data", VStr (str_dict (cell_fields wide_record)))]
  /\ parse_dict (str_dict (cell_fields wide_record))
     = Some (cell_fields wide_record)
  /\ forall k v, cell_field wide_record k v ->
                 lookup (cell_fields wide_record) k = Some v.
Proof.
  apply (header_keyed_row_leaves_positional_columns_empty wide_record).
  - reflexivity.
  - intros name Hname. simpl in Hname.
    destruct Hname as [<- | [<- | [<- | [<- | []]]]]; reflexivity.
Defined.

Lemma sample_export_has_the_fixed_schema :
  exists w' file,
    @export_formatted_csv sample_externals sample_exporter "out" fresh_world
    = (Ok tt, w')
    /\ files w' = ("out.csv", file) :: files fresh_world
    /\ fieldnames file = unified_columns
    /\ rows file = map exported_row (data sample_exporter)
    /\ List.length (rows file) = List.length sample_records
    /\ StronglySorted (fun a b => String.ltb a b = true) unified_columns
    /\ forall col,
         In col unified_columns
         <-> In col base_columns
             \/ exists t cols,
                  In (t, cols) type_specific_columns /\ In col cols.
Proof.
  apply (@export_schema_is_fixed sample_externals sample_records
           sample_exporter "out" fresh_world).
  - vm_compute. reflexivity.
  - discriminate.
  - reflexivity.
Defined.

Lemma sample_run_reports_follow_record_counts :
  map (fun r => lookup r "status") (result_url_reports sample_result)
  = [Some (VStr "success"); Some (VStr "failed"); Some (VStr "failed")]
  /\ map (fun r => lookup r "records_extracted")
         (result_url_reports sample_result)
     = [Some (VInt 2); Some (VInt 0); Some (VInt 0)]
  /\ urls_successful (result_stats sample_result) = 2
  /\ let trace :=
       @scrape_trace sample_externals sample_urls
         (write_log (INFO, Starting_scraping (List.length sample_urls))
                    fresh_scraper) in
     map fst trace = sample_urls
     /\ result_data sample_result = List.concat (map snd trace)
     /\ result_url_reports sample_result
        = map (fun ud => url_report (fst ud) (snd ud)) trace
     /\ (result_data sample_result <> [] ->
         @can_open sample_externals ("out" +++ "_summary.csv") = true ->
         exists overall types,
           hd_error (files (world (snd sample_run)))
           = Some ("out" +++ "_summary.csv",
                   {| fieldnames := summary_fieldnames;
                      rows := [overall]
                              ++ map (@url_summary_row sample_externals)
                                     (result_url_reports sample_result)
                              ++ types |})).
Proof.
  split; [vm_compute; reflexivity|].
  split; [vm_compute; reflexivity|].
  split; [vm_compute; reflexivity|].
  apply (proj1 (@url_status_follows_record_count sample_externals)
           sample_urls "out" fresh_scraper sample_result (snd sample_run)).
  vm_compute. reflexivity.
Defined.

Lemma thead_table_raises_at_first_row :
  process_table (parser_of [thead_table]) (0, thead_table)
                (fresh_frame, fresh_state)
  = (Raise (UnboundLocalError "first_row"), (fresh_frame, fresh_state)).
Proof.
  apply (explicit_header_raises (parser_of [thead_table]) 0 thead_table
           (Elem "thead" [] [row [cell "th" "Name"; cell "th" "Notes"]])).
  - reflexivity.
  - vm_compute. discriminate.
  - vm_compute. discriminate.
  - reflexivity.
Defined.

Lemma list_page_records_have_one_id :
  lookup [("data_type", VStr "list_item");
          ("source_url", VStr page_url);
          ("domain", VStr "example.org");
          ("list_context", VStr "List");
          ("item_index", VInt 0);
          ("content", VStr "Alpha release");
          ("list_type", VStr "ul");
          ("total_items", VInt 2);
          ("extraction_timestamp", VStr "2024-05-01T10:00:00");
          ("record_id", VStr "6789_2")] "record_id"
  = lookup [("data_type", VStr "list_item");
            ("source_url", VStr page_url);
            ("domain", VStr "example.org");
            ("list_context", VStr "List");
            ("item_index", VInt 1);
            ("content", VStr "Beta release");
            ("list_type", VStr "ul");
            ("total_items", VInt 2);
            ("extraction_timestamp", VStr "2024-05-01T10:00:00");
            ("record_id", VStr "6789_2")] "record_id".
Proof.
  apply (@records_of_one_run_have_one_id sample_externals
           (parser_of [two_item_list]) fresh_state
           (snd (@parse_structured_data sample_externals
                   (parser_of [two_item_list]) fresh_state))
           [ [("data_type", VStr "list_item");
              ("source_url", VStr page_url);
              ("domain", VStr "example.org");
              ("list_context", VStr "List");
              ("item_index", VInt 0);
              ("content", VStr "Alpha release");
              ("list_type", VStr "ul");
              ("total_items", VInt 2);
              ("extraction_timestamp", VStr "2024-05-01T10:00:00");
              ("record_id", VStr "6789_2")];
             [("data_type", VStr "list_item");
              ("source_url", VStr page_url);
              ("domain", VStr "example.org");
              ("list_context", VStr "List");
              ("item_index", VInt 1);
              ("content", VStr "Beta release");
              ("list_type", VStr "ul");
              ("total_items", VInt 2);
              ("extraction_timestamp", VStr "2024-05-01T10:00:00");
              ("record_id", VStr "6789_2")] ]).
  - vm_compute. reflexivity.
  - left. reflexivity.
  - right. left. reflexivity.
Defined.

Lemma list_record_fields_reach_the_file :
  exists row,
    organize_record list_record = Ok row
    /\ lookup (full_record row) "content" = Some (VStr "Alpha release").
Proof.
  eexists. split; [reflexivity|].
  apply (organized_fields_reach_the_file list_record); reflexivity.
Defined.

Lemma list_row_is_unchanged :
  exists row,
    organize_record list_record = Ok row
    /\ organize_record row = Ok row.
Proof.
  eexists. split; [reflexivity|].
  apply (reorganized_row_is_unchanged list_record _ "list_item").
  - right. left. reflexivity.
  - reflexivity.
  - reflexivity.
Defined.

Lemma wide_row_nests_its_cells :
  exists row again,
    organize_record wide_record = Ok row
    /\ organize_record row = Ok again
    /\ lookup row "additional_data"
       = Some (VStr (str_dict (cell_fields wide_record)))
    /\ lookup again "additional_data"
       = Some (VStr (str_dict
            [("column_1", positional wide_record "column_1");
             ("column_2", positional wide_record "column_2");
             ("column_3", positional wide_record "column_3");
             ("column_4", positional wide_record "column_4");
             ("additional_data",
              VStr (str_dict (cell_fields wide_record)))])).
Proof.
  apply (reorganized_table_row_nests_its_cells wide_record). reflexivity.
Defined.

Lemma sample_counts_agree_with_the_groups :
  count_by_type sample_records
  = map (fun g => (fst g, List.length (snd g)))
        (group_by_type (FormattedCSVExporter.data sample_exporter)).
Proof.
  apply (summary_counts_match_the_type_files sample_records
           sample_exporter).
  vm_compute. reflexivity.
Defined.

Lemma sample_run_counts_its_three_urls :
  List.length (result_url_reports sample_result)
  = List.length sample_urls
  /\ urls_processed (result_stats sample_result)
     = urls_processed (stats fresh_scraper) + List.length sample_urls
  /\ urls_successful (result_stats sample_result)
     + urls_failed (result_stats sample_result)
     = urls_successful (stats fresh_scraper)
       + urls_failed (stats fresh_scraper) + List.length sample_urls
  /\ total_records (result_stats sample_result)
     = total_records (stats fresh_scraper)
       + List.length (result_data sample_result)
  /\ start_time (result_stats sample_result)
     = start_time (stats fresh_scraper).
Proof.
  apply (@run_counters_account_for_every_url sample_externals sample_urls
           "out" fresh_scraper (snd sample_run) sample_result).
  vm_compute. reflexivity.
Defined.

Lemma quiet_run_writes_no_file :
  files (world (snd quiet_run)) = files (world fresh_scraper).
Proof.
  apply (@run_without_records_writes_no_file sample_externals quiet_urls
           "out" fresh_scraper (snd quiet_run) quiet_result).
  - vm_compute. reflexivity.
  - vm_compute. reflexivity.
Defined.

Lemma bad_address_run_raises_in_the_summary :
  fst bad_address_run = Raise (ValueError "Invalid IPv6 URL")
  /\ (@cannot_open sample_externals (ValueError "Invalid IPv6 URL")
      \/ exists url,
           In url bad_address_urls
           /\ @url_error sample_refusals url
              = Some (ValueError "Invalid IPv6 URL")).
Proof.
  split; [vm_compute; reflexivity|].
  apply (@run_raises_for_a_data_file_or_an_address sample_externals
           sample_refusals bad_address_urls "out" fresh_scraper
           (snd bad_address_run)).
  vm_compute. reflexivity.
Defined.

Lemma blocked_summary_is_swallowed :
  @Raising._create_summary_report closed_externals sample_refusals "out"
    [url_report list_page_url [list_record]] [list_record] fresh_scraper
  = (Ok tt,
     {| stats := stats fresh_scraper;
        world :=
          {| log := log (world fresh_scraper)
                    ++ [(ERROR,
                         Error_exporting_summary
                           (OSError ("out" +++ "_summary.csv")))];
             files := files (world fresh_scraper);
             ticks := S (ticks (world fresh_scraper)) |} |}).
Proof.
  refine (@summary_try_covers_the_write_only closed_externals
            sample_refusals "out"
            [url_report list_page_url [list_record]] [list_record]
            fresh_scraper _).
  discriminate.
Defined.

Lemma numbered_version_raises :
  FormattedCSVExporter.__init__ [wide_record; numbered_version]
  = Raise TypeError
  <-> TypeError = TypeError
      /\ Exists unsliceable [wide_record; numbered_version].
Proof.
  apply (exporter_raises_on_numeric_full_text
           [wide_record; numbered_version] TypeError).
  repeat first [apply Forall_cons | apply Forall_nil];
    intros k z Hin; vm_compute in Hin;
    repeat match type of Hin with
           | _ \/ _ => destruct Hin as [Hin | Hin]; [discriminate Hin|]
           end;
    exact Hin.
Defined.

Lemma widget_has_letters :
  min_content_length SCRAPING_CONFIG <= length "Widget"
  /\ has_letter_pair "Widget".
Proof.
  apply (valid_content_has_letters "Widget" None). vm_compute. reflexivity.
Defined.

Lemma thead_table_after_plain_table_is_let_through :
  exists records st' added,
    _extract_structured_tables (parser_of [plain_table; thead_table])
                               fresh_state
    = (Ok records, st')
    /\ log (StructuredDataParser.world st')
       = log (StructuredDataParser.world fresh_state) ++ added
         ++ [(INFO, Extracted_table_records (List.length records))]
    /\ forall table_idx,
         ~ In (WARNING,
               Error_parsing_table table_idx (UnboundLocalError "first_row"))
              added.
Proof.
  apply (plain_first_table_binds_first_row
           (parser_of [plain_table; thead_table]) fresh_state
           plain_table [thead_table]).
  - reflexivity.
  - reflexivity.
Defined.


Lemma sample_run_writes_every_file :
  exists result st',
    @Raising.run_scraping sample_externals sample_refusals sample_urls
      "out" fresh_scraper
    = (Ok result, st')
    /\ (result_data result = [] ->
        files (world st') = files (world fresh_scraper))
    /\ (result_data result <> [] ->
        exists exporter summary,
          FormattedCSVExporter.__init__ (result_data result) = Ok exporter
          /\ files (world st')
             = ("out" +++ "_summary.csv", summary)
               :: rev (map (type_file "out")
                           (group_by_type
                              (FormattedCSVExporter.data exporter)))
               ++ (with_csv_suffix "out",
                   {| fieldnames := sorted all_columns;
                      rows := map full_record
                                  (FormattedCSVExporter.data exporter) |})
               :: files (world fresh_scraper)).
Proof.
  apply (@open_disk_run_writes_every_file sample_externals sample_refusals
           sample_urls "out" fresh_scraper).
  - intros filename. reflexivity.
  - intros url [<- | [<- | [<- | []]]]; reflexivity.
Defined.
